(** * PageFlip: the page-turn engine of 3d-simsek-book

    A shallow embedding of the [PageFlip] class (the 3D engine with drag
    support, and its older sibling in [src/modules/page-flip.js], whose
    [loadPages], [nextPage], [prevPage] and [goToPage] have the same state
    logic), followed by the properties of the engine.

    Modelling choices.
    - The engine object is a record [PageFlip]; every method is a function
      on it.  DOM elements are objects with identity: the spreads live in an
      element store ([elements]) and [pages] and [dragPage] hold references
      into it, so that a reference kept across [loadPages] still points to
      the old (detached) element.
    - Leaf indices and z-indices are integers ([Z]); [Math.floor (p / 2)]
      on an integer is [Z.div p 2], which rounds towards minus infinity.
    - Pointer coordinates, widths and the drag progress are JavaScript
      numbers.  They are modelled by exact rationals extended with the
      three non-finite values ([jsnum]); rounding of doubles is not
      modelled.  The test [dragProgress > 0.3] agrees with the exact
      comparison against 3/10 on every double, since no double lies
      between the double nearest to 0.3 and 3/10 itself.
    - An [async] method runs synchronously up to its first [await] and is
      resumed later, when the awaited animation promise resolves.  Each is
      split into the part before the [await] ([_call], [_start]) and the
      continuation ([_resume]); the suspended continuations are the
      [Task]s of a configuration.
    - The observer callbacks [onFlipStart] / [onFlipEnd] only observe: a
      call appends a [Notification] to the [log] when the callback is
      installed.
    - Only the style fields the engine's bookkeeping is about are kept per
      spread: z-index, the [rotateY] angle of [style.transform], the
      transition and the dragging class.  Overlay opacities, shadows and
      the transform origin are presentation only and are left out. *)

From Stdlib Require Import ZArith QArith Lia Lqa Bool Ascii String.
From stdpp Require Import base list.

Local Open Scope Z_scope.

(* ================================================================== *)
(** ** JavaScript numbers *)

Module JsNum.

Inductive jsnum : Type :=
| Fin (q : Q)
| PosInf
| NegInf
| NaN.

(** [a / b] for finite [a] and [b], where a zero divisor is [+0]. *)
Definition div (a b : Q) : jsnum :=
  if Qeq_bool b 0 then
    if Qlt_le_dec 0 a then PosInf
    else if Qlt_le_dec a 0 then NegInf
    else NaN
  else Fin (a / b).

(** [Math.min (q, v)] for a finite [q]. *)
Definition min (q : Q) (v : jsnum) : jsnum :=
  match v with
  | Fin r => Fin (if Qlt_le_dec r q then r else q)
  | PosInf => Fin q
  | NegInf => NegInf
  | NaN => NaN
  end.

(** [Math.max (q, v)] for a finite [q]. *)
Definition max (q : Q) (v : jsnum) : jsnum :=
  match v with
  | Fin r => Fin (if Qlt_le_dec q r then r else q)
  | PosInf => PosInf
  | NegInf => Fin q
  | NaN => NaN
  end.

(** [v * q] and [q + v] for a finite, positive [q]. *)
Definition scale (v : jsnum) (q : Q) : jsnum :=
  match v with
  | Fin r => Fin (r * q)
  | other => other
  end.

Definition shift (q : Q) (v : jsnum) : jsnum :=
  match v with
  | Fin r => Fin (q + r)
  | other => other
  end.

Definition neg (v : jsnum) : jsnum :=
  match v with
  | Fin r => Fin (- r)
  | PosInf => NegInf
  | NegInf => PosInf
  | NaN => NaN
  end.

(** [v > q]: every comparison with [NaN] is false. *)
Definition gt (v : jsnum) (q : Q) : bool :=
  match v with
  | Fin r => if Qlt_le_dec q r then true else false
  | PosInf => true
  | NegInf => false
  | NaN => false
  end.

End JsNum.

Import JsNum.

(* ================================================================== *)
(** ** Data model *)

(** Page contents as [_createPage] tells them apart: a string (markup
    when it starts with [<], an image source otherwise) or an element
    (an [HTMLElement] or a canvas), named by a handle. *)
Inductive Content : Type :=
| CString (s : string)
| CElement (handle : nat).

(** JavaScript truthiness, as used by [pageContents[i + 1] || null] and
    [if (rightContent)]: the empty string is falsy, objects are truthy. *)
Definition truthy (c : Content) : bool :=
  match c with
  | CString s => negb (String.eqb s EmptyString)
  | CElement _ => true
  end.

Inductive Direction : Type := next | prev.

(** The direction argument of a callback: ['next'], ['prev'], ['goto'],
    or [null] (the value of [this.dragDirection] when no drag is set). *)
Inductive DirArg : Type := dNext | dPrev | dGoto | dNull.

Definition dirArg (d : option Direction) : DirArg :=
  match d with
  | Some next => dNext
  | Some prev => dPrev
  | None => dNull
  end.

Inductive Notification : Type :=
| FlipStart (page : Z) (d : DirArg)
| FlipEnd (page : Z) (d : DirArg).

(** [style.transition] of a spread: ['none'], [''], or
    ['transform <ms>ms cubic-bezier(...)']. *)
Inductive Transition : Type :=
| TransitionNone
| TransitionUnset
| TransitionTransform (ms : Q).

(** A spread element.  [zIndex] and [rotateY] are [None] until the style
    property is first assigned. *)
Record Spread : Type := mkSpread {
  leftPage : Content;
  rightPage : option Content;
  dataIndex : Z;
  zIndex : option Z;
  rotateY : option jsnum;
  transition : Transition;
  dragging : bool
}.

(** A reference to an element of the store. *)
Abbreviation ref := nat (only parsing).

Record Options : Type := mkOptions {
  duration : Z;
  onFlipStart : bool;
  onFlipEnd : bool
}.

Record PageFlip : Type := mkPageFlip {
  options : Options;
  currentPage : Z;
  totalPages : Z;
  isFlipping : bool;
  pages : list ref;
  elements : list Spread;
  isDragging : bool;
  dragStartX : Q;
  dragStartY : Q;
  dragCurrentX : Q;
  dragCurrentY : Q;
  dragPage : option ref;
  dragDirection : option Direction;
  dragProgress : jsnum;
  log : list Notification
}.

(** *** Field updates *)

Definition set_zIndex (z : Z) (e : Spread) : Spread :=
  mkSpread (leftPage e) (rightPage e) (dataIndex e) (Some z) (rotateY e)
           (transition e) (dragging e).

Definition set_rotateY (a : jsnum) (e : Spread) : Spread :=
  mkSpread (leftPage e) (rightPage e) (dataIndex e) (zIndex e) (Some a)
           (transition e) (dragging e).

Definition set_transition (t : Transition) (e : Spread) : Spread :=
  mkSpread (leftPage e) (rightPage e) (dataIndex e) (zIndex e) (rotateY e)
           t (dragging e).

Definition set_dragging (b : bool) (e : Spread) : Spread :=
  mkSpread (leftPage e) (rightPage e) (dataIndex e) (zIndex e) (rotateY e)
           (transition e) b.

Definition set_currentPage (v : Z) (s : PageFlip) : PageFlip :=
  mkPageFlip (options s) v (totalPages s) (isFlipping s) (pages s)
    (elements s) (isDragging s) (dragStartX s) (dragStartY s)
    (dragCurrentX s) (dragCurrentY s) (dragPage s) (dragDirection s)
    (dragProgress s) (log s).

Definition set_totalPages (v : Z) (s : PageFlip) : PageFlip :=
  mkPageFlip (options s) (currentPage s) v (isFlipping s) (pages s)
    (elements s) (isDragging s) (dragStartX s) (dragStartY s)
    (dragCurrentX s) (dragCurrentY s) (dragPage s) (dragDirection s)
    (dragProgress s) (log s).

Definition set_isFlipping (v : bool) (s : PageFlip) : PageFlip :=
  mkPageFlip (options s) (currentPage s) (totalPages s) v (pages s)
    (elements s) (isDragging s) (dragStartX s) (dragStartY s)
    (dragCurrentX s) (dragCurrentY s) (dragPage s) (dragDirection s)
    (dragProgress s) (log s).

Definition set_pages (v : list ref) (s : PageFlip) : PageFlip :=
  mkPageFlip (options s) (currentPage s) (totalPages s) (isFlipping s) v
    (elements s) (isDragging s) (dragStartX s) (dragStartY s)
    (dragCurrentX s) (dragCurrentY s) (dragPage s) (dragDirection s)
    (dragProgress s) (log s).

Definition set_elements (v : list Spread) (s : PageFlip) : PageFlip :=
  mkPageFlip (options s) (currentPage s) (totalPages s) (isFlipping s)
    (pages s) v (isDragging s) (dragStartX s) (dragStartY s)
    (dragCurrentX s) (dragCurrentY s) (dragPage s) (dragDirection s)
    (dragProgress s) (log s).

Definition set_isDragging (v : bool) (s : PageFlip) : PageFlip :=
  mkPageFlip (options s) (currentPage s) (totalPages s) (isFlipping s)
    (pages s) (elements s) v (dragStartX s) (dragStartY s)
    (dragCurrentX s) (dragCurrentY s) (dragPage s) (dragDirection s)
    (dragProgress s) (log s).

Definition set_dragStart (x y : Q) (s : PageFlip) : PageFlip :=
  mkPageFlip (options s) (currentPage s) (totalPages s) (isFlipping s)
    (pages s) (elements s) (isDragging s) x y
    (dragCurrentX s) (dragCurrentY s) (dragPage s) (dragDirection s)
    (dragProgress s) (log s).

Definition set_dragCurrent (x y : Q) (s : PageFlip) : PageFlip :=
  mkPageFlip (options s) (currentPage s) (totalPages s) (isFlipping s)
    (pages s) (elements s) (isDragging s) (dragStartX s) (dragStartY s)
    x y (dragPage s) (dragDirection s) (dragProgress s) (log s).

Definition set_dragPage (v : option ref) (s : PageFlip) : PageFlip :=
  mkPageFlip (options s) (currentPage s) (totalPages s) (isFlipping s)
    (pages s) (elements s) (isDragging s) (dragStartX s) (dragStartY s)
    (dragCurrentX s) (dragCurrentY s) v (dragDirection s)
    (dragProgress s) (log s).

Definition set_dragDirection (v : option Direction) (s : PageFlip) : PageFlip :=
  mkPageFlip (options s) (currentPage s) (totalPages s) (isFlipping s)
    (pages s) (elements s) (isDragging s) (dragStartX s) (dragStartY s)
    (dragCurrentX s) (dragCurrentY s) (dragPage s) v
    (dragProgress s) (log s).

Definition set_dragProgress (v : jsnum) (s : PageFlip) : PageFlip :=
  mkPageFlip (options s) (currentPage s) (totalPages s) (isFlipping s)
    (pages s) (elements s) (isDragging s) (dragStartX s) (dragStartY s)
    (dragCurrentX s) (dragCurrentY s) (dragPage s) (dragDirection s)
    v (log s).

Definition set_log (v : list Notification) (s : PageFlip) : PageFlip :=
  mkPageFlip (options s) (currentPage s) (totalPages s) (isFlipping s)
    (pages s) (elements s) (isDragging s) (dragStartX s) (dragStartY s)
    (dragCurrentX s) (dragCurrentY s) (dragPage s) (dragDirection s)
    (dragProgress s) v.

(** [el.style.x = v] on the element a reference points to. *)
Definition write (r : ref) (f : Spread -> Spread) (s : PageFlip) : PageFlip :=
  set_elements (alter f r (elements s)) s.

(** [this.options.onFlipStart (page, d)] and [this.options.onFlipEnd (page, d)],
    each behind its [if (this.options.on...)] test. *)
Definition notifyStart (page : Z) (d : DirArg) (s : PageFlip) : PageFlip :=
  if onFlipStart (options s) then set_log (log s ++ [FlipStart page d]) s else s.

Definition notifyEnd (page : Z) (d : DirArg) (s : PageFlip) : PageFlip :=
  if onFlipEnd (options s) then set_log (log s ++ [FlipEnd page d]) s else s.

(* ================================================================== *)
(** ** The engine *)

Definition Qltb (a b : Q) : bool := if Qlt_le_dec a b then true else false.

(** [new PageFlip (container, options)]. *)
Definition new_PageFlip (o : Options) : PageFlip :=
  mkPageFlip o 0 0 false [] [] false 0%Q 0%Q 0%Q 0%Q None None (Fin 0) [].

Definition getCurrentPage (s : PageFlip) : Z := currentPage s.
Definition getTotalPages (s : PageFlip) : Z := totalPages s.
Definition isAnimating (s : PageFlip) : bool := isFlipping s.

(** [this.pages[k]]: [undefined] outside the array. *)
Definition pageAt (s : PageFlip) (k : Z) : option ref :=
  if k <? 0 then None else pages s !! Z.to_nat k.

(** *** Spread model: [_createSpread], [loadPages], [_updatePageVisibility] *)

(** [v || null] on a page content that may be [undefined]. *)
Definition orNull (v : option Content) : option Content :=
  match v with
  | Some c => if truthy c then Some c else None
  | None => None
  end.

(** The new spread element: the left page is always created, the right
    page only under [if (rightContent)]. *)
Definition _createSpread (leftContent : Content) (rightContent : option Content)
    (index : Z) (o : Options) : Spread :=
  mkSpread leftContent
           (match rightContent with
            | Some c => if truthy c then Some c else None
            | None => None
            end)
           (index / 2) None None
           (TransitionTransform (inject_Z (duration o))) false.

(** The body of [for (let i = 0; i < pageContents.length; i += 2)], on the
    contents from index [i] on: create the spread of leaves [i] and [i + 1]
    and push it. *)
Fixpoint loadPages_loop (i : Z) (rest : list Content) (s : PageFlip) : PageFlip :=
  match rest with
  | [] => s
  | leftContent :: tl =>
      let spread := _createSpread leftContent (orNull (head tl)) i (options s) in
      let r := length (elements s) in
      let s' := set_pages (pages s ++ [r]) (set_elements (elements s ++ [spread]) s) in
      match tl with
      | [] => s'
      | _ :: rest' => loadPages_loop (i + 2) rest' s'
      end
  end.

(** The callback of [this.pages.forEach] in [_updatePageVisibility]. *)
Definition settleSpread (dur : Z) (currentSpread : Z) (len : nat) (index : nat)
    (e : Spread) : Spread :=
  let e := set_transition (TransitionTransform (inject_Z dur)) e in
  if Z.of_nat index =? currentSpread then
    set_rotateY (Fin 0) (set_zIndex 10 e)
  else if Z.of_nat index <? currentSpread then
    set_rotateY (Fin (-180)) (set_zIndex (Z.of_nat index) e)
  else
    set_rotateY (Fin 0) (set_zIndex (Z.of_nat len - Z.of_nat index) e).

Fixpoint forEach_settle (dur : Z) (currentSpread : Z) (len : nat) (index : nat)
    (rs : list ref) (els : list Spread) : list Spread :=
  match rs with
  | [] => els
  | r :: rs' =>
      forEach_settle dur currentSpread len (S index) rs'
        (alter (settleSpread dur currentSpread len index) r els)
  end.

Definition _updatePageVisibility (s : PageFlip) : PageFlip :=
  let currentSpread := currentPage s / 2 in
  set_elements
    (forEach_settle (duration (options s)) currentSpread (length (pages s)) 0
       (pages s) (elements s)) s.

Definition loadPages (pageContents : list Content) (s : PageFlip) : PageFlip :=
  let s := set_pages [] s in
  let s := set_totalPages (Z.of_nat (length pageContents)) s in
  let s := loadPages_loop 0 pageContents s in
  _updatePageVisibility s.

(** *** Discrete turns: [nextPage], [prevPage], [goToPage] *)

(** The suspended continuation of an [async] method, with the element its
    closure holds. *)
Inductive Task : Type :=
| NextPageK (spread : ref)
| PrevPageK (spread : ref)
| CompleteFlipK (element : ref)
| CancelFlipK (element : ref).

(** What a call of an [async] method has done when it gives control back:
    its promise is settled with a boolean, or it waits for an animation. *)
Inductive Outcome : Type :=
| Returned (b : bool)
| Awaiting (t : Task).

Definition _animateFlip (element : ref) (fromAngle toAngle : Z) (s : PageFlip)
    : PageFlip :=
  let s := write element (set_transition TransitionNone) s in
  let s := write element (set_rotateY (Fin (inject_Z fromAngle))) s in
  let s := write element
             (set_transition (TransitionTransform (inject_Z (duration (options s))))) s in
  write element (set_rotateY (Fin (inject_Z toAngle))) s.

Definition nextPage_call (s : PageFlip) : Outcome * PageFlip :=
  if isFlipping s || (totalPages s - 2 <=? currentPage s) then (Returned false, s)
  else
    let s := set_isFlipping true s in
    let currentSpread := currentPage s / 2 in
    let s := notifyStart (currentPage s) dNext s in
    match pageAt s currentSpread with
    | Some spread =>
        let s := write spread (set_zIndex 100) s in
        let s := _animateFlip spread 0 (-180) s in
        (Awaiting (NextPageK spread), s)
    | None =>
        let s := set_isFlipping false s in
        let s := notifyEnd (currentPage s) dNext s in
        (Returned true, s)
    end.

Definition nextPage_resume (s : PageFlip) : bool * PageFlip :=
  let s := set_currentPage (currentPage s + 2) s in
  let s := _updatePageVisibility s in
  let s := set_isFlipping false s in
  let s := notifyEnd (currentPage s) dNext s in
  (true, s).

Definition prevPage_call (s : PageFlip) : Outcome * PageFlip :=
  if isFlipping s || (currentPage s <=? 0) then (Returned false, s)
  else
    let s := set_isFlipping true s in
    let s := set_currentPage (currentPage s - 2) s in
    let currentSpread := currentPage s / 2 in
    let s := notifyStart (currentPage s) dPrev s in
    match pageAt s currentSpread with
    | Some spread =>
        let s := write spread (set_zIndex 100) s in
        let s := _animateFlip spread (-180) 0 s in
        (Awaiting (PrevPageK spread), s)
    | None =>
        let s := set_isFlipping false s in
        let s := notifyEnd (currentPage s) dPrev s in
        (Returned true, s)
    end.

Definition prevPage_resume (s : PageFlip) : bool * PageFlip :=
  let s := _updatePageVisibility s in
  let s := set_isFlipping false s in
  let s := notifyEnd (currentPage s) dPrev s in
  (true, s).

Definition goToPage (pageNumber : Z) (s : PageFlip) : bool * PageFlip :=
  if isFlipping s then (false, s)
  else
    let pageNumber := Z.max 0 (Z.min pageNumber (totalPages s - 1)) in
    let pageNumber := pageNumber / 2 * 2 in
    if pageNumber =? currentPage s then (true, s)
    else
      let s := set_currentPage pageNumber s in
      let s := _updatePageVisibility s in
      let s := notifyEnd (currentPage s) dGoto s in
      (true, s).

(** *** Gesture-driven turns *)

Definition _getFlippingPage (direction : Direction) (s : PageFlip) : option ref :=
  match direction with
  | next => pageAt s (currentPage s / 2)
  | prev => pageAt s (currentPage s / 2 - 1)
  end.

Definition _startDrag (x y width height : Q) (s : PageFlip) : PageFlip :=
  let isRightEdge := Qltb (width * (6 # 10)) x in
  let isLeftEdge := Qltb x (width * (4 # 10)) in
  let chosen :=
    if isRightEdge && (currentPage s <? totalPages s - 2) then Some next
    else if isLeftEdge && (0 <? currentPage s) then Some prev
    else None in
  match chosen with
  | None => s
  | Some d =>
      let s := set_dragDirection (Some d) s in
      let s := set_dragPage (_getFlippingPage d s) s in
      match dragPage s with
      | None => s
      | Some element =>
          let s := set_isDragging true s in
          let s := set_dragStart x y s in
          let s := set_dragCurrent x y s in
          let s := set_dragProgress (Fin 0) s in
          let s := write element (set_dragging true) s in
          let s := write element (set_transition TransitionNone) s in
          write element (set_zIndex 100) s
      end
  end.

Definition _applyCurlEffect (progress : jsnum) (s : PageFlip) : PageFlip :=
  match dragPage s with
  | None => s
  | Some element =>
      let angle :=
        match dragDirection s with
        | Some next => JsNum.neg (JsNum.scale progress 180)
        | _ => JsNum.shift (-180) (JsNum.scale progress 180)
        end in
      write element (set_rotateY angle) s
  end.

Definition _updateDrag (x y width height : Q) (s : PageFlip) : PageFlip :=
  let s := set_dragCurrent x y s in
  let deltaX := (dragCurrentX s - dragStartX s)%Q in
  let halfWidth := (width / 2)%Q in
  let s :=
    match dragDirection s with
    | Some next =>
        set_dragProgress (JsNum.max 0 (JsNum.min 1 (JsNum.div (- deltaX) halfWidth))) s
    | _ =>
        set_dragProgress (JsNum.max 0 (JsNum.min 1 (JsNum.div deltaX halfWidth))) s
    end in
  _applyCurlEffect (dragProgress s) s.

Definition _cleanupDragPage (s : PageFlip) : PageFlip :=
  let s :=
    match dragPage s with
    | Some element =>
        let s := write element (set_dragging false) s in
        let s := write element (set_transition TransitionUnset) s in
        set_dragPage None s
    | None => s
    end in
  let s := set_dragDirection None s in
  set_dragProgress (Fin 0) s.

Definition _animateToAngle (element : ref) (targetAngle : Z) (s : PageFlip)
    : PageFlip :=
  let s := write element
             (set_transition
                (TransitionTransform (inject_Z (duration (options s)) * (1 # 2)))) s in
  write element (set_rotateY (Fin (inject_Z targetAngle))) s.

Definition _completeFlip_start (s : PageFlip) : option Task * PageFlip :=
  match dragPage s with
  | None => (None, s)
  | Some element =>
      let s := set_isFlipping true s in
      let s := notifyStart (currentPage s) (dirArg (dragDirection s)) s in
      let targetAngle := match dragDirection s with Some next => -180 | _ => 0 end in
      let s := _animateToAngle element targetAngle s in
      (Some (CompleteFlipK element), s)
  end.

Definition _completeFlip_resume (s : PageFlip) : PageFlip :=
  let s :=
    match dragDirection s with
    | Some next => set_currentPage (currentPage s + 2) s
    | _ => set_currentPage (currentPage s - 2) s
    end in
  let s := _cleanupDragPage s in
  let s := _updatePageVisibility s in
  let s := set_isFlipping false s in
  notifyEnd (currentPage s) (dirArg (dragDirection s)) s.

Definition _cancelFlip_start (s : PageFlip) : option Task * PageFlip :=
  match dragPage s with
  | None => (None, s)
  | Some element =>
      let targetAngle := match dragDirection s with Some next => 0 | _ => -180 end in
      let s := _animateToAngle element targetAngle s in
      (Some (CancelFlipK element), s)
  end.

Definition _cancelFlip_resume (s : PageFlip) : PageFlip :=
  let s := _cleanupDragPage s in
  _updatePageVisibility s.

Definition _endDrag (s : PageFlip) : option Task * PageFlip :=
  if negb (isDragging s) then (None, s)
  else
    let shouldComplete := JsNum.gt (dragProgress s) (3 # 10) in
    let '(t, s) :=
      if shouldComplete then _completeFlip_start s else _cancelFlip_start s in
    (t, set_isDragging false s).

(** The pointer handlers ([_handleMouseDown] and [_handleTouchStart], and
    likewise for move and up), with the pointer position already relative
    to the book's box. *)
Definition _handleMouseDown (x y width height : Q) (s : PageFlip) : PageFlip :=
  if isFlipping s then s else _startDrag x y width height s.

Definition _handleMouseMove (x y width height : Q) (s : PageFlip) : PageFlip :=
  if negb (isDragging s) then s else _updateDrag x y width height s.

Definition _handleMouseUp (s : PageFlip) : option Task * PageFlip :=
  if negb (isDragging s) then (None, s) else _endDrag s.

(** Resuming a suspended method when its animation promise resolves. *)
Definition resume (t : Task) (s : PageFlip) : PageFlip :=
  match t with
  | NextPageK _ => snd (nextPage_resume s)
  | PrevPageK _ => snd (prevPage_resume s)
  | CompleteFlipK _ => _completeFlip_resume s
  | CancelFlipK _ => _cancelFlip_resume s
  end.

(* ================================================================== *)
(** ** The event loop *)

(** A configuration: the engine object and the suspended continuations,
    oldest first. *)
Record Config : Type := mkConfig {
  engine : PageFlip;
  tasks : list Task
}.

(** A pointer event: position and the size of the book's box. *)
Record Pointer : Type := mkPointer {
  pointerX : Q;
  pointerY : Q;
  boxWidth : Q;
  boxHeight : Q
}.

(** What the host can make happen, one at a time: a call of a public
    method, a pointer event, or the end of the animation that the [k]-th
    suspended continuation waits for (by [transitionend] or by the
    fallback timer). *)
Inductive Event : Type :=
| CallLoadPages (pageContents : list Content)
| CallNextPage
| CallPrevPage
| CallGoToPage (pageNumber : Z)
| MouseDown (p : Pointer)
| MouseMove (p : Pointer)
| MouseUp
| AnimationEnd (k : nat).

Definition suspend (c : Config) (t : option Task) (s : PageFlip) : Config :=
  match t with
  | Some t => mkConfig s (tasks c ++ [t])
  | None => mkConfig s (tasks c)
  end.

Definition awaited (o : Outcome) : option Task :=
  match o with
  | Returned _ => None
  | Awaiting t => Some t
  end.

Definition step (c : Config) (e : Event) : Config :=
  let s := engine c in
  match e with
  | CallLoadPages pageContents => mkConfig (loadPages pageContents s) (tasks c)
  | CallNextPage => let '(o, s') := nextPage_call s in suspend c (awaited o) s'
  | CallPrevPage => let '(o, s') := prevPage_call s in suspend c (awaited o) s'
  | CallGoToPage n => mkConfig (snd (goToPage n s)) (tasks c)
  | MouseDown p =>
      mkConfig (_handleMouseDown (pointerX p) (pointerY p) (boxWidth p) (boxHeight p) s)
               (tasks c)
  | MouseMove p =>
      mkConfig (_handleMouseMove (pointerX p) (pointerY p) (boxWidth p) (boxHeight p) s)
               (tasks c)
  | MouseUp => let '(t, s') := _handleMouseUp s in suspend c t s'
  | AnimationEnd k =>
      match tasks c !! k with
      | Some t => mkConfig (resume t s) (delete k (tasks c))
      | None => c
      end
  end.

Definition run (c : Config) (es : list Event) : Config := foldl step c es.

Definition boot (o : Options) : Config := mkConfig (new_PageFlip o) [].

(** The configurations the host can bring about. *)
Definition reachable (c : Config) : Prop :=
  exists (o : Options) (es : list Event), c = run (boot o) es.

(** *** Operations run to completion

    A call whose animation ends before anything else happens. *)

Definition nextPage (s : PageFlip) : bool * PageFlip :=
  match nextPage_call s with
  | (Returned b, s') => (b, s')
  | (Awaiting _, s') => nextPage_resume s'
  end.

Definition prevPage (s : PageFlip) : bool * PageFlip :=
  match prevPage_call s with
  | (Returned b, s') => (b, s')
  | (Awaiting _, s') => prevPage_resume s'
  end.

Definition settleTask (r : option Task * PageFlip) : PageFlip :=
  match r with
  | (Some t, s) => resume t s
  | (None, s) => s
  end.

Definition moveAll (moves : list Pointer) (s : PageFlip) : PageFlip :=
  foldl (fun s p =>
           _handleMouseMove (pointerX p) (pointerY p) (boxWidth p) (boxHeight p) s)
        s moves.

(** A whole gesture: pointer down, moves, pointer up, and the end of the
    commit or revert animation. *)
Definition dragGesture (down : Pointer) (moves : list Pointer) (s : PageFlip)
    : PageFlip :=
  let s := _handleMouseDown (pointerX down) (pointerY down)
                            (boxWidth down) (boxHeight down) s in
  let s := moveAll moves s in
  settleTask (_handleMouseUp s).

Inductive Op : Type :=
| OpLoadPages (pageContents : list Content)
| OpNextPage
| OpPrevPage
| OpGoToPage (pageNumber : Z)
| OpDrag (down : Pointer) (moves : list Pointer).

Definition exec (s : PageFlip) (op : Op) : PageFlip :=
  match op with
  | OpLoadPages pageContents => loadPages pageContents s
  | OpNextPage => snd (nextPage s)
  | OpPrevPage => snd (prevPage s)
  | OpGoToPage n => snd (goToPage n s)
  | OpDrag down moves => dragGesture down moves s
  end.

Definition execAll (s : PageFlip) (ops : list Op) : PageFlip := foldl exec s ops.

(* ================================================================== *)
(** ** Predicates used by the statements *)

(** The notification a guarded callback call adds to the log. *)
Definition emitted (installed : bool) (n : Notification) : list Notification :=
  if installed then [n] else [].

(** [ceil (n / 2)] for an integer [n]. *)
Definition ceilHalf (n : Z) : Z := (n + 1) / 2.

(** The two rest angles of the spread a turn in direction [d] moves:
    where it starts and where it ends. *)
Definition restAngle (d : Direction) : Q :=
  match d with next => 0%Q | prev => (-180)%Q end.

Definition oppositeAngle (d : Direction) : Q :=
  match d with next => (-180)%Q | prev => 0%Q end.

(** The leaf index after a committed turn in direction [d]. *)
Definition turned (d : Direction) (page : Z) : Z :=
  match d with next => page + 2 | prev => page - 2 end.

(** The style a spread at position [k] has after [_updatePageVisibility]
    with current spread [cur] among [len] spreads. *)
Definition settledRotation (cur : Z) (k : nat) : Q :=
  if Z.of_nat k <? cur then (-180)%Q else 0%Q.

Definition settledZIndex (cur : Z) (len : nat) (k : nat) : Z :=
  if Z.of_nat k =? cur then 10
  else if Z.of_nat k <? cur then Z.of_nat k
  else Z.of_nat len - Z.of_nat k.

(** The spreads [loadPages] creates for the contents from leaf [i] on,
    in the order of creation. *)
Fixpoint spreadsFrom (o : Options) (i : Z) (rest : list Content) : list Spread :=
  match rest with
  | [] => []
  | leftContent :: tl =>
      _createSpread leftContent (orNull (head tl)) i o ::
      match tl with
      | [] => []
      | _ :: rest' => spreadsFrom o (i + 2) rest'
      end
  end.

(** The engine as a drag leaves it for [_updatePageVisibility]: the
    dragging class and the inline transition removed from the spread, the
    position set. *)
Definition released (element : ref) (page : Z) (s : PageFlip) : PageFlip :=
  set_currentPage page
    (write element (set_transition TransitionUnset)
       (write element (set_dragging false) s)).

(** The change of the spread index a committed turn makes. *)
Definition spreadStep (d : Direction) : Z :=
  match d with next => 1 | prev => -1 end.

(** Two engine states over the same book: same options, same leaf count,
    same spread list, same number of live elements. *)
Definition sameBook (s s' : PageFlip) : Prop :=
  options s' = options s /\ totalPages s' = totalPages s /\
  pages s' = pages s /\ length (elements s') = length (elements s).

(** What every method keeps true of the engine object, whatever the order
    of calls, pointer events and animation ends: the leaf position is
    even, the spreads are distinct live elements, and there are
    [ceil (totalPages / 2)] of them. *)
Record Inv (s : PageFlip) : Prop := mkInv {
  inv_even : Z.even (currentPage s) = true;
  inv_nodup : NoDup (pages s);
  inv_refs : Forall (fun r : ref => (r < length (elements s))%nat) (pages s);
  inv_count : Z.of_nat (length (pages s)) = ceilHalf (totalPages s);
  inv_total : 0 <= totalPages s
}.

(** Every spread has the rotation and the stacking that
    [_updatePageVisibility] gives it: settling again changes nothing. *)
Definition Settled (s : PageFlip) : Prop :=
  elements (_updatePageVisibility s) = elements s.

(** The engine at rest between operations that ran to completion. *)
Record Idle (s : PageFlip) : Prop := mkIdle {
  idle_inv : Inv s;
  idle_nonneg : 0 <= currentPage s;
  idle_flipping : isFlipping s = false;
  idle_dragging : isDragging s = false;
  idle_settled : Settled s
}.

(** A drag session as [_startDrag] sets it up and [_updateDrag] keeps it:
    the direction, the spread being turned, and the room to turn it. *)
Record Session (d : Direction) (element : ref) (s : PageFlip) : Prop := mkSession {
  ses_dragging : isDragging s = true;
  ses_flipping : isFlipping s = false;
  ses_direction : dragDirection s = Some d;
  ses_page : dragPage s = Some element;
  ses_target : _getFlippingPage d s = Some element;
  ses_room : match d with
             | next => currentPage s < totalPages s - 2
             | prev => 0 < currentPage s
             end
}.

(** The rotation a spread element shows. *)
Definition rotationOf (s : PageFlip) (r : ref) : option jsnum :=
  e ← elements s !! r; rotateY e.

Definition zIndexOf (s : PageFlip) (r : ref) : option Z :=
  e ← elements s !! r; zIndex e.

(* ================================================================== *)
(** ** Sample books *)

Definition sampleOptions : Options := mkOptions 800 true true.

Definition leaf (n : nat) : Content := CString "<p>leaf</p>".

(** A freshly constructed engine loaded with [n] leaves. *)
Definition book (n : nat) : PageFlip :=
  loadPages (leaf <$> seq 0 n) (new_PageFlip sampleOptions).

(** The same, as configurations the host brings about. *)
Definition loaded (n : nat) : Config :=
  run (boot sampleOptions) [CallLoadPages (leaf <$> seq 0 n)].

Definition loadedAt (n : nat) (page : Z) : Config :=
  run (boot sampleOptions) [CallLoadPages (leaf <$> seq 0 n); CallGoToPage page].

Definition rightEdge : Pointer := mkPointer (9 # 10) (1 # 2) 1 1.

(** A book of 6 leaves whose first spread has just been grabbed at the
    right edge. *)
Definition grabbed : Config :=
  run (boot sampleOptions)
    [CallLoadPages (leaf <$> seq 0 6); MouseDown (mkPointer (9 # 10) (1 # 2) 1 1)].

Definition leftEdge : Pointer := mkPointer (1 # 10) (1 # 2) 1 1.
Definition dragTo (x : Q) : Pointer := mkPointer x (1 # 2) 1 1.

(* ================================================================== *)
(** ** The rest of the engine, and its callers *)

(** [destroy ()], on the fields of the model: the spread list is emptied
    and the drag reference dropped.  (It also removes the pointer
    listeners and the book's element; after it, [loadPages] has no element
    to fill.) *)
Definition destroy (s : PageFlip) : PageFlip :=
  set_dragPage None (set_pages [] s).

(** The interval callback of [SimsekBook.startAutoPlay], with the engine
    calls run to completion: back to the first leaf from the last spread,
    one spread forward otherwise. *)
Definition autoPlayTick (s : PageFlip) : bool * PageFlip :=
  if getTotalPages s - 2 <=? getCurrentPage s then goToPage 0 s else nextPage s.

(** The [Home] and [End] keys, as [SimsekBook] wires [KeyboardNav.onFirst]
    and [KeyboardNav.onLast] to the engine. *)
Definition onFirst (s : PageFlip) : bool * PageFlip := goToPage 0 s.

Definition onLast (s : PageFlip) : bool * PageFlip :=
  goToPage (getTotalPages s - 1) s.

(** [SimsekBook._updatePageIndicator]: the three numbers of the text
    [`${current}-${Math.min (current + 1, total)} / ${total}`]. *)
Definition _updatePageIndicator (s : PageFlip) : Z * Z * Z :=
  let current := getCurrentPage s + 1 in
  let total := getTotalPages s in
  (current, Z.min (current + 1) total, total).

(** The same call made [k] times in a row. *)
Fixpoint times (k : nat) (f : PageFlip -> PageFlip) (s : PageFlip) : PageFlip :=
  match k with
  | O => s
  | S k' => f (times k' f s)
  end.

(** The progress [_updateDrag] stores for a pointer at [x]. *)
Definition progressAt (direction : option Direction) (startX x width : Q) : jsnum :=
  match direction with
  | Some next => JsNum.max 0 (JsNum.min 1 (JsNum.div (- (x - startX)) (width / 2)))
  | _ => JsNum.max 0 (JsNum.min 1 (JsNum.div (x - startX) (width / 2)))
  end.

(** The leaf index the observer last heard of through [onFlipEnd]. *)
Definition lastEnd (l : list Notification) : option Z :=
  foldl (fun acc n => match n with
                      | FlipEnd page _ => Some page
                      | FlipStart _ _ => acc
                      end) None l.

Definition isLoad (op : Op) : bool :=
  match op with OpLoadPages _ => true | _ => false end.

Definition isLoadEvent (e : Event) : bool :=
  match e with CallLoadPages _ => true | _ => false end.

(** What the inner box of a page holds: the markup assigned to
    [innerHTML], an [img] with its source and the number of its [alt]
    text, an element appended as it is, or nothing. *)
Inductive PageBody : Type :=
| Markup (html : string)
| Image (src : string) (alt : Z)
| Holds (handle : nat)
| Blank.

(** [content.startsWith ('<')]. *)
Definition startsWithTag (s : string) : bool :=
  match s with
  | String a _ => (a =? "<")%char
  | EmptyString => false
  end.

(** [appendChild] moves an element: the page that held it holds nothing
    afterwards. *)
Definition detach (handle : nat) (b : PageBody) : PageBody :=
  match b with
  | Holds h => if (h =? handle)%nat then Blank else b
  | _ => b
  end.

(** [_createPage], as far as the inner boxes of the pages go: the new
    page comes last. *)
Definition _createPage (content : Content) (pageNumber : Z) (dom : list PageBody)
    : list PageBody :=
  match content with
  | CString s =>
      dom ++ [if startsWithTag s then Markup s else Image s (pageNumber + 1)]
  | CElement handle => (detach handle <$> dom) ++ [Holds handle]
  end.

(** The loop of [loadPages] with [_createSpread] in it, as far as the
    pages go: the left page of leaf [i], then the right page of leaf
    [i + 1] under [if (rightContent)]. *)
Fixpoint createPages (i : Z) (rest : list Content) (dom : list PageBody)
    : list PageBody :=
  match rest with
  | [] => dom
  | leftContent :: tl =>
      let dom := _createPage leftContent i dom in
      let dom :=
        match orNull (head tl) with
        | Some rightContent =>
            if truthy rightContent then _createPage rightContent (i + 1) dom else dom
        | None => dom
        end in
      match tl with
      | [] => dom
      | _ :: rest' => createPages (i + 2) rest' dom
      end
  end.

(** The pages of a freshly loaded book, in document order. *)
Definition pageBodies (pageContents : list Content) : list PageBody :=
  createPages 0 pageContents [].

(** One page for every leaf, which is what [createPages] does when no
    right leaf is skipped. *)
Fixpoint createEach (i : Z) (rest : list Content) (dom : list PageBody)
    : list PageBody :=
  match rest with
  | [] => dom
  | c :: tl => createEach (i + 1) tl (_createPage c i dom)
  end.

(** Whether an element is among the given leaves. *)
Definition passed (handle : nat) (cs : list Content) : bool :=
  existsb (fun c => match c with
                    | CElement h => (h =? handle)%nat
                    | CString _ => false
                    end) cs.

(* ================================================================== *)
(** ** Shades of the page-back colour: [_adjustColor] *)

Module Color.

(** A character is a code unit below 256. *)
Definition codeOf (a : Ascii.ascii) : Z := Z.of_nat (Ascii.nat_of_ascii a).

(** The white space [parseInt] skips (of the code units below 256). *)
Definition isWhiteSpace (a : Ascii.ascii) : bool :=
  let c := codeOf a in
  ((9 <=? c) && (c <=? 13)) || (c =? 32) || (c =? 160).

(** The value of a radix-16 digit. *)
Definition hexValue (a : Ascii.ascii) : option Z :=
  let c := codeOf a in
  if (48 <=? c) && (c <=? 57) then Some (c - 48)
  else if (97 <=? c) && (c <=? 102) then Some (c - 87)
  else if (65 <=? c) && (c <=? 70) then Some (c - 55)
  else None.

Fixpoint trimStart (s : string) : string :=
  match s with
  | String a s' => if isWhiteSpace a then trimStart s' else s
  | EmptyString => s
  end.

(** The value of the longest prefix of radix-16 digits; [None] when there
    is no digit. *)
Fixpoint digitPrefix (s : string) (acc : option Z) : option Z :=
  match s with
  | String a s' =>
      match hexValue a with
      | Some d => digitPrefix s' (Some (16 * default 0 acc + d))
      | None => acc
      end
  | EmptyString => acc
  end.

(** A JavaScript number that holds an integer, an infinity, or [NaN]. *)
Inductive number : Type :=
| Finite (z : Z)
| Infinite
| NotANumber.

(** The double nearest to an integer (ties to even), which is the integer
    itself below 2^53. *)
Definition toDouble (z : Z) : number :=
  let m := Z.abs z in
  let e := Z.log2 m in
  if e <? 53 then Finite z
  else
    let shift := e - 52 in
    let q := Z.shiftr m shift in
    let rest := Z.land m (Z.ones shift) in
    let half := Z.shiftl 1 (shift - 1) in
    let q' := if (half <? rest) || ((half =? rest) && Z.odd q) then q + 1 else q in
    let m' := Z.shiftl q' shift in
    if 2 ^ 1024 <=? m' then Infinite else Finite (Z.sgn z * m').

(** The sign [parseInt] reads, and the rest of the text. *)
Definition splitSign (s : string) : Z * string :=
  match s with
  | String a s' =>
      if (a =? "-")%char then (-1, s')
      else if (a =? "+")%char then (1, s')
      else (1, s)
  | EmptyString => (1, s)
  end.

(** The [0x] or [0X] that radix 16 allows in front of the digits. *)
Definition stripPrefix (s : string) : string :=
  match s with
  | String a (String b s') =>
      if (a =? "0")%char && ((b =? "x")%char || (b =? "X")%char) then s' else s
  | _ => s
  end.

(** [parseInt (s, 16)]: white space, a sign, a [0x] prefix, digits. *)
Definition parseInt16 (s : string) : number :=
  let '(sign, s) := splitSign (trimStart s) in
  match digitPrefix (stripPrefix s) None with
  | Some m => toDouble (sign * m)
  | None => NotANumber
  end.

(** [ToInt32], the conversion the bit operators apply to their operands. *)
Definition toInt32 (n : number) : Z :=
  match n with
  | Finite z => (z + 2 ^ 31) mod 2 ^ 32 - 2 ^ 31
  | Infinite => 0
  | NotANumber => 0
  end.

(** [n >> k], [a & b] and [a << k] on integers. *)
Definition shr (n : number) (k : Z) : Z := Z.shiftr (toInt32 n) k.
Definition band (a : Z) (b : Z) : Z := Z.land (toInt32 (Finite a)) (toInt32 (Finite b)).
Definition shl (a : Z) (k : Z) : Z := toInt32 (Finite (Z.shiftl (toInt32 (Finite a)) k)).

Definition hexDigit (d : Z) : Ascii.ascii :=
  Ascii.ascii_of_nat (Z.to_nat (if d <? 10 then 48 + d else 87 + d)).

Fixpoint hexDigits (fuel : nat) (n : Z) (acc : string) : string :=
  match fuel with
  | O => acc
  | S fuel' =>
      let acc' := String (hexDigit (n mod 16)) acc in
      if n <? 16 then acc' else hexDigits fuel' (n / 16) acc'
  end.

(** [n.toString (16)] for an integer [n]. *)
Definition toString16 (n : Z) : string :=
  if n <? 0 then String "-"%char (hexDigits (S (Z.to_nat (Z.log2 (- n)))) (- n) "")
  else hexDigits (S (Z.to_nat (Z.log2 n))) n "".

(** [s.slice (1)]. *)
Definition slice1 (s : string) : string :=
  match s with
  | String _ s' => s'
  | EmptyString => EmptyString
  end.

(** [hex.split ('').map (c => c + c).join ('')]. *)
Fixpoint doubled (s : string) : string :=
  match s with
  | String a s' => String a (String a (doubled s'))
  | EmptyString => EmptyString
  end.

Definition clampChannel (v : Z) : Z := Z.min 255 (Z.max 0 v).

Definition _adjustColor (color : string) (amount : Z) : string :=
  match color with
  | String "#"%char rest =>
      let hex := if (String.length rest =? 3)%nat then doubled rest else rest in
      let num := parseInt16 hex in
      let r := clampChannel (shr num 16 + amount) in
      let g := clampChannel (band (shr num 8) 255 + amount) in
      let b := clampChannel (band (toInt32 num) 255 + amount) in
      String "#"%char (slice1 (toString16 (shl 1 24 + shl r 16 + shl g 8 + b)))
  | _ => color
  end.

(** Two lowercase radix-16 digits of a channel. *)
Definition hex2 (v : Z) : string :=
  String (hexDigit (v / 16)) (String (hexDigit (v mod 16)) EmptyString).

(** The colour [#rrggbb] of three channels. *)
Definition rgb (r g b : Z) : string :=
  String "#"%char (hex2 r ++ hex2 g ++ hex2 b).

End Color.

(* ================================================================== *)
(** ** Basic facts *)

Lemma notifyStart_eq page d s :
  notifyStart page d s =
  set_log (log s ++ emitted (onFlipStart (options s)) (FlipStart page d)) s.
Proof.
  unfold notifyStart, emitted. destruct (onFlipStart (options s)); [done|].
  rewrite app_nil_r. by destruct s.
Qed.

Lemma notifyEnd_eq page d s :
  notifyEnd page d s =
  set_log (log s ++ emitted (onFlipEnd (options s)) (FlipEnd page d)) s.
Proof.
  unfold notifyEnd, emitted. destruct (onFlipEnd (options s)); [done|].
  rewrite app_nil_r. by destruct s.
Qed.

Ltac norm := simpl; rewrite ?notifyStart_eq, ?notifyEnd_eq; simpl.

Lemma Qltb_true a b : Qltb a b = true <-> (a < b)%Q.
Proof.
  unfold Qltb. destruct (Qlt_le_dec a b) as [H|H]; split; try done.
  intros H'. exfalso. by apply (Qlt_not_le _ _ H').
Qed.

Lemma gt_spec v q :
  JsNum.gt v q = true <-> (v = PosInf \/ exists r, v = Fin r /\ (q < r)%Q).
Proof.
  destruct v as [r| | |]; simpl.
  - destruct (Qlt_le_dec q r) as [H|H]; split; try done.
    + intros _. right. by exists r.
    + intros [?|(r' & [= <-] & H')]; [done|]. exfalso. by apply (Qlt_not_le _ _ H').
  - split; [by left|done].
  - split; [done|]. by intros [?|(? & ? & _)].
  - split; [done|]. by intros [?|(? & ? & _)].
Qed.

(** *** Settling *)

Lemma settleSpread_idem dur cur len k e :
  settleSpread dur cur len k (settleSpread dur cur len k e) =
  settleSpread dur cur len k e.
Proof. unfold settleSpread. by repeat case_match. Qed.

Lemma settleSpread_rotateY dur cur len k e :
  rotateY (settleSpread dur cur len k e) = Some (Fin (settledRotation cur k)).
Proof.
  unfold settleSpread, settledRotation.
  destruct (Z.of_nat k =? cur) eqn:E; [|by case_match].
  apply Z.eqb_eq in E. simpl.
  destruct (Z.of_nat k <? cur) eqn:E'; [|done]. apply Z.ltb_lt in E'. lia.
Qed.

Lemma settleSpread_zIndex dur cur len k e :
  zIndex (settleSpread dur cur len k e) = Some (settledZIndex cur len k).
Proof. unfold settleSpread, settledZIndex. by repeat case_match. Qed.

Lemma settleSpread_leaves dur cur len k e :
  leftPage (settleSpread dur cur len k e) = leftPage e /\
  rightPage (settleSpread dur cur len k e) = rightPage e /\
  dataIndex (settleSpread dur cur len k e) = dataIndex e.
Proof. unfold settleSpread. by repeat case_match. Qed.

Lemma forEach_settle_length dur cur len i rs els :
  length (forEach_settle dur cur len i rs els) = length els.
Proof.
  revert i els. induction rs as [|r rs IH]; intros i els; simpl; [done|].
  by rewrite IH, length_alter.
Qed.

Lemma forEach_settle_other dur cur len i rs els (r : ref) :
  r ∉ rs -> forEach_settle dur cur len i rs els !! r = els !! r.
Proof.
  revert i els. induction rs as [|r' rs IH]; intros i els Hr; simpl; [done|].
  apply not_elem_of_cons in Hr as [Hne Hr].
  rewrite IH by done. by apply list_lookup_alter_ne.
Qed.

Lemma forEach_settle_lookup dur cur len i rs els (k : nat) (r : ref) :
  NoDup rs -> rs !! k = Some r ->
  forEach_settle dur cur len i rs els !! r =
  settleSpread dur cur len (i + k) <$> els !! r.
Proof.
  revert i k els. induction rs as [|r' rs IH]; intros i k els Hnd Hk; [done|].
  apply NoDup_cons in Hnd as [Hnotin Hnd]. simpl.
  destruct k as [|k]; simpl in Hk.
  - injection Hk as ->. rewrite forEach_settle_other by done.
    rewrite list_lookup_alter. rewrite decide_True by done.
    by rewrite Nat.add_0_r.
  - rewrite (IH (S i) k) by done.
    rewrite list_lookup_alter_ne.
    + by replace (S i + k)%nat with (i + S k)%nat by lia.
    + intros ->. apply Hnotin. apply list_elem_of_lookup. by exists k.
Qed.

Lemma updatePageVisibility_lookup s (k : nat) (r : ref) :
  NoDup (pages s) -> pages s !! k = Some r ->
  elements (_updatePageVisibility s) !! r =
  settleSpread (duration (options s)) (currentPage s / 2) (length (pages s)) k
    <$> elements s !! r.
Proof.
  intros Hnd Hk. unfold _updatePageVisibility. simpl.
  by rewrite (forEach_settle_lookup _ _ _ 0 _ _ k r).
Qed.

Lemma updatePageVisibility_other s (r : ref) :
  r ∉ pages s ->
  elements (_updatePageVisibility s) !! r = elements s !! r.
Proof. intros Hr. unfold _updatePageVisibility. simpl. by apply forEach_settle_other. Qed.

Lemma updatePageVisibility_length s :
  length (elements (_updatePageVisibility s)) = length (elements s).
Proof. unfold _updatePageVisibility. simpl. apply forEach_settle_length. Qed.

(** Settling depends on the engine only through the position, the spread
    list, the elements and the duration. *)
Lemma updatePageVisibility_elements_ext s s' :
  options s' = options s -> currentPage s' = currentPage s ->
  pages s' = pages s -> elements s' = elements s ->
  elements (_updatePageVisibility s') = elements (_updatePageVisibility s).
Proof. intros Ho Hc Hp He. unfold _updatePageVisibility. simpl. by rewrite Ho, Hc, Hp, He. Qed.

Lemma updatePageVisibility_Settled s :
  NoDup (pages s) -> Settled (_updatePageVisibility s).
Proof.
  intros Hnd. unfold Settled. apply list_eq. intros r.
  destruct (decide (r ∈ pages s)) as [Hin|Hout].
  - apply list_elem_of_lookup in Hin as [k Hk].
    rewrite (updatePageVisibility_lookup (_updatePageVisibility s) k r) by done.
    change (options (_updatePageVisibility s)) with (options s).
    change (currentPage (_updatePageVisibility s)) with (currentPage s).
    change (pages (_updatePageVisibility s)) with (pages s).
    rewrite (updatePageVisibility_lookup s k r) by done.
    destruct (elements s !! r) as [e|]; simpl; [|done].
    by rewrite settleSpread_idem.
  - by rewrite (updatePageVisibility_other (_updatePageVisibility s)).
Qed.

(** *** Building the spreads *)

Lemma list_pair_ind {A} (P : list A -> Prop) :
  P [] -> (forall a, P [a]) -> (forall a b l, P l -> P (a :: b :: l)) ->
  forall l, P l.
Proof.
  intros H0 H1 H2 l.
  assert (P l /\ forall a, P (a :: l)) as [H _]; [|done].
  induction l as [|b l [IH1 IH2]]; [by split|].
  split; [apply IH2|]. intros a. by apply H2.
Qed.

Lemma loadPages_loop_eq i rest s :
  loadPages_loop i rest s =
  set_pages (pages s ++ seq (length (elements s))
                            (length (spreadsFrom (options s) i rest)))
    (set_elements (elements s ++ spreadsFrom (options s) i rest) s).
Proof.
  revert i s. induction rest as [|a|a b rest IH] using list_pair_ind; intros i s.
  - simpl. rewrite !app_nil_r. by destruct s.
  - done.
  - change (loadPages_loop i (a :: b :: rest) s) with
      (loadPages_loop (i + 2) rest
         (set_pages (pages s ++ [length (elements s)])
            (set_elements
               (elements s ++ [_createSpread a (orNull (Some b)) i (options s)]) s))).
    rewrite IH. simpl. rewrite length_app. simpl.
    rewrite <- !app_assoc. simpl.
    by replace (length (elements s) + 1)%nat with (S (length (elements s))) by lia.
Qed.

Lemma spreadsFrom_length o i cs :
  Z.of_nat (length (spreadsFrom o i cs)) = ceilHalf (Z.of_nat (length cs)).
Proof.
  revert i. induction cs as [|a|a b cs IH] using list_pair_ind; intros i.
  - done.
  - done.
  - change (spreadsFrom o i (a :: b :: cs)) with
      (_createSpread a (orNull (Some b)) i o :: spreadsFrom o (i + 2) cs).
    simpl length. rewrite !Nat2Z.inj_succ, IH. unfold ceilHalf.
    replace (Z.succ (Z.succ (Z.of_nat (length cs))) + 1)
      with (Z.of_nat (length cs) + 1 + 1 * 2) by lia.
    rewrite Z.div_add by lia. lia.
Qed.

Lemma spreadsFrom_lookup o i cs (k : nat) :
  spreadsFrom o i cs !! k =
  (fun c => _createSpread c (orNull (cs !! (2 * k + 1)%nat)) (i + 2 * Z.of_nat k) o)
    <$> cs !! (2 * k)%nat.
Proof.
  revert i k. induction cs as [|a|a b cs IH] using list_pair_ind; intros i k.
  - done.
  - destruct k as [|k]; simpl; [by rewrite Z.add_0_r|].
    by replace (k + S (k + 0))%nat with (S (k + (k + 0)))%nat by lia.
  - change (spreadsFrom o i (a :: b :: cs)) with
      (_createSpread a (orNull (Some b)) i o :: spreadsFrom o (i + 2) cs).
    destruct k as [|k]; [simpl; by rewrite Z.add_0_r|].
    replace (2 * S k)%nat with (S (S (2 * k))) by lia.
    replace (S (S (2 * k)) + 1)%nat with (S (S (2 * k + 1))) by lia.
    simpl lookup at 1. rewrite IH. simpl lookup.
    replace (i + 2 + 2 * Z.of_nat k) with (i + 2 * Z.of_nat (S k)) by lia.
    done.
Qed.

Lemma loadPages_pages cs s :
  pages (loadPages cs s) =
  seq (length (elements s)) (length (spreadsFrom (options s) 0 cs)).
Proof. unfold loadPages. simpl. by rewrite loadPages_loop_eq. Qed.

Lemma loadPages_length_elements cs s :
  length (elements (loadPages cs s)) =
  (length (elements s) + length (spreadsFrom (options s) 0 cs))%nat.
Proof.
  unfold loadPages. rewrite updatePageVisibility_length, loadPages_loop_eq.
  simpl. by rewrite length_app.
Qed.

(** Everything but the spreads and the leaf count survives a load. *)
Lemma loadPages_keeps cs s :
  currentPage (loadPages cs s) = currentPage s /\
  isFlipping (loadPages cs s) = isFlipping s /\
  isDragging (loadPages cs s) = isDragging s /\
  dragPage (loadPages cs s) = dragPage s /\
  dragDirection (loadPages cs s) = dragDirection s /\
  dragProgress (loadPages cs s) = dragProgress s /\
  log (loadPages cs s) = log s /\
  options (loadPages cs s) = options s.
Proof. unfold loadPages. simpl. rewrite loadPages_loop_eq. by simpl. Qed.

Lemma loadPages_totalPages cs s :
  totalPages (loadPages cs s) = Z.of_nat (length cs).
Proof. unfold loadPages. simpl. rewrite loadPages_loop_eq. by simpl. Qed.

Lemma loadPages_count cs s :
  Z.of_nat (length (pages (loadPages cs s))) = ceilHalf (Z.of_nat (length cs)).
Proof. by rewrite loadPages_pages, length_seq, spreadsFrom_length. Qed.

(** The [k]-th spread after a load: the created element, settled. *)
Lemma loadPages_lookup cs s (k : nat) e0 :
  spreadsFrom (options s) 0 cs !! k = Some e0 ->
  pages (loadPages cs s) !! k = Some (length (elements s) + k)%nat /\
  elements (loadPages cs s) !! (length (elements s) + k)%nat =
  Some (settleSpread (duration (options s)) (currentPage s / 2)
          (length (spreadsFrom (options s) 0 cs)) k e0).
Proof.
  intros Hk. assert (k < length (spreadsFrom (options s) 0 cs))%nat as Hlt
    by (apply lookup_lt_is_Some; eauto).
  assert (seq (length (elements s)) (length (spreadsFrom (options s) 0 cs)) !! k
          = Some (length (elements s) + k)%nat) as Hseq by (by apply lookup_seq).
  split; [by rewrite loadPages_pages|].
  unfold loadPages. rewrite loadPages_loop_eq.
  erewrite updatePageVisibility_lookup; simpl; [|apply NoDup_seq|exact Hseq].
  rewrite length_seq, lookup_app_r by lia.
  replace (length (elements s) + k - length (elements s))%nat with k by lia.
  by rewrite Hk.
Qed.

(** *** What the methods leave alone *)

Ltac unfold_engine :=
  unfold resume, settleTask, nextPage, prevPage, nextPage_call, nextPage_resume,
    prevPage_call, prevPage_resume, goToPage, _handleMouseDown, _handleMouseMove,
    _handleMouseUp, _startDrag, _updateDrag, _endDrag, _applyCurlEffect,
    _completeFlip_start, _completeFlip_resume, _cancelFlip_start,
    _cancelFlip_resume, _cleanupDragPage, _animateToAngle, _animateFlip,
    _getFlippingPage in *.

Ltac frame :=
  intros; unfold sameBook; unfold_engine; repeat case_match; simplify_eq; norm;
  rewrite ?forEach_settle_length, ?length_alter; done.

Lemma sameBook_refl s : sameBook s s.
Proof. by unfold sameBook. Qed.

Lemma sameBook_trans s1 s2 s3 : sameBook s1 s2 -> sameBook s2 s3 -> sameBook s1 s3.
Proof. unfold sameBook. intros (?&?&?&?) (?&?&?&?). repeat split; congruence. Qed.

Lemma sameBook_nextPage_call s : sameBook s (snd (nextPage_call s)).
Proof. frame. Qed.

Lemma sameBook_nextPage_resume s : sameBook s (snd (nextPage_resume s)).
Proof. frame. Qed.

Lemma sameBook_prevPage_call s : sameBook s (snd (prevPage_call s)).
Proof. frame. Qed.

Lemma sameBook_prevPage_resume s : sameBook s (snd (prevPage_resume s)).
Proof. frame. Qed.

Lemma sameBook_goToPage n s : sameBook s (snd (goToPage n s)).
Proof. frame. Qed.

Lemma sameBook_handleMouseDown x y w h s : sameBook s (_handleMouseDown x y w h s).
Proof. frame. Qed.

Lemma sameBook_handleMouseMove x y w h s : sameBook s (_handleMouseMove x y w h s).
Proof. frame. Qed.

Lemma sameBook_handleMouseUp s : sameBook s (snd (_handleMouseUp s)).
Proof. frame. Qed.

Lemma sameBook_resume t s : sameBook s (resume t s).
Proof. destruct t; frame. Qed.

(** *** The leaf position stays even *)

Lemma even_plus2 n : Z.even (n + 2) = Z.even n.
Proof. rewrite Z.even_add. by destruct (Z.even n). Qed.

Lemma even_minus2 n : Z.even (n - 2) = Z.even n.
Proof. rewrite Z.even_sub. by destruct (Z.even n). Qed.

Lemma even_floor2 n : Z.even (n / 2 * 2) = true.
Proof. by rewrite Z.even_mul, orb_true_r. Qed.

Ltac parity :=
  intros; unfold_engine; repeat case_match; simplify_eq; norm;
  rewrite ?even_plus2, ?even_minus2, ?even_floor2; done.

Lemma even_nextPage_call s :
  Z.even (currentPage s) = true -> Z.even (currentPage (snd (nextPage_call s))) = true.
Proof. parity. Qed.

Lemma even_prevPage_call s :
  Z.even (currentPage s) = true -> Z.even (currentPage (snd (prevPage_call s))) = true.
Proof. parity. Qed.

Lemma even_goToPage n s :
  Z.even (currentPage s) = true -> Z.even (currentPage (snd (goToPage n s))) = true.
Proof. parity. Qed.

Lemma even_handleMouseDown x y w h s :
  Z.even (currentPage s) = true ->
  Z.even (currentPage (_handleMouseDown x y w h s)) = true.
Proof. parity. Qed.

Lemma even_handleMouseMove x y w h s :
  Z.even (currentPage s) = true ->
  Z.even (currentPage (_handleMouseMove x y w h s)) = true.
Proof. parity. Qed.

Lemma even_handleMouseUp s :
  Z.even (currentPage s) = true ->
  Z.even (currentPage (snd (_handleMouseUp s))) = true.
Proof. parity. Qed.

Lemma even_resume t s :
  Z.even (currentPage s) = true -> Z.even (currentPage (resume t s)) = true.
Proof. destruct t; parity. Qed.

(** *** The invariant *)

Lemma Inv_sameBook s s' :
  sameBook s s' -> Z.even (currentPage s') = true -> Inv s -> Inv s'.
Proof.
  intros (_ & Ht & Hp & Hl) He [_ Hnd Hrefs Hcount Htot].
  split; [done| | | |]; rewrite ?Hp, ?Ht, ?Hl; done.
Qed.

Lemma Inv_new o : Inv (new_PageFlip o).
Proof. split; simpl; try done. constructor. Qed.

Lemma Inv_loadPages cs s :
  Z.even (currentPage s) = true -> Inv (loadPages cs s).
Proof.
  intros He. split.
  - by rewrite (proj1 (loadPages_keeps cs s)).
  - rewrite loadPages_pages. apply NoDup_seq.
  - rewrite loadPages_pages, loadPages_length_elements.
    apply Forall_lookup. intros i r Hi. apply lookup_seq in Hi. lia.
  - by rewrite loadPages_count, loadPages_totalPages.
  - rewrite loadPages_totalPages. lia.
Qed.

Lemma Inv_step c e : Inv (engine c) -> Inv (engine (step c e)).
Proof.
  intros HI. pose proof (inv_even _ HI) as He.
  destruct e as [cs| | |n|p|p| |k]; simpl.
  - by apply Inv_loadPages.
  - pose proof (sameBook_nextPage_call (engine c)).
    pose proof (even_nextPage_call (engine c) He).
    destruct (nextPage_call (engine c)) as [[b|t] s']; simpl in *;
      by apply (Inv_sameBook (engine c)).
  - pose proof (sameBook_prevPage_call (engine c)).
    pose proof (even_prevPage_call (engine c) He).
    destruct (prevPage_call (engine c)) as [[b|t] s']; simpl in *;
      by apply (Inv_sameBook (engine c)).
  - apply (Inv_sameBook (engine c));
      [apply sameBook_goToPage|by apply even_goToPage|done].
  - apply (Inv_sameBook (engine c));
      [apply sameBook_handleMouseDown|by apply even_handleMouseDown|done].
  - apply (Inv_sameBook (engine c));
      [apply sameBook_handleMouseMove|by apply even_handleMouseMove|done].
  - pose proof (sameBook_handleMouseUp (engine c)).
    pose proof (even_handleMouseUp (engine c) He).
    destruct (_handleMouseUp (engine c)) as [[t|] s']; simpl in *;
      by apply (Inv_sameBook (engine c)).
  - destruct (tasks c !! k) as [t|]; simpl; [|done].
    apply (Inv_sameBook (engine c));
      [apply sameBook_resume|by apply even_resume|done].
Qed.

Lemma Inv_run c es : Inv (engine c) -> Inv (engine (run c es)).
Proof.
  revert c. induction es as [|e es IH]; intros c HI; [done|].
  simpl. apply IH. by apply Inv_step.
Qed.

Lemma reachable_Inv c : reachable c -> Inv (engine c).
Proof. intros (o & es & ->). apply Inv_run. apply Inv_new. Qed.

Lemma reachable_step c e : reachable c -> reachable (step c e).
Proof.
  intros (o & es & ->). exists o, (es ++ [e]). unfold run. by rewrite foldl_app.
Qed.

(** The rule of [_updatePageVisibility], read off a spread of the book. *)
Lemma updatePageVisibility_rule s (k : nat) (r : ref) :
  NoDup (pages s) -> pages s !! k = Some r -> (r < length (elements s))%nat ->
  rotationOf (_updatePageVisibility s) r =
    Some (Fin (settledRotation (currentPage s / 2) k)) /\
  zIndexOf (_updatePageVisibility s) r =
    Some (settledZIndex (currentPage s / 2) (length (pages s)) k).
Proof.
  intros Hnd Hk Hr. unfold rotationOf, zIndexOf.
  rewrite (updatePageVisibility_lookup s k r) by done.
  apply lookup_lt_is_Some in Hr as [e ->]. simpl.
  by rewrite settleSpread_rotateY, settleSpread_zIndex.
Qed.

(* ================================================================== *)
(** ** Rebuilding the model *)

(** C1, as stated, fails: an engine that was moved to leaf 4 is still at
    leaf 4 after its pages are loaded again. *)
Lemma loadPages_resets_position_counterexample :
  ~ (forall (c : Config) (pageContents : list Content),
        reachable c -> currentPage (loadPages pageContents (engine c)) = 0).
Proof.
  intros H.
  specialize (H (run (boot sampleOptions)
                   [CallLoadPages (leaf <$> seq 0 6); CallGoToPage 4])
                (leaf <$> seq 0 6)).
  discriminate H. by exists sampleOptions, [CallLoadPages (leaf <$> seq 0 6); CallGoToPage 4].
Qed.

(** C1 (amended): [loadPages] keeps [currentPage], and with it the current
    spread index, as well as the flipping and dragging flags and the drag
    session; what it discards is the spreads: every spread of the rebuilt
    book is a newly created element, at the rest angle that its position
    relative to the kept [currentPage] asks for. *)
Theorem loadPages_keeps_position (pageContents : list Content) (s : PageFlip) :
  let s' := loadPages pageContents s in
  currentPage s' = currentPage s /\
  currentPage s' / 2 = currentPage s / 2 /\
  isFlipping s' = isFlipping s /\
  isDragging s' = isDragging s /\
  dragPage s' = dragPage s /\
  dragDirection s' = dragDirection s /\
  forall (k : nat) (r : ref), pages s' !! k = Some r ->
    (length (elements s) <= r)%nat /\
    rotationOf s' r = Some (Fin (settledRotation (currentPage s / 2) k)).
Proof.
  intros s'. subst s'.
  destruct (loadPages_keeps pageContents s) as (Hc & Hf & Hd & Hp & Hdir & _).
  rewrite Hc. do 6 (split; [done|]). intros k r H. split.
  - rewrite loadPages_pages in H. apply lookup_seq in H. lia.
  - pose proof H as Hk. rewrite loadPages_pages in Hk.
    apply lookup_seq in Hk as [-> Hlt].
    apply lookup_lt_is_Some in Hlt as [e0 He0].
    destruct (loadPages_lookup pageContents s k e0 He0) as [_ Hel].
    unfold rotationOf. rewrite Hel. simpl. by rewrite settleSpread_rotateY.
Qed.

(** On a freshly constructed engine the position after a load is 0. *)
Lemma loadPages_fresh o pageContents :
  currentPage (loadPages pageContents (new_PageFlip o)) = 0.
Proof. by rewrite (proj1 (loadPages_keeps _ _)). Qed.

(* ================================================================== *)
(** ** An empty book *)

(** C2, as stated, fails: on an empty book [goToPage] answers [true]. *)
Lemma empty_book_goToPage_counterexample :
  ~ (forall (o : Options) (n : Z),
        fst (goToPage n (loadPages [] (new_PageFlip o))) = false).
Proof. intros H. specialize (H sampleOptions 0). discriminate H. Qed.

(** C2 (amended): after [loadPages] with no leaves, on an engine that is
    not flipping and stands at leaf 0 (as a new one does), the total-page
    count is 0, [nextPage] and [prevPage] return [false] and change
    nothing, and [goToPage] returns [true] for every argument and changes
    nothing either. *)
Theorem empty_book_navigation (s : PageFlip) :
  isFlipping s = false -> currentPage s = 0 ->
  let e := loadPages [] s in
  getTotalPages e = 0 /\
  pages e = [] /\
  nextPage_call e = (Returned false, e) /\
  prevPage_call e = (Returned false, e) /\
  forall n : Z, goToPage n e = (true, e).
Proof.
  intros Hf Hc e.
  assert (totalPages e = 0) as Ht by apply (loadPages_totalPages [] s).
  assert (currentPage e = 0) as Hc'
    by (unfold e; by rewrite (proj1 (loadPages_keeps [] s))).
  assert (isFlipping e = false) as Hf'
    by (unfold e; by rewrite (proj1 (proj2 (loadPages_keeps [] s)))).
  repeat split; try done.
  - unfold nextPage_call. by rewrite Hf', Ht, Hc'.
  - unfold prevPage_call. by rewrite Hf', Hc'.
  - intros n. unfold goToPage. rewrite Hf', Ht, Hc'.
    replace (Z.max 0 (Z.min n (0 - 1))) with 0 by lia. done.
Qed.

Lemma empty_book_navigation_witness :
  let e := loadPages [] (new_PageFlip sampleOptions) in
  getTotalPages e = 0 /\
  pages e = [] /\
  nextPage_call e = (Returned false, e) /\
  prevPage_call e = (Returned false, e) /\
  forall n : Z, goToPage n e = (true, e).
Proof. apply (empty_book_navigation (new_PageFlip sampleOptions)); reflexivity. Defined.

(* ================================================================== *)
(** ** Requests during a transition *)

(** C3, as stated, fails: while a drag gesture is active (and nothing is
    flipping) [nextPage] is accepted. *)
Lemma nextPage_during_drag_counterexample :
  ~ (forall c : Config,
        reachable c ->
        isFlipping (engine c) = true \/ isDragging (engine c) = true ->
        nextPage_call (engine c) = (Returned false, engine c)).
Proof.
  intros H.
  specialize (H (run (boot sampleOptions)
                   [CallLoadPages (leaf <$> seq 0 6); MouseDown rightEdge])).
  discriminate H.
  - by exists sampleOptions, [CallLoadPages (leaf <$> seq 0 6); MouseDown rightEdge].
  - by right.
Qed.

(** C3 (amended): while [isFlipping] is set (a discrete turn, or the
    commit of a drag, is animating), [nextPage], [prevPage] and [goToPage]
    return [false] and a pointer-down starts nothing; the engine state is
    left exactly as it was. *)
Theorem requests_rejected_while_flipping (s : PageFlip) :
  isFlipping s = true ->
  nextPage_call s = (Returned false, s) /\
  prevPage_call s = (Returned false, s) /\
  (forall n : Z, goToPage n s = (false, s)) /\
  (forall x y width height : Q, _handleMouseDown x y width height s = s).
Proof.
  intros Hf. unfold nextPage_call, prevPage_call, goToPage, _handleMouseDown.
  by rewrite Hf.
Qed.

Lemma requests_rejected_while_flipping_witness :
  let s := snd (nextPage_call (book 6)) in
  nextPage_call s = (Returned false, s) /\
  prevPage_call s = (Returned false, s) /\
  (forall n : Z, goToPage n s = (false, s)) /\
  (forall x y width height : Q, _handleMouseDown x y width height s = s).
Proof. apply (requests_rejected_while_flipping (snd (nextPage_call (book 6)))). reflexivity. Defined.

(* ================================================================== *)
(** ** Notifications of discrete turns *)

(** An accepted [nextPage] reports the index before the turn when it
    starts and the index after the turn when it ends, once each. *)
Lemma nextPage_notifications s s' :
  nextPage s = (true, s') ->
  log s' = log s
           ++ emitted (onFlipStart (options s)) (FlipStart (currentPage s) dNext)
           ++ emitted (onFlipEnd (options s)) (FlipEnd (currentPage s') dNext).
Proof.
  unfold_engine. repeat case_match; simplify_eq; intros [= <-]; norm;
    by rewrite <- ?app_assoc.
Qed.

(** An accepted [prevPage] has already moved [currentPage] when it reports
    the start of the turn: both notifications carry the index after the
    turn. *)
Lemma prevPage_notifications s s' :
  prevPage s = (true, s') ->
  currentPage s' = currentPage s - 2 /\
  log s' = log s
           ++ emitted (onFlipStart (options s)) (FlipStart (currentPage s - 2) dPrev)
           ++ emitted (onFlipEnd (options s)) (FlipEnd (currentPage s - 2) dPrev).
Proof.
  unfold_engine. repeat case_match; simplify_eq; intros [= <-]; norm;
    by rewrite <- ?app_assoc.
Qed.

(** A rejected call notifies nobody. *)
Lemma rejected_turn_silent s :
  (forall s', nextPage s = (false, s') -> s' = s) /\
  (forall s', prevPage s = (false, s') -> s' = s).
Proof.
  split; intros s'; unfold_engine; repeat case_match; simplify_eq;
    by intros [= <-].
Qed.

(** C4: the code at the failing input.  A book of 4 leaves stands at leaf 2
    (its second spread); [prevPage] is accepted and turns back to leaf 0,
    and the turn-started notification carries 0, the index after the turn,
    where the index before the turn is 2. *)
Theorem prevPage_reports_post_turn_index :
  let s := snd (goToPage 2 (book 4)) in
  currentPage s = 2 /\
  fst (prevPage_call s) = Awaiting (PrevPageK 0%nat) /\
  log (snd (prevPage_call s)) = log s ++ [FlipStart 0 dPrev] /\
  log (snd (prevPage s)) = log s ++ [FlipStart 0 dPrev; FlipEnd 0 dPrev].
Proof. by vm_compute. Qed.

(* ================================================================== *)
(** ** Stacking after settling *)

(** Among the spreads already turned an earlier one lies below a later
    one, and among the spreads still to come a nearer one lies above a
    farther one. *)
Lemma settledZIndex_order cur len (i j : nat) :
  (i < j)%nat ->
  (Z.of_nat j < cur -> settledZIndex cur len i < settledZIndex cur len j) /\
  (cur < Z.of_nat i -> settledZIndex cur len j < settledZIndex cur len i).
Proof.
  intros Hij. unfold settledZIndex. split; intros H; repeat case_match; lia.
Qed.

(** The current spread is on top as long as fewer than 10 spreads precede
    it and fewer than 10 follow it. *)
Lemma settledZIndex_current_top cur len (k : nat) :
  0 <= cur < 10 -> Z.of_nat len - cur <= 10 ->
  Z.of_nat k <> cur -> (k < len)%nat ->
  settledZIndex cur len k < settledZIndex cur len (Z.to_nat cur).
Proof.
  intros Hc Hl Hk Hlt. unfold settledZIndex. rewrite Z2Nat.id by lia.
  rewrite Z.eqb_refl. repeat case_match; lia.
Qed.

(** C5: the code at the failing input.  In a book of 24 leaves (12
    spreads) opened at its first spread, settled by [loadPages], the
    current spread has z-index 10 and the spread after it z-index 11: the
    current spread is not the topmost one. *)
Theorem current_spread_not_topmost :
  let s := book 24 in
  currentPage s / 2 = 0 /\
  pages s !! 0%nat = Some 0%nat /\ zIndexOf s 0%nat = Some 10 /\
  pages s !! 1%nat = Some 1%nat /\ zIndexOf s 1%nat = Some 11 /\
  rotationOf s 0%nat = Some (Fin 0) /\ rotationOf s 1%nat = Some (Fin 0).
Proof. by vm_compute. Qed.

(* ================================================================== *)
(** ** Pairing leaves into spreads *)

Lemma orNull_idem v : orNull (orNull v) = orNull v.
Proof. destruct v as [c|]; simpl; [|done]. by destruct (truthy c) eqn:E; simpl; rewrite ?E. Qed.

Lemma orNull_truthy (cs : list Content) (j : nat) :
  Forall (fun c => truthy c = true) cs -> orNull (cs !! j) = cs !! j.
Proof.
  intros Hall. destruct (cs !! j) as [c|] eqn:E; simpl; [|done].
  by rewrite (proj1 (Forall_lookup _ _) Hall j c E).
Qed.

(** The [k]-th spread of a loaded book holds leaf [2k] on the left and, on
    the right, leaf [2k + 1] when there is one and it is truthy. *)
Lemma loadPages_spread cs s (k : nat) :
  (k < length (pages (loadPages cs s)))%nat ->
  exists (r : ref) (e : Spread),
    pages (loadPages cs s) !! k = Some r /\
    elements (loadPages cs s) !! r = Some e /\
    cs !! (2 * k)%nat = Some (leftPage e) /\
    rightPage e = orNull (cs !! (2 * k + 1)%nat) /\
    dataIndex e = Z.of_nat k.
Proof.
  intros Hk. rewrite loadPages_pages, length_seq in Hk.
  apply lookup_lt_is_Some in Hk as [e0 He0].
  destruct (loadPages_lookup cs s k e0 He0) as [Hp He].
  exists (length (elements s) + k)%nat,
         (settleSpread (duration (options s)) (currentPage s / 2)
            (length (spreadsFrom (options s) 0 cs)) k e0).
  split; [exact Hp|]. split; [exact He|].
  destruct (settleSpread_leaves (duration (options s)) (currentPage s / 2)
              (length (spreadsFrom (options s) 0 cs)) k e0) as (-> & -> & ->).
  rewrite spreadsFrom_lookup in He0.
  destruct (cs !! (2 * k)%nat) as [c|]; [|done].
  injection He0 as <-.
  split; [done|]. split.
  - apply (orNull_idem (cs !! (2 * k + 1)%nat)).
  - cbn [_createSpread dataIndex]. rewrite Z.add_0_l, Z.mul_comm. by apply Z.div_mul.
Qed.

(** C6, as stated, fails: of two leaves the second of which is the empty
    string, the only spread holds a single leaf although the count is
    even. *)
Lemma loadPages_falsy_leaf_counterexample :
  ~ (forall (cs : list Content) (s : PageFlip) (r : ref) (e : Spread),
        cs <> [] ->
        last (pages (loadPages cs s)) = Some r ->
        elements (loadPages cs s) !! r = Some e ->
        (rightPage e = None <-> Nat.odd (length cs) = true)).
Proof.
  intros H.
  destruct (H [CString "<p>a</p>"; CString ""] (new_PageFlip sampleOptions)
              0%nat
              (mkSpread (CString "<p>a</p>") None 0 (Some 10) (Some (Fin 0))
                 (TransitionTransform (inject_Z 800)) false))
    as [Hodd _]; try done.
  by specialize (Hodd eq_refl).
Qed.

(** C6 (amended): for a content sequence of [N >= 1] leaves, none of them
    falsy (no empty string), [loadPages] makes [ceil (N / 2)] spreads; the
    [k]-th holds leaves [2k] and [2k + 1], in this order; and the last
    spread holds a single leaf exactly when [N] is odd. *)
Theorem loadPages_pairs_leaves (cs : list Content) (s : PageFlip) :
  cs <> [] ->
  Forall (fun c => truthy c = true) cs ->
  let s' := loadPages cs s in
  Z.of_nat (length (pages s')) = ceilHalf (Z.of_nat (length cs)) /\
  (forall k : nat, (k < length (pages s'))%nat ->
     exists (r : ref) (e : Spread),
       pages s' !! k = Some r /\ elements s' !! r = Some e /\
       cs !! (2 * k)%nat = Some (leftPage e) /\
       rightPage e = cs !! (2 * k + 1)%nat /\
       dataIndex e = Z.of_nat k) /\
  (exists (r : ref) (e : Spread),
     last (pages s') = Some r /\ elements s' !! r = Some e /\
     (rightPage e = None <-> Nat.odd (length cs) = true)).
Proof.
  intros Hne Hall s'. subst s'.
  pose proof (loadPages_count cs s) as Hcount.
  split; [done|]. split.
  - intros k Hk. destruct (loadPages_spread cs s k Hk) as (r & e & ? & ? & ? & Hr & ?).
    exists r, e. by rewrite <- (orNull_truthy cs (2 * k + 1)) by done.
  - assert (0 < length cs)%nat as Hpos by (destruct cs; [done|simpl; lia]).
    unfold ceilHalf in Hcount.
    set (n := length (pages (loadPages cs s))) in *.
    assert (0 < n)%nat as Hn by (zify; Z.to_euclidean_division_equations; lia).
    destruct (loadPages_spread cs s (n - 1)) as (r & e & Hp & He & _ & Hr & _);
      [unfold n; lia|].
    exists r, e. split; [|split; [done|]].
    + rewrite last_lookup. fold n. by replace (Nat.pred n) with (n - 1)%nat by lia.
    + rewrite Hr, orNull_truthy by done. rewrite lookup_ge_None.
      rewrite Nat.odd_spec. unfold Nat.Odd. split.
      * intros Hge. exists (n - 1)%nat.
        zify; Z.to_euclidean_division_equations; lia.
      * intros [m Hm]. zify; Z.to_euclidean_division_equations; lia.
Qed.

Lemma loadPages_pairs_leaves_witness :
  let cs := [CString "<p>1</p>"; CString "two.png"; CElement 3] in
  let s' := loadPages cs (new_PageFlip sampleOptions) in
  Z.of_nat (length (pages s')) = ceilHalf (Z.of_nat (length cs)) /\
  (forall k : nat, (k < length (pages s'))%nat ->
     exists (r : ref) (e : Spread),
       pages s' !! k = Some r /\ elements s' !! r = Some e /\
       cs !! (2 * k)%nat = Some (leftPage e) /\
       rightPage e = cs !! (2 * k + 1)%nat /\
       dataIndex e = Z.of_nat k) /\
  (exists (r : ref) (e : Spread),
     last (pages s') = Some r /\ elements s' !! r = Some e /\
     (rightPage e = None <-> Nat.odd (length cs) = true)).
Proof.
  apply (loadPages_pairs_leaves
           [CString "<p>1</p>"; CString "two.png"; CElement 3]
           (new_PageFlip sampleOptions)).
  - discriminate.
  - repeat constructor.
Defined.

(* ================================================================== *)
(** ** Discrete turns on a book *)

Lemma even_double n : Z.even n = true -> n / 2 * 2 = n.
Proof.
  intros He. apply Z.even_spec in He as [m ->].
  rewrite (Z.mul_comm 2 m), Z.div_mul by lia. done.
Qed.

(** In a book, the spread of a leaf position that has room to advance
    exists. *)
Lemma pageAt_current s :
  Inv s -> 0 <= currentPage s -> currentPage s < totalPages s - 2 ->
  is_Some (pageAt s (currentPage s / 2)).
Proof.
  intros HI H0 Hlt. unfold pageAt.
  assert (0 <= currentPage s / 2) as Hq by (apply Z.div_pos; lia).
  destruct (currentPage s / 2 <? 0) eqn:E; [apply Z.ltb_lt in E; lia|].
  apply lookup_lt_is_Some. pose proof (inv_count _ HI) as Hc. unfold ceilHalf in Hc.
  zify. Z.to_euclidean_division_equations. lia.
Qed.

Lemma pageAt_nonneg s k r : pageAt s k = Some r -> 0 <= k /\ pages s !! Z.to_nat k = Some r.
Proof.
  unfold pageAt. destruct (k <? 0) eqn:E; [done|]. apply Z.ltb_ge in E. done.
Qed.

Lemma nextPage_accepted s s' :
  Inv s -> nextPage s = (true, s') ->
  isFlipping s = false /\ currentPage s < totalPages s - 2 /\
  isFlipping s' = false /\ sameBook s s' /\
  ((0 <= currentPage s /\ currentPage s' = currentPage s + 2) \/
   (currentPage s < 0 /\ currentPage s' = currentPage s)).
Proof.
  intros HI Hn.
  assert (sameBook s s') as Hsb.
  { pose proof (sameBook_nextPage_call s) as H1. unfold nextPage in Hn.
    destruct (nextPage_call s) as [[b|t] s1]; simpl in H1.
    - by injection Hn as _ <-.
    - apply (sameBook_trans _ s1); [done|].
      replace s' with (snd (nextPage_resume s1)) by (by rewrite Hn).
      apply (sameBook_nextPage_resume s1). }
  unfold nextPage, nextPage_call in Hn.
  destruct (isFlipping s) eqn:Hf; [done|].
  destruct (totalPages s - 2 <=? currentPage s) eqn:Hle; [done|].
  apply Z.leb_gt in Hle. simpl in Hn. rewrite notifyStart_eq in Hn.
  cbn [orb] in Hn.
  destruct (pageAt _ _) as [r|] eqn:Hp in Hn.
  - apply pageAt_nonneg in Hp as [Hq _]. simpl in Hq.
    unfold nextPage_resume in Hn. injection Hn as <-. norm.
    do 3 (split; [done|]). split; [rewrite ?notifyEnd_eq in Hsb; exact Hsb|]. left. split; [|done].
    Z.to_euclidean_division_equations. lia.
  - injection Hn as <-. norm.
    do 3 (split; [done|]). split; [rewrite ?notifyEnd_eq in Hsb; exact Hsb|].
    destruct (Z.lt_ge_cases (currentPage s) 0) as [Hneg|Hpos]; [by right|].
    destruct (pageAt_current s HI Hpos Hle) as [r Hr].
    unfold pageAt in Hp, Hr. simpl in Hp. by rewrite Hr in Hp.
Qed.

Lemma prevPage_accepted s s' :
  prevPage s = (true, s') ->
  isFlipping s = false /\ 0 < currentPage s /\
  isFlipping s' = false /\ sameBook s s' /\
  currentPage s' = currentPage s - 2.
Proof.
  intros Hn.
  assert (sameBook s s') as Hsb.
  { pose proof (sameBook_prevPage_call s) as H1. unfold prevPage in Hn.
    destruct (prevPage_call s) as [[b|t] s1]; simpl in H1.
    - by injection Hn as _ <-.
    - apply (sameBook_trans _ s1); [done|].
      replace s' with (snd (prevPage_resume s1)) by (by rewrite Hn).
      apply (sameBook_prevPage_resume s1). }
  unfold prevPage, prevPage_call in Hn.
  destruct (isFlipping s) eqn:Hf; [done|].
  destruct (currentPage s <=? 0) eqn:Hle; [done|].
  apply Z.leb_gt in Hle. cbn [orb] in Hn. simpl in Hn. rewrite notifyStart_eq in Hn.
  destruct (pageAt _ _) as [r|] in Hn.
  - unfold prevPage_resume in Hn. injection Hn as <-. norm.
    do 3 (split; [done|]). split; [rewrite ?notifyEnd_eq in Hsb; exact Hsb|done].
  - injection Hn as <-. norm.
    do 3 (split; [done|]). split; [rewrite ?notifyEnd_eq in Hsb; exact Hsb|done].
Qed.

(** C7: from any state the engine can be in, if [nextPage] and then
    [prevPage] are both accepted (each running to the end of its
    animation), the leaf position and the spread index are back where they
    were; and likewise for [prevPage] and then [nextPage]. *)
Theorem advance_there_and_back (c : Config) :
  reachable c ->
  let s := engine c in
  (fst (nextPage s) = true ->
   fst (prevPage (snd (nextPage s))) = true ->
   currentPage (snd (prevPage (snd (nextPage s)))) = currentPage s /\
   currentPage (snd (prevPage (snd (nextPage s)))) / 2 = currentPage s / 2) /\
  (fst (prevPage s) = true ->
   fst (nextPage (snd (prevPage s))) = true ->
   currentPage (snd (nextPage (snd (prevPage s)))) = currentPage s /\
   currentPage (snd (nextPage (snd (prevPage s)))) / 2 = currentPage s / 2).
Proof.
  intros Hreach s. pose proof (reachable_Inv c Hreach) as HI. fold s in HI.
  split.
  - destruct (nextPage s) as [b1 s1] eqn:H1. simpl. intros ->.
    destruct (prevPage s1) as [b2 s2] eqn:H2. simpl. intros ->.
    destruct (nextPage_accepted s s1 HI H1) as (_ & _ & _ & _ & Hcase).
    destruct (prevPage_accepted s1 s2 H2) as (_ & Hpos & _ & _ & Hc2).
    assert (currentPage s2 = currentPage s) as -> by lia. done.
  - destruct (prevPage s) as [b1 s1] eqn:H1. simpl. intros ->.
    destruct (nextPage s1) as [b2 s2] eqn:H2. simpl. intros ->.
    destruct (prevPage_accepted s s1 H1) as (_ & Hpos & _ & Hsb & Hc1).
    assert (Inv s1) as HI1.
    { apply (Inv_sameBook s); [done| |done].
      rewrite Hc1, even_minus2. apply (inv_even _ HI). }
    destruct (nextPage_accepted s1 s2 HI1 H2) as (_ & _ & _ & _ & Hcase).
    pose proof (inv_even _ HI) as He. apply Z.even_spec in He as [m Hm].
    assert (currentPage s2 = currentPage s) as -> by lia. done.
Qed.

Lemma advance_there_and_back_witness :
  let s := engine (loadedAt 6 2) in
  (currentPage (snd (prevPage (snd (nextPage s)))) = currentPage s /\
   currentPage (snd (prevPage (snd (nextPage s)))) / 2 = currentPage s / 2) /\
  (currentPage (snd (nextPage (snd (prevPage s)))) = currentPage s /\
   currentPage (snd (nextPage (snd (prevPage s)))) / 2 = currentPage s / 2).
Proof.
  assert (reachable (loadedAt 6 2)) as Hr by (eexists _, _; reflexivity).
  pose proof (advance_there_and_back (loadedAt 6 2) Hr) as [H1 H2].
  split.
  - apply H1; vm_compute; reflexivity.
  - apply H2; vm_compute; reflexivity.
Defined.

(** C8: on a book with at least one leaf that is not flipping, [goToPage]
    returns [true] and lands on the target clamped into
    [[0, totalPages - 1]] and rounded down to an even leaf index; and
    asking for a leaf of the current spread changes nothing at all. *)
Theorem goToPage_lands_even (c : Config) (n : Z) :
  reachable c ->
  let s := engine c in
  isFlipping s = false ->
  1 <= totalPages s ->
  let clamped := Z.max 0 (Z.min n (totalPages s - 1)) in
  fst (goToPage n s) = true /\
  currentPage (snd (goToPage n s)) = clamped / 2 * 2 /\
  Z.even (currentPage (snd (goToPage n s))) = true /\
  0 <= clamped <= totalPages s - 1 /\
  clamped - 1 <= currentPage (snd (goToPage n s)) <= clamped /\
  (0 <= n < totalPages s -> n / 2 = currentPage s / 2 -> goToPage n s = (true, s)).
Proof.
  intros Hreach s Hf Ht clamped.
  pose proof (inv_even _ (reachable_Inv c Hreach)) as He. fold s in He.
  assert (currentPage (snd (goToPage n s)) = clamped / 2 * 2
          /\ fst (goToPage n s) = true) as [Hc Hb].
  { unfold goToPage. rewrite Hf. fold clamped.
    destruct (clamped / 2 * 2 =? currentPage s) eqn:E.
    - apply Z.eqb_eq in E. done.
    - norm. done. }
  split; [done|]. split; [done|]. rewrite Hc.
  split; [apply even_floor2|]. split; [unfold clamped; lia|].
  split; [Z.to_euclidean_division_equations; lia|].
  intros Hn Hsame. unfold goToPage. rewrite Hf. fold clamped.
  replace clamped with n by (unfold clamped; lia).
  rewrite Hsame, even_double by done. by rewrite Z.eqb_refl.
Qed.

Lemma goToPage_lands_even_witness :
  let s := engine (loaded 5) in
  fst (goToPage 7 s) = true /\
  currentPage (snd (goToPage 7 s)) = 4 /\
  goToPage 1 s = (true, s).
Proof.
  assert (reachable (loaded 5)) as Hr by (eexists _, _; reflexivity).
  assert (isFlipping (engine (loaded 5)) = false) as Hf by (vm_compute; reflexivity).
  assert (1 <= totalPages (engine (loaded 5))) as Ht by (vm_compute; discriminate).
  pose proof (goToPage_lands_even (loaded 5) 7 Hr Hf Ht) as (H1 & H2 & _).
  pose proof (goToPage_lands_even (loaded 5) 1 Hr Hf Ht) as (_ & _ & _ & _ & _ & H3).
  split; [exact H1|]. split.
  - rewrite H2. vm_compute. reflexivity.
  - apply H3; vm_compute; [split; [discriminate|reflexivity]|reflexivity].
Defined.

(* ================================================================== *)
(** ** Drag gestures *)

Lemma Settled_ext s s' :
  options s' = options s -> currentPage s' = currentPage s ->
  pages s' = pages s -> elements s' = elements s ->
  Settled s -> Settled s'.
Proof.
  intros Ho Hc Hp He HS. unfold Settled in *.
  rewrite (updatePageVisibility_elements_ext s s') by done. by rewrite He.
Qed.

Lemma pageAt_pages s s' k : pages s' = pages s -> pageAt s' k = pageAt s k.
Proof. intros Hp. unfold pageAt. by rewrite Hp. Qed.

(** A pointer-down on an engine at rest either starts nothing, leaving
    every element as it was, or opens a drag session on one spread, whose
    rotation is not touched yet. *)
Lemma handleMouseDown_cases x y w h s :
  isFlipping s = false ->
  let s' := _handleMouseDown x y w h s in
  currentPage s' = currentPage s /\ log s' = log s /\ isFlipping s' = false /\
  ((isDragging s' = isDragging s /\ elements s' = elements s) \/
   (exists d element, Session d element s' /\
                      rotationOf s' element = rotationOf s element)).
Proof.
  intros Hf s'. subst s'. unfold _handleMouseDown. rewrite Hf.
  unfold _startDrag, _getFlippingPage.
  destruct (Qltb (w * (6 # 10)) x && (currentPage s <? totalPages s - 2)) eqn:E1.
  - apply andb_true_iff in E1 as [_ E1]. apply Z.ltb_lt in E1.
    simpl. rewrite !(pageAt_pages s (set_dragDirection (Some next) s)) by done.
    destruct (pageAt s (currentPage s / 2)) as [el|] eqn:Hp; simpl.
    + do 3 (split; [done|]). right. exists next, el. split.
      * by split.
      * unfold rotationOf. simpl. rewrite !list_lookup_alter, !decide_True by done.
        by destruct (elements s !! el).
    + do 3 (split; [done|]). by left.
  - destruct (Qltb x (w * (4 # 10)) && (0 <? currentPage s)) eqn:E2.
    + apply andb_true_iff in E2 as [_ E2]. apply Z.ltb_lt in E2.
      simpl. rewrite !(pageAt_pages s (set_dragDirection (Some prev) s)) by done.
      destruct (pageAt s (currentPage s / 2 - 1)) as [el|] eqn:Hp; simpl.
      * do 3 (split; [done|]). right. exists prev, el. split.
        -- by split.
        -- unfold rotationOf. simpl. rewrite !list_lookup_alter, !decide_True by done.
           by destruct (elements s !! el).
      * do 3 (split; [done|]). by left.
    + do 3 (split; [done|]). by left.
Qed.

Lemma handleMouseMove_session d element x y w h s :
  Session d element s ->
  let s' := _handleMouseMove x y w h s in
  Session d element s' /\ currentPage s' = currentPage s /\ log s' = log s.
Proof.
  intros [Hdrag Hflip Hdir Hpage Htarget Hroom] s'. subst s'.
  unfold _handleMouseMove, _updateDrag, _applyCurlEffect. rewrite Hdrag. simpl.
  rewrite Hdir. destruct d; simpl; rewrite Hpage; simpl; by repeat split.
Qed.

Lemma moveAll_session d element moves s :
  Session d element s ->
  Session d element (moveAll moves s) /\
  currentPage (moveAll moves s) = currentPage s /\
  log (moveAll moves s) = log s.
Proof.
  revert s. induction moves as [|p moves IH]; intros s HS; [done|].
  destruct (handleMouseMove_session d element (pointerX p) (pointerY p)
              (boxWidth p) (boxHeight p) s HS) as (HS' & Hc & Hl).
  destruct (IH _ HS') as (HS'' & Hc' & Hl').
  unfold moveAll in *. simpl. split; [done|]. split; congruence.
Qed.

Lemma moveAll_not_dragging moves s :
  isDragging s = false -> moveAll moves s = s.
Proof.
  intros Hd. induction moves as [|p moves IH]; [done|].
  unfold moveAll in *. simpl. unfold _handleMouseMove at 2. by rewrite Hd.
Qed.

(** The spread a session turns sits at a position of the book. *)
Lemma Session_position d element s :
  Session d element s ->
  exists k : nat,
    pages s !! k = Some element /\
    Z.of_nat k = match d with
                 | next => currentPage s / 2
                 | prev => currentPage s / 2 - 1
                 end.
Proof.
  intros HS. pose proof (ses_target _ _ _ HS) as Ht.
  destruct d; simpl in Ht; apply pageAt_nonneg in Ht as [Hk Hp];
    eexists; (split; [exact Hp|]); by rewrite Z2Nat.id.
Qed.

Lemma updatePageVisibility_keeps s :
  options (_updatePageVisibility s) = options s /\
  currentPage (_updatePageVisibility s) = currentPage s /\
  pages (_updatePageVisibility s) = pages s /\
  log (_updatePageVisibility s) = log s /\
  isFlipping (_updatePageVisibility s) = isFlipping s /\
  isDragging (_updatePageVisibility s) = isDragging s /\
  dragPage (_updatePageVisibility s) = dragPage s.
Proof. done. Qed.

Lemma cleanupDragPage_fields element s :
  dragPage s = Some element ->
  let s' := _cleanupDragPage s in
  options s' = options s /\ currentPage s' = currentPage s /\
  pages s' = pages s /\ log s' = log s /\
  isFlipping s' = isFlipping s /\ isDragging s' = isDragging s /\
  dragPage s' = None /\ dragDirection s' = None /\
  elements s' = elements (released element (currentPage s) s).
Proof. intros Hp s'. subst s'. unfold _cleanupDragPage, released. rewrite Hp. by simpl. Qed.

Lemma completeFlip_resume_fields d element s :
  dragDirection s = Some d -> dragPage s = Some element ->
  let s' := _completeFlip_resume s in
  options s' = options s /\ pages s' = pages s /\
  currentPage s' = turned d (currentPage s) /\
  log s' = log s ++ emitted (onFlipEnd (options s))
                      (FlipEnd (turned d (currentPage s)) dNull) /\
  isFlipping s' = false /\ isDragging s' = isDragging s /\
  dragPage s' = None /\
  elements s' =
    elements (_updatePageVisibility
                (released element (turned d (currentPage s)) s)).
Proof.
  intros Hd Hp s'. subst s'. unfold _completeFlip_resume. rewrite Hd.
  set (s0 := match d with
             | next => set_currentPage (currentPage s + 2) s
             | prev => set_currentPage (currentPage s - 2) s
             end).
  assert (s0 = set_currentPage (turned d (currentPage s)) s) as -> by (by destruct d).
  destruct (cleanupDragPage_fields element
              (set_currentPage (turned d (currentPage s)) s) Hp)
    as (Ho & Hc & Hpg & Hl & Hf & Hdg & Hdp & Hdd & He).
  set (s1 := _cleanupDragPage _) in *.
  destruct (updatePageVisibility_keeps s1) as (Uo & Uc & Up & Ul & Uf & Ud & Udp).
  rewrite notifyEnd_eq.
  set (s2 := _updatePageVisibility s1) in *.
  cbn [options pages currentPage log isFlipping isDragging dragPage elements
       dragDirection set_log set_isFlipping].
  rewrite Uo, Uc, Up, Ul, Ud, Udp, Ho, Hc, Hpg, Hl, Hdg, Hdp.
  change (dragDirection s2) with (dragDirection s1). rewrite Hdd.
  do 7 (split; [done|]). subst s2.
  apply updatePageVisibility_elements_ext; try done.
Qed.

Lemma cancelFlip_resume_fields element s :
  dragPage s = Some element ->
  let s' := _cancelFlip_resume s in
  options s' = options s /\ pages s' = pages s /\
  currentPage s' = currentPage s /\ log s' = log s /\
  isFlipping s' = isFlipping s /\ isDragging s' = isDragging s /\
  dragPage s' = None /\
  elements s' =
    elements (_updatePageVisibility (released element (currentPage s) s)).
Proof.
  intros Hp s'. subst s'. unfold _cancelFlip_resume.
  destruct (cleanupDragPage_fields element s Hp)
    as (Ho & Hc & Hpg & Hl & Hf & Hdg & Hdp & Hdd & He).
  set (s1 := _cleanupDragPage _) in *.
  destruct (updatePageVisibility_keeps s1) as (Uo & Uc & Up & Ul & Uf & Ud & Udp).
  rewrite Uo, Uc, Up, Ul, Uf, Ud, Udp, Ho, Hc, Hpg, Hl, Hf, Hdg, Hdp.
  do 7 (split; [done|]).
  apply updatePageVisibility_elements_ext; try done.
Qed.

(** The engine in the middle of a commit or of a revert animation. *)
Lemma handleMouseUp_session d element s :
  Session d element s ->
  _handleMouseUp s =
  if JsNum.gt (dragProgress s) (3 # 10) then
    (Some (CompleteFlipK element),
     set_isDragging false
       (_animateToAngle element (match d with next => -180 | prev => 0 end)
          (notifyStart (currentPage s) (dirArg (Some d)) (set_isFlipping true s))))
  else
    (Some (CancelFlipK element),
     set_isDragging false
       (_animateToAngle element (match d with next => 0 | prev => -180 end) s)).
Proof.
  intros [Hdrag Hflip Hdir Hpage Htarget Hroom].
  unfold _handleMouseUp, _endDrag. rewrite Hdrag. cbn [negb].
  destruct (JsNum.gt (dragProgress s) (3 # 10)).
  - unfold _completeFlip_start. rewrite Hpage. cbn [dragDirection set_isFlipping currentPage].
    rewrite notifyStart_eq. cbn [dragDirection set_log set_isFlipping]. rewrite Hdir.
    rewrite ?notifyStart_eq. by destruct d.
  - unfold _cancelFlip_start. rewrite Hpage, Hdir. by destruct d.
Qed.

Lemma rotationOf_settled_released s (k : nat) (element : ref) page s0 :
  Inv s -> pages s !! k = Some element ->
  pages s0 = pages s -> length (elements s0) = length (elements s) ->
  rotationOf (_updatePageVisibility (released element page s0)) element =
  Some (Fin (settledRotation (page / 2) k)).
Proof.
  intros HI Hk Hp Hl.
  assert (element < length (elements s))%nat as Hlive
    by (apply (proj1 (Forall_lookup _ _) (inv_refs _ HI) k element Hk)).
  destruct (updatePageVisibility_rule (released element page s0) k element)
    as [Hrot _]; try done.
  - simpl. rewrite Hp. apply (inv_nodup _ HI).
  - simpl. by rewrite Hp.
  - simpl. rewrite !length_alter. lia.
Qed.

(** Releasing a session with progress above 0.3: the turn is committed. *)
Lemma release_commit d element s :
  Inv s -> Session d element s ->
  JsNum.gt (dragProgress s) (3 # 10) = true ->
  let s' := settleTask (_handleMouseUp s) in
  currentPage s' = turned d (currentPage s) /\
  rotationOf s' element = Some (Fin (oppositeAngle d)) /\
  log s' = log s
           ++ emitted (onFlipStart (options s))
                (FlipStart (currentPage s) (dirArg (Some d)))
           ++ emitted (onFlipEnd (options s))
                (FlipEnd (turned d (currentPage s)) dNull) /\
  isFlipping s' = false /\ isDragging s' = false /\ dragPage s' = None /\
  sameBook s s' /\ Settled s'.
Proof.
  intros HI HS Hgt s'.
  destruct (Session_position d element s HS) as (k & Hk & Hkpos).
  subst s'. rewrite (handleMouseUp_session d element s HS), Hgt.
  destruct HS as [Hdrag Hflip Hdir Hpage Htarget Hroom].
  cbn [settleTask resume].
  set (s1 := set_isDragging false _).
  assert (totalPages s1 = totalPages s /\
          options s1 = options s /\ pages s1 = pages s /\
          currentPage s1 = currentPage s /\
          length (elements s1) = length (elements s) /\
          dragDirection s1 = Some d /\ dragPage s1 = Some element /\
          isDragging s1 = false /\
          log s1 = log s ++ emitted (onFlipStart (options s))
                              (FlipStart (currentPage s) (dirArg (Some d))))
    as (Ht1 & Ho1 & Hp1 & Hc1 & Hl1 & Hd1 & Hdp1 & Hdg1 & Hlog1).
  { subst s1. unfold _animateToAngle. rewrite notifyStart_eq. simpl.
    rewrite !length_alter. done. }
  destruct (completeFlip_resume_fields d element s1 Hd1 Hdp1)
    as (Ho & Hp & Hc & Hl & Hf & Hdg & Hdp & He).
  rewrite ?Hc, ?Hl, ?Hf, ?Hdg, ?Hdp, ?Hdg1, ?Hlog1, ?Ho1, ?Hc1.
  split; [done|]. split; [|split; [by rewrite <- app_assoc|]].
  - unfold rotationOf. rewrite He. fold (rotationOf
      (_updatePageVisibility (released element (turned d (currentPage s1)) s1)) element).
    rewrite (rotationOf_settled_released s k) by done.
    rewrite Hc1. f_equal. f_equal.
    unfold settledRotation, oppositeAngle, turned. rewrite Hkpos.
    destruct d.
    + destruct (_ <? _) eqn:E; [done|]. apply Z.ltb_ge in E.
      Z.to_euclidean_division_equations. lia.
    + destruct (_ <? _) eqn:E; [|done]. apply Z.ltb_lt in E.
      Z.to_euclidean_division_equations. lia.
  - do 3 (split; [done|]). split.
    + apply (sameBook_trans _ s1);
        [|apply (sameBook_resume (CompleteFlipK element) s1)].
      unfold sameBook. by rewrite Ht1, Ho1, Hp1, Hl1.
    + apply (Settled_ext
               (_updatePageVisibility (released element (turned d (currentPage s1)) s1)));
        try done.
      apply updatePageVisibility_Settled. unfold released.
      cbn [pages set_currentPage write set_elements]. rewrite Hp1. apply (inv_nodup _ HI).
Qed.

(** Releasing a session with progress at most 0.3 (or with no progress
    value at all): the turn is reverted. *)
Lemma release_revert d element s :
  Inv s -> Session d element s ->
  JsNum.gt (dragProgress s) (3 # 10) = false ->
  let s' := settleTask (_handleMouseUp s) in
  currentPage s' = currentPage s /\
  rotationOf s' element = Some (Fin (restAngle d)) /\
  log s' = log s /\
  isFlipping s' = false /\ isDragging s' = false /\ dragPage s' = None /\
  sameBook s s' /\ Settled s'.
Proof.
  intros HI HS Hgt s'.
  destruct (Session_position d element s HS) as (k & Hk & Hkpos).
  subst s'. rewrite (handleMouseUp_session d element s HS), Hgt.
  destruct HS as [Hdrag Hflip Hdir Hpage Htarget Hroom].
  cbn [settleTask resume].
  set (s1 := set_isDragging false _).
  assert (totalPages s1 = totalPages s /\
          options s1 = options s /\ pages s1 = pages s /\
          currentPage s1 = currentPage s /\
          length (elements s1) = length (elements s) /\
          dragPage s1 = Some element /\ isFlipping s1 = false /\
          isDragging s1 = false /\ log s1 = log s)
    as (Ht1 & Ho1 & Hp1 & Hc1 & Hl1 & Hdp1 & Hf1 & Hdg1 & Hlog1).
  { subst s1. unfold _animateToAngle. simpl. rewrite !length_alter. done. }
  destruct (cancelFlip_resume_fields element s1 Hdp1)
    as (Ho & Hp & Hc & Hl & Hf & Hdg & Hdp & He).
  rewrite ?Hc, ?Hl, ?Hf, ?Hdg, ?Hdp, ?Hdg1, ?Hlog1, ?Hf1, ?Hc1.
  split; [done|]. split; [|split; [done|]].
  - unfold rotationOf. rewrite He. fold (rotationOf
      (_updatePageVisibility (released element (currentPage s1) s1)) element).
    rewrite (rotationOf_settled_released s k) by done.
    rewrite Hc1. f_equal. f_equal.
    unfold settledRotation, restAngle. rewrite Hkpos.
    destruct d.
    + destruct (_ <? _) eqn:E; [|done]. apply Z.ltb_lt in E. lia.
    + destruct (_ <? _) eqn:E; [done|]. apply Z.ltb_ge in E. lia.
  - do 3 (split; [done|]). split.
    + apply (sameBook_trans _ s1);
        [|apply (sameBook_resume (CancelFlipK element) s1)].
      unfold sameBook. by rewrite Ht1, Ho1, Hp1, Hl1.
    + apply (Settled_ext (_updatePageVisibility (released element (currentPage s1) s1)));
        try done.
      apply updatePageVisibility_Settled. unfold released.
      cbn [pages set_currentPage write set_elements]. rewrite Hp1. apply (inv_nodup _ HI).
Qed.

Lemma moveAll_sameBook moves s : sameBook s (moveAll moves s).
Proof.
  revert s. induction moves as [|p moves IH]; intros s; [apply sameBook_refl|].
  unfold moveAll in *. simpl. eapply sameBook_trans; [|apply IH].
  apply sameBook_handleMouseMove.
Qed.

(** In a settled book the spread a session turns stands at the rest angle
    of its side. *)
Lemma Session_rest_angle d element s0 s :
  Inv s0 -> Settled s0 -> Session d element s ->
  pages s = pages s0 -> currentPage s = currentPage s0 ->
  rotationOf s0 element = Some (Fin (restAngle d)).
Proof.
  intros HI HS Hses Hp Hc.
  destruct (Session_position d element s Hses) as (k & Hk & Hkpos).
  rewrite Hp in Hk. rewrite Hc in Hkpos.
  assert (element < length (elements s0))%nat as Hlive
    by (apply (proj1 (Forall_lookup _ _) (inv_refs _ HI) k element Hk)).
  destruct (updatePageVisibility_rule s0 k element (inv_nodup _ HI) Hk Hlive)
    as [Hrot _].
  unfold rotationOf in *. rewrite HS in Hrot. rewrite Hrot. do 2 f_equal.
  unfold settledRotation, restAngle. rewrite Hkpos. destruct d.
  - destruct (_ <? _) eqn:E; [|done]. apply Z.ltb_lt in E. lia.
  - destruct (_ <? _) eqn:E; [done|]. apply Z.ltb_ge in E. lia.
Qed.

Lemma turned_spread d page :
  turned d page / 2 = page / 2 + spreadStep d.
Proof.
  destruct d; unfold turned, spreadStep.
  - replace (page + 2) with (page + 1 * 2) by lia. by rewrite Z.div_add.
  - replace (page - 2) with (page + (-1) * 2) by lia. by rewrite Z.div_add.
Qed.

(** C9, as stated, fails: a drag can be active, and be released above
    0.3, with nothing committed.  A first drag is released below the
    threshold; while its revert animation runs, a second pointer-down
    starts a new drag of the same spread; the revert animation ends and
    [_cleanupDragPage] clears [dragPage] under the active drag; the pointer
    moves on to progress 4/5 and is released.  [_completeFlip] returns at
    once: nothing is pending, the position is where it was, no callback
    was called, and the spread lies at 0 degrees. *)
Lemma interrupted_drag_commits_nothing_counterexample :
  let c := run (loaded 6)
             [MouseDown rightEdge; MouseMove (dragTo (8 # 10)); MouseUp;
              MouseDown (dragTo (7 # 10)); AnimationEnd 0;
              MouseMove (dragTo (11 # 10))] in
  let c' := run c [MouseUp] in
  isDragging (engine c) = true /\
  JsNum.gt (dragProgress (engine c)) (3 # 10) = true /\
  tasks c' = [] /\
  isFlipping (engine c') = false /\
  isDragging (engine c') = false /\
  currentPage (engine c') = currentPage (engine c) /\
  log (engine c') = [] /\
  rotationOf (engine c') 0%nat = Some (Fin 0).
Proof. vm_compute. repeat split. Qed.

(** C9 (amended): a drag gesture that nothing interrupts.  From any state
    the engine can be in, not flipping and not dragging, a pointer-down
    that starts a drag, followed at once by any moves, by the release and
    by the end of the gesture's own animation (no call, no other pointer
    event and no other animation end in between), ends as the progress
    at release decides.  Above 0.3 the
    turn is committed: the position moves by one spread in the direction
    of the drag, the dragged spread ends at the opposite rest angle, and
    the turn-ended notification is issued (after the turn-started one).
    At 0.3 or below it is reverted: the position is kept, the spread is
    back at the rest angle of its side (the one it had before the drag, in
    a settled book), and nothing is notified. *)
Theorem drag_release_threshold (c : Config) (down : Pointer) (moves : list Pointer) :
  reachable c ->
  let s0 := engine c in
  isFlipping s0 = false ->
  isDragging s0 = false ->
  let s := moveAll moves
             (_handleMouseDown (pointerX down) (pointerY down)
                (boxWidth down) (boxHeight down) s0) in
  isDragging s = true ->
  let s' := settleTask (_handleMouseUp s) in
  exists (d : Direction) (element : ref),
    dragDirection s = Some d /\ dragPage s = Some element /\
    (Settled s0 -> rotationOf s0 element = Some (Fin (restAngle d))) /\
    (forall p : Q, dragProgress s = Fin p -> (3 # 10 < p)%Q ->
       currentPage s' = turned d (currentPage s0) /\
       currentPage s' / 2 = currentPage s0 / 2 + spreadStep d /\
       rotationOf s' element = Some (Fin (oppositeAngle d)) /\
       log s' = log s0
                ++ emitted (onFlipStart (options s0))
                     (FlipStart (currentPage s0) (dirArg (Some d)))
                ++ emitted (onFlipEnd (options s0))
                     (FlipEnd (turned d (currentPage s0)) dNull) /\
       isFlipping s' = false /\ isDragging s' = false) /\
    (forall p : Q, dragProgress s = Fin p -> (p <= 3 # 10)%Q ->
       currentPage s' = currentPage s0 /\
       currentPage s' / 2 = currentPage s0 / 2 /\
       rotationOf s' element = Some (Fin (restAngle d)) /\
       log s' = log s0 /\
       isFlipping s' = false /\ isDragging s' = false).
Proof.
  intros Hreach s0 Hf Hd s Hdrag s'.
  pose proof (reachable_Inv c Hreach) as HI0. fold s0 in HI0.
  set (s1 := _handleMouseDown (pointerX down) (pointerY down)
               (boxWidth down) (boxHeight down) s0) in *.
  destruct (handleMouseDown_cases (pointerX down) (pointerY down)
              (boxWidth down) (boxHeight down) s0 Hf)
    as (Hc1 & Hl1 & Hf1 & [[Hd1 _]|(d & element & Hses1 & _)]); fold s1 in Hc1, Hl1, Hf1.
  { fold s1 in Hd1. exfalso. subst s.
    rewrite moveAll_not_dragging in Hdrag by congruence. congruence. }
  fold s1 in Hses1.
  destruct (moveAll_session d element moves s1 Hses1) as (Hses & Hc & Hl).
  fold s in Hses, Hc, Hl.
  assert (sameBook s0 s) as Hsb.
  { eapply sameBook_trans; [apply sameBook_handleMouseDown|]. apply moveAll_sameBook. }
  assert (Inv s) as HI.
  { apply (Inv_sameBook s0); [done| |done]. rewrite Hc, Hc1. apply (inv_even _ HI0). }
  destruct Hsb as (Ho & _ & Hp & _).
  exists d, element.
  split; [apply (ses_direction _ _ _ Hses)|].
  split; [apply (ses_page _ _ _ Hses)|].
  split; [|split].
  - intros HS0. apply (Session_rest_angle d element s0 s); try done. congruence.
  - intros p Hprog Hlt.
    assert (JsNum.gt (dragProgress s) (3 # 10) = true) as Hgt
      by (apply gt_spec; right; by exists p).
    destruct (release_commit d element s HI Hses Hgt)
      as (Hc' & Hr' & Hl' & Hf' & Hd' & _).
    fold s' in Hc', Hr', Hl', Hf', Hd'.
    rewrite Hc' , Hl', Hl, Hl1, Hc, Hc1, Ho. rewrite turned_spread. done.
  - intros p Hprog Hle.
    assert (JsNum.gt (dragProgress s) (3 # 10) = false) as Hgt.
    { rewrite Hprog. simpl. destruct (Qlt_le_dec (3 # 10) p) as [Hlt|_]; [|done].
      exfalso. by apply (Qlt_not_le _ _ Hlt). }
    destruct (release_revert d element s HI Hses Hgt)
      as (Hc' & Hr' & Hl' & Hf' & Hd' & _).
    fold s' in Hc', Hr', Hl', Hf', Hd'.
    rewrite Hc', Hl', Hl, Hl1, Hc, Hc1. done.
Qed.

Lemma drag_release_threshold_witness :
  let s0 := engine (loaded 6) in
  let s := moveAll [dragTo (7 # 10)]
             (_handleMouseDown (pointerX rightEdge) (pointerY rightEdge)
                (boxWidth rightEdge) (boxHeight rightEdge) s0) in
  let s' := settleTask (_handleMouseUp s) in
  exists (d : Direction) (element : ref),
    dragDirection s = Some d /\ dragPage s = Some element /\
    (Settled s0 -> rotationOf s0 element = Some (Fin (restAngle d))) /\
    (forall p : Q, dragProgress s = Fin p -> (3 # 10 < p)%Q ->
       currentPage s' = turned d (currentPage s0) /\
       currentPage s' / 2 = currentPage s0 / 2 + spreadStep d /\
       rotationOf s' element = Some (Fin (oppositeAngle d)) /\
       log s' = log s0
                ++ emitted (onFlipStart (options s0))
                     (FlipStart (currentPage s0) (dirArg (Some d)))
                ++ emitted (onFlipEnd (options s0))
                     (FlipEnd (turned d (currentPage s0)) dNull) /\
       isFlipping s' = false /\ isDragging s' = false) /\
    (forall p : Q, dragProgress s = Fin p -> (p <= 3 # 10)%Q ->
       currentPage s' = currentPage s0 /\
       currentPage s' / 2 = currentPage s0 / 2 /\
       rotationOf s' element = Some (Fin (restAngle d)) /\
       log s' = log s0 /\
       isFlipping s' = false /\ isDragging s' = false).
Proof.
  assert (reachable (loaded 6)) as Hr by (eexists _, _; reflexivity).
  assert (isFlipping (engine (loaded 6)) = false) as Hf by (vm_compute; reflexivity).
  assert (isDragging (engine (loaded 6)) = false) as Hd by (vm_compute; reflexivity).
  assert (isDragging
            (moveAll [dragTo (7 # 10)]
               (_handleMouseDown (pointerX rightEdge) (pointerY rightEdge)
                  (boxWidth rightEdge) (boxHeight rightEdge) (engine (loaded 6))))
          = true) as Hdrag by (vm_compute; reflexivity).
  exact (drag_release_threshold (loaded 6) rightEdge [dragTo (7 # 10)] Hr Hf Hd Hdrag).
Defined.

(* ================================================================== *)
(** ** The engine between operations *)

Lemma Settled_after_settle s s' :
  NoDup (pages s) ->
  options s' = options s -> currentPage s' = currentPage s ->
  pages s' = pages s -> elements s' = elements (_updatePageVisibility s) ->
  Settled s'.
Proof.
  intros Hnd Ho Hc Hp He.
  apply (Settled_ext (_updatePageVisibility s)); try done.
  by apply updatePageVisibility_Settled.
Qed.

Lemma sameBook_nextPage s : sameBook s (snd (nextPage s)).
Proof. frame. Qed.

Lemma sameBook_prevPage s : sameBook s (snd (prevPage s)).
Proof. frame. Qed.

Lemma Idle_new o : Idle (new_PageFlip o).
Proof. split; try done. apply Inv_new. Qed.

Lemma Idle_loadPages cs s : Idle s -> Idle (loadPages cs s).
Proof.
  intros [HI Hn Hf Hd HS].
  destruct (loadPages_keeps cs s) as (Hc & Hf' & Hd' & _).
  split.
  - apply Inv_loadPages, (inv_even _ HI).
  - by rewrite Hc.
  - by rewrite Hf'.
  - by rewrite Hd'.
  - unfold loadPages. apply updatePageVisibility_Settled.
    rewrite loadPages_loop_eq. simpl. apply NoDup_seq.
Qed.

(** Settling relative to a current spread beyond the last spread gives
    the same result whatever that current spread is. *)
Lemma forEach_settle_beyond dur cur cur' len i rs els :
  Z.of_nat (i + length rs) <= cur -> Z.of_nat (i + length rs) <= cur' ->
  forEach_settle dur cur len i rs els = forEach_settle dur cur' len i rs els.
Proof.
  revert i els. induction rs as [|r rs IH]; intros i els H1 H2; [done|].
  simpl in *. rewrite IH by lia. f_equal. apply list_alter_ext; [|done].
  intros e _. unfold settleSpread.
  destruct (Z.of_nat i =? cur) eqn:E1; [apply Z.eqb_eq in E1; lia|].
  destruct (Z.of_nat i =? cur') eqn:E2; [apply Z.eqb_eq in E2; lia|].
  destruct (Z.of_nat i <? cur) eqn:E3; [|apply Z.ltb_ge in E3; lia].
  destruct (Z.of_nat i <? cur') eqn:E4; [|apply Z.ltb_ge in E4; lia].
  done.
Qed.

Lemma Settled_beyond s s' :
  options s' = options s -> pages s' = pages s -> elements s' = elements s ->
  Z.of_nat (length (pages s)) <= currentPage s / 2 ->
  Z.of_nat (length (pages s)) <= currentPage s' / 2 ->
  Settled s -> Settled s'.
Proof.
  intros Ho Hp He H1 H2 HS. unfold Settled, _updatePageVisibility in *.
  simpl in *. rewrite Ho, Hp, He.
  by rewrite (forEach_settle_beyond _ _ (currentPage s / 2)).
Qed.

Ltac settled_by_settle HI :=
  lazymatch goal with
  | |- Settled ?t =>
      lazymatch t with
      | context [_updatePageVisibility ?X] =>
          apply (Settled_after_settle X);
          [rewrite ?notifyStart_eq; simpl; apply (inv_nodup _ HI)
          |rewrite ?notifyEnd_eq; done
          |rewrite ?notifyEnd_eq; done
          |rewrite ?notifyEnd_eq; done
          |rewrite ?notifyEnd_eq; done]
      end
  end.

Lemma Idle_nextPage s : Idle s -> Idle (snd (nextPage s)).
Proof.
  intros [HI Hn Hf Hd HS].
  split.
  - apply (Inv_sameBook s); [apply sameBook_nextPage| |done].
    pose proof (inv_even _ HI). parity.
  - unfold_engine; repeat case_match; simplify_eq; norm; lia.
  - unfold_engine; repeat case_match; simplify_eq; norm; done.
  - unfold_engine; repeat case_match; simplify_eq; norm; done.
  - unfold nextPage, nextPage_call, nextPage_resume.
    repeat case_match; simplify_eq; cbn [snd].
    + done.
    + settled_by_settle HI.
    + apply (Settled_ext s); rewrite ?notifyEnd_eq, ?notifyStart_eq; done.
Qed.

Lemma Idle_prevPage s : Idle s -> Idle (snd (prevPage s)).
Proof.
  intros [HI Hn Hf Hd HS].
  pose proof (inv_even _ HI) as He.
  split.
  - apply (Inv_sameBook s); [apply sameBook_prevPage| |done]. parity.
  - apply Z.even_spec in He as [m Hm].
    unfold_engine; repeat case_match; simplify_eq; norm; lia.
  - unfold_engine; repeat case_match; simplify_eq; norm; done.
  - unfold_engine; repeat case_match; simplify_eq; norm; done.
  - unfold prevPage, prevPage_call, prevPage_resume.
    destruct (isFlipping s || (currentPage s <=? 0)) eqn:E; [done|].
    apply orb_false_iff in E as [_ E]. apply Z.leb_gt in E.
    rewrite notifyStart_eq. cbn [currentPage set_currentPage set_isFlipping set_log].
    destruct (pageAt _ _) as [r|] eqn:Hp; cbn [snd].
    + settled_by_settle HI.
    + unfold pageAt in Hp. simpl in Hp.
      apply Z.even_spec in He as [m Hm].
      destruct (_ <? 0) eqn:E0 in Hp;
        [apply Z.ltb_lt in E0; Z.to_euclidean_division_equations; lia|].
      apply Z.ltb_ge in E0. apply lookup_ge_None in Hp.
      apply (Settled_beyond s); rewrite ?notifyEnd_eq; try done; simpl.
      * Z.to_euclidean_division_equations. lia.
      * Z.to_euclidean_division_equations. lia.
Qed.

Lemma Idle_goToPage n s : Idle s -> Idle (snd (goToPage n s)).
Proof.
  intros [HI Hn Hf Hd HS].
  pose proof (inv_even _ HI) as He.
  split.
  - apply (Inv_sameBook s); [apply sameBook_goToPage| |done]. parity.
  - unfold goToPage. repeat case_match; simplify_eq; norm; try done.
    Z.to_euclidean_division_equations. lia.
  - unfold goToPage. repeat case_match; simplify_eq; norm; done.
  - unfold goToPage. repeat case_match; simplify_eq; norm; done.
  - unfold goToPage. repeat case_match; simplify_eq; cbn [snd]; try done.
    settled_by_settle HI.
Qed.

Lemma Idle_dragGesture down moves s : Idle s -> Idle (dragGesture down moves s).
Proof.
  intros [HI Hn Hf Hd HS]. unfold dragGesture.
  set (s1 := _handleMouseDown (pointerX down) (pointerY down)
               (boxWidth down) (boxHeight down) s).
  destruct (handleMouseDown_cases (pointerX down) (pointerY down)
              (boxWidth down) (boxHeight down) s Hf)
    as (Hc1 & Hl1 & Hf1 & Hcase); fold s1 in Hc1, Hl1, Hf1, Hcase.
  pose proof (sameBook_handleMouseDown (pointerX down) (pointerY down)
                (boxWidth down) (boxHeight down) s) as Hsb1. fold s1 in Hsb1.
  pose proof (inv_even _ HI) as He.
  assert (Inv s1) as HI1 by (apply (Inv_sameBook s); [done|by rewrite Hc1|done]).
  destruct Hcase as [[Hd1 He1]|(d & element & Hses1 & _)].
  - rewrite moveAll_not_dragging by congruence.
    unfold _handleMouseUp. rewrite Hd1, Hd. simpl.
    destruct Hsb1 as (Ho & _ & Hp & _).
    split; try done; try congruence. by apply (Settled_ext s).
  - destruct (moveAll_session d element moves s1 Hses1) as (Hses & Hc & Hl).
    pose proof (moveAll_sameBook moves s1) as Hsb.
    set (s2 := moveAll moves s1) in *.
    assert (Inv s2) as HI2
      by (apply (Inv_sameBook s1); [done|by rewrite Hc, Hc1|done]).
    pose proof (ses_room _ _ _ Hses) as Hroom.
    destruct (JsNum.gt (dragProgress s2) (3 # 10)) eqn:Hgt.
    + destruct (release_commit d element s2 HI2 Hses Hgt)
        as (Hc' & _ & _ & Hf' & Hd' & _ & Hsb' & HS').
      assert (0 <= turned d (currentPage s2) /\
              Z.even (turned d (currentPage s2)) = true) as [Hn' He'].
      { rewrite Hc, Hc1 in *. apply Z.even_spec in He as [m Hm].
        destruct d; unfold turned; rewrite ?even_plus2, ?even_minus2, Hm,
          Z.even_even; split; try done; lia. }
      split; try done.
      * apply (Inv_sameBook s2); [done|by rewrite Hc'|done].
      * by rewrite Hc'.
    + destruct (release_revert d element s2 HI2 Hses Hgt)
        as (Hc' & _ & _ & Hf' & Hd' & _ & Hsb' & HS').
      split; try done.
      * apply (Inv_sameBook s2); [done|by rewrite Hc', Hc, Hc1|done].
      * by rewrite Hc', Hc, Hc1.
Qed.

Lemma Idle_exec s op : Idle s -> Idle (exec s op).
Proof.
  intros HI. destruct op; simpl.
  - by apply Idle_loadPages.
  - by apply Idle_nextPage.
  - by apply Idle_prevPage.
  - by apply Idle_goToPage.
  - by apply Idle_dragGesture.
Qed.

Lemma Idle_execAll s ops : Idle s -> Idle (execAll s ops).
Proof.
  revert s. induction ops as [|op ops IH]; intros s HI; [done|].
  unfold execAll in *. simpl. by apply IH, Idle_exec.
Qed.

(** When every operation runs to completion before the next one starts
    ([loadPages], [nextPage], [prevPage] and [goToPage] calls, accepted or
    rejected, and whole drag gestures, committed or reverted),
    [currentPage] is a non-negative even integer after any sequence of
    them on a freshly constructed engine, so that the spread index
    [currentPage / 2] loses nothing. *)
Theorem currentPage_nonnegative_even (o : Options) (ops : list Op) :
  let s := execAll (new_PageFlip o) ops in
  0 <= currentPage s /\
  Z.even (currentPage s) = true /\
  currentPage s = 2 * (currentPage s / 2) /\
  currentPage s mod 2 = 0.
Proof.
  intros s. destruct (Idle_execAll (new_PageFlip o) ops (Idle_new o))
    as [HI Hn _ _ _]. fold s in HI, Hn.
  pose proof (inv_even _ HI) as He. split; [done|]. split; [done|].
  apply Z.even_spec in He as [m Hm]. rewrite Hm.
  rewrite (Z.mul_comm 2 m), Z.div_mul, Z.mod_mul by lia. lia.
Qed.

(** Whatever the order of calls, pointer events and animation ends, the
    position stays even. *)
Lemma currentPage_even_always c : reachable c -> Z.even (currentPage (engine c)) = true.
Proof. intros Hr. apply (inv_even _ (reachable_Inv c Hr)). Qed.

(** C10: the code at the failing input.  A book of 6 leaves stands at
    leaf 2.  A pointer-down on the left edge starts a backward drag and
    the pointer moves to the middle of the box (progress 4/5).  While the
    drag is active [goToPage (0)] is called: it is accepted, since it
    tests [isFlipping] only, and puts the book at leaf 0.  The release
    commits the drag, and at the end of its animation [_completeFlip]
    subtracts 2 from the position without testing it again, as
    [prevPage] and [_startDrag] do before they turn back: the engine is
    at rest, nothing pending, with [currentPage = -2]. *)
Theorem interleaved_goToPage_goes_negative :
  let c0 := run (loadedAt 6 2) [MouseDown leftEdge; MouseMove (dragTo (1 # 2))] in
  let c := run c0 [CallGoToPage 0; MouseUp; AnimationEnd 0] in
  currentPage (engine c0) = 2 /\
  isDragging (engine c0) = true /\
  fst (goToPage 0 (engine c0)) = true /\
  tasks c = [] /\
  isFlipping (engine c) = false /\
  isDragging (engine c) = false /\
  currentPage (engine c) = -2.
Proof. vm_compute. repeat split. Qed.

(* ================================================================== *)
(** ** Operations run to completion are runs of the event loop *)

Lemma run_app c es1 es2 : run c (es1 ++ es2) = run (run c es1) es2.
Proof. unfold run. apply foldl_app. Qed.

Lemma run_moves moves s ts :
  run (mkConfig s ts) (MouseMove <$> moves) = mkConfig (moveAll moves s) ts.
Proof.
  revert s. induction moves as [|p moves IH]; intros s; [done|].
  simpl. unfold moveAll. simpl. apply IH.
Qed.

Lemma nextPage_call_awaits s t s' :
  nextPage_call s = (Awaiting t, s') -> exists r : ref, t = NextPageK r.
Proof. unfold nextPage_call. repeat case_match; intros [= <- <-]; eauto. Qed.

Lemma prevPage_call_awaits s t s' :
  prevPage_call s = (Awaiting t, s') -> exists r : ref, t = PrevPageK r.
Proof. unfold prevPage_call. repeat case_match; intros [= <- <-]; eauto. Qed.

Lemma exec_as_events s op :
  exists es : list Event, run (mkConfig s []) es = mkConfig (exec s op) [].
Proof.
  destruct op as [cs| | |n|down moves]; simpl.
  - by exists [CallLoadPages cs].
  - exists [CallNextPage; AnimationEnd 0]. unfold nextPage. simpl.
    destruct (nextPage_call s) as [[b|t] s'] eqn:E; [done|].
    destruct (nextPage_call_awaits s t s' E) as [r ->]. done.
  - exists [CallPrevPage; AnimationEnd 0]. unfold prevPage. simpl.
    destruct (prevPage_call s) as [[b|t] s'] eqn:E; [done|].
    destruct (prevPage_call_awaits s t s' E) as [r ->]. done.
  - by exists [CallGoToPage n].
  - exists (MouseDown down :: (MouseMove <$> moves) ++ [MouseUp; AnimationEnd 0]).
    unfold dragGesture.
    set (s1 := _handleMouseDown _ _ _ _ s).
    change (run (mkConfig s []) (MouseDown down :: (MouseMove <$> moves) ++ [MouseUp; AnimationEnd 0]))
      with (run (mkConfig s1 []) ((MouseMove <$> moves) ++ [MouseUp; AnimationEnd 0])).
    rewrite run_app, run_moves. simpl.
    destruct (_handleMouseUp (moveAll moves s1)) as [[t|] s2]; done.
Qed.

Lemma execAll_reachable o ops :
  reachable (mkConfig (execAll (new_PageFlip o) ops) []).
Proof.
  induction ops as [|op ops IH] using rev_ind.
  - by exists o, [].
  - destruct IH as (o' & es & Heq).
    destruct (exec_as_events (execAll (new_PageFlip o) ops) op) as [es' Hes'].
    exists o', (es ++ es'). rewrite run_app, <- Heq, Hes'.
    unfold execAll. by rewrite foldl_app.
Qed.

(* ================================================================== *)
(** ** Pointer geometry of a drag *)

Lemma updateDrag_progress x y w h s :
  dragProgress (_updateDrag x y w h s) = progressAt (dragDirection s) (dragStartX s) x w.
Proof.
  unfold _updateDrag, _applyCurlEffect, progressAt. simpl.
  destruct (dragDirection s) as [[|]|]; simpl; by destruct (dragPage s).
Qed.

Lemma clamp_unit v :
  (exists q : Q, JsNum.max 0 (JsNum.min 1 v) = Fin q /\ (0 <= q <= 1)%Q) \/
  (JsNum.max 0 (JsNum.min 1 v) = NaN /\ v = NaN).
Proof.
  destruct v as [r| | |]; simpl.
  - left. destruct (Qlt_le_dec r 1) as [H1|H1];
      [destruct (Qlt_le_dec 0 r) as [H0|H0]|destruct (Qlt_le_dec 0 1) as [H0|H0]];
      eexists; (split; [done|lra]).
  - left. exists 1%Q. split; [done|lra].
  - left. exists 0%Q. split; [done|]. lra.
  - by right.
Qed.

Lemma div_NaN a b : JsNum.div a b = NaN -> (a == 0)%Q /\ (b == 0)%Q.
Proof.
  unfold JsNum.div. destruct (Qeq_bool b 0) eqn:E; [|done].
  apply Qeq_bool_eq in E.
  destruct (Qlt_le_dec 0 a); [done|]. destruct (Qlt_le_dec a 0); [done|].
  intros _. split; [lra|done].
Qed.

Lemma half_zero w : (w / 2 == 0)%Q -> (w == 0)%Q.
Proof.
  intros H. assert (w == w / 2 * 2)%Q as Hw by field. rewrite Hw, H. ring.
Qed.

(** X1.  The drag progress is always a number between 0 and 1, except when the
    book's box has no width and the pointer has not moved sideways, where
    it is [NaN]. *)
Theorem dragProgress_clamped (x y w h : Q) (s : PageFlip) :
  (exists q : Q, dragProgress (_updateDrag x y w h s) = Fin q /\ (0 <= q <= 1)%Q) \/
  (dragProgress (_updateDrag x y w h s) = NaN /\ (w == 0)%Q /\ (x == dragStartX s)%Q).
Proof.
  rewrite updateDrag_progress. unfold progressAt.
  destruct (dragDirection s) as [[|]|].
  - destruct (clamp_unit (JsNum.div (- (x - dragStartX s)) (w / 2))) as [H|[H1 H2]];
      [by left|]. right. split; [done|]. apply div_NaN in H2 as [Ha Hb].
    split; [by apply half_zero|lra].
  - destruct (clamp_unit (JsNum.div (x - dragStartX s) (w / 2))) as [H|[H1 H2]];
      [by left|]. right. split; [done|]. apply div_NaN in H2 as [Ha Hb].
    split; [by apply half_zero|lra].
  - destruct (clamp_unit (JsNum.div (x - dragStartX s) (w / 2))) as [H|[H1 H2]];
      [by left|]. right. split; [done|]. apply div_NaN in H2 as [Ha Hb].
    split; [by apply half_zero|lra].
Qed.

Lemma div_finite a b : ~ (b == 0)%Q -> JsNum.div a b = Fin (a / b).
Proof.
  intros Hb. unfold JsNum.div. destruct (Qeq_bool b 0) eqn:E; [|done].
  by apply Qeq_bool_eq in E.
Qed.

Lemma clamp_finite r :
  exists q : Q,
    JsNum.max 0 (JsNum.min 1 (Fin r)) = Fin q /\
    ((r <= 0 /\ q == 0) \/ (0 <= r <= 1 /\ q == r) \/ (1 <= r /\ q == 1))%Q.
Proof.
  simpl. destruct (Qlt_le_dec r 1) as [H1|H1].
  - destruct (Qlt_le_dec 0 r) as [H0|H0]; eexists; (split; [done|]).
    + right. left. split; [lra|reflexivity].
    + left. split; [lra|reflexivity].
  - destruct (Qlt_le_dec 0 1) as [H0|H0]; eexists; (split; [done|]).
    + right. right. split; [lra|reflexivity].
    + lra.
Qed.

Lemma quotient_le a b c : (0 < c)%Q -> (a <= b)%Q -> (a / c <= b / c)%Q.
Proof.
  intros Hc Hab. unfold Qdiv. apply Qmult_le_compat_r; [done|].
  apply Qlt_le_weak. by apply Qinv_lt_0_compat.
Qed.

(** X2.  On a box of positive width, moving the pointer further towards the
    spine (to the left in a forward drag, to the right in a backward one)
    never lowers the progress; the progress is 0 where the drag started and
    on the far side of it, and 1 from half the width on. *)
Theorem dragProgress_monotone (s : PageFlip) (d : Direction) (x1 y1 x2 y2 w h : Q) :
  dragDirection s = Some d ->
  (0 < w)%Q ->
  match d with next => (x2 <= x1)%Q | prev => (x1 <= x2)%Q end ->
  exists p1 p2 : Q,
    dragProgress (_updateDrag x1 y1 w h s) = Fin p1 /\
    dragProgress (_updateDrag x2 y2 w h s) = Fin p2 /\
    (p1 <= p2)%Q /\
    (match d with
     | next => (dragStartX s <= x2)%Q
     | prev => (x2 <= dragStartX s)%Q
     end -> (p2 == 0)%Q) /\
    (match d with
     | next => (x2 <= dragStartX s - w / 2)%Q
     | prev => (dragStartX s + w / 2 <= x2)%Q
     end -> (p2 == 1)%Q).
Proof.
  intros Hd Hw Hx. rewrite !updateDrag_progress, Hd. unfold progressAt.
  assert (w / 2 == w * (1 # 2))%Q as Hhalf by field.
  assert (0 < w / 2)%Q as Hhw by lra.
  assert (~ (w / 2 == 0)%Q) as Hne by lra.
  destruct d; rewrite !div_finite by done.
  - destruct (clamp_finite (- (x1 - dragStartX s) / (w / 2))) as (p1 & -> & Hp1).
    destruct (clamp_finite (- (x2 - dragStartX s) / (w / 2))) as (p2 & -> & Hp2).
    exists p1, p2. do 2 (split; [done|]).
    assert (- (x1 - dragStartX s) / (w / 2) <= - (x2 - dragStartX s) / (w / 2))%Q
      as Hle by (apply quotient_le; lra).
    split; [lra|]. split; intros Hpos.
    + assert (- (x2 - dragStartX s) / (w / 2) <= 0 / (w / 2))%Q as H0
        by (apply quotient_le; lra).
      assert (0 / (w / 2) == 0)%Q as Hz by (field; lra). lra.
    + assert ((w / 2) / (w / 2) <= - (x2 - dragStartX s) / (w / 2))%Q as H1
        by (apply quotient_le; lra).
      assert ((w / 2) / (w / 2) == 1)%Q as Hz by (field; lra). lra.
  - destruct (clamp_finite ((x1 - dragStartX s) / (w / 2))) as (p1 & -> & Hp1).
    destruct (clamp_finite ((x2 - dragStartX s) / (w / 2))) as (p2 & -> & Hp2).
    exists p1, p2. do 2 (split; [done|]).
    assert ((x1 - dragStartX s) / (w / 2) <= (x2 - dragStartX s) / (w / 2))%Q
      as Hle by (apply quotient_le; lra).
    split; [lra|]. split; intros Hpos.
    + assert ((x2 - dragStartX s) / (w / 2) <= 0 / (w / 2))%Q as H0
        by (apply quotient_le; lra).
      assert (0 / (w / 2) == 0)%Q as Hz by (field; lra). lra.
    + assert ((w / 2) / (w / 2) <= (x2 - dragStartX s) / (w / 2))%Q as H1
        by (apply quotient_le; lra).
      assert ((w / 2) / (w / 2) == 1)%Q as Hz by (field; lra). lra.
Qed.

Lemma dragProgress_monotone_witness :
  let s := _handleMouseDown (9 # 10) (1 # 2) 1 1 (book 6) in
  exists p1 p2 : Q,
    dragProgress (_updateDrag (8 # 10) (1 # 2) 1 1 s) = Fin p1 /\
    dragProgress (_updateDrag (6 # 10) (1 # 2) 1 1 s) = Fin p2 /\
    (p1 <= p2)%Q /\
    ((dragStartX s <= 6 # 10)%Q -> (p2 == 0)%Q) /\
    ((6 # 10 <= dragStartX s - 1 / 2)%Q -> (p2 == 1)%Q).
Proof.
  apply (dragProgress_monotone
           (_handleMouseDown (9 # 10) (1 # 2) 1 1 (book 6)) next
           (8 # 10) (1 # 2) (6 # 10) (1 # 2) 1 1).
  - vm_compute. reflexivity.
  - reflexivity.
  - vm_compute. discriminate.
Defined.

(** On a box of positive width the progress is a number of the unit
    interval. *)
Lemma progress_in_unit x y w h s :
  (0 < w)%Q ->
  exists p : Q, dragProgress (_updateDrag x y w h s) = Fin p /\ (0 <= p <= 1)%Q.
Proof.
  intros Hw. rewrite updateDrag_progress. unfold progressAt.
  assert (~ (w / 2 == 0)%Q) as Hh by (intros E; apply half_zero in E; lra).
  destruct (dragDirection s) as [[|]|]; rewrite div_finite by done;
    match goal with
    | |- context [Fin ?r] => destruct (clamp_finite r) as (q & -> & Hq)
    end; exists q; (split; [done|lra]).
Qed.

Lemma updateDrag_elements d element x y w h s :
  dragDirection s = Some d -> dragPage s = Some element ->
  elements (_updateDrag x y w h s) =
  alter (set_rotateY
           match d with
           | next => JsNum.neg (JsNum.scale (dragProgress (_updateDrag x y w h s)) 180)
           | prev => JsNum.shift (-180)
                       (JsNum.scale (dragProgress (_updateDrag x y w h s)) 180)
           end) element (elements s) /\
  currentPage (_updateDrag x y w h s) = currentPage s.
Proof.
  intros Hd Hp. rewrite updateDrag_progress, Hd.
  unfold _updateDrag, _applyCurlEffect, progressAt. simpl. rewrite Hd.
  destruct d; simpl; rewrite Hp; simpl; rewrite Hd; done.
Qed.

(** X3.  A pointer move during a drag session on a box of positive width turns
    the dragged spread, and only it, to the angle that goes linearly from
    its rest angle at progress 0 to the opposite rest angle at progress 1;
    the angle stays between -180 and 0 degrees. *)
Theorem drag_move_rotation (c : Config) (d : Direction) (element : ref)
    (x y w h : Q) :
  reachable c ->
  Session d element (engine c) ->
  (0 < w)%Q ->
  let s := engine c in
  let s' := _handleMouseMove x y w h s in
  exists p a : Q,
    dragProgress s' = Fin p /\
    rotationOf s' element = Some (Fin a) /\
    (a == restAngle d + (oppositeAngle d - restAngle d) * p)%Q /\
    (-180 <= a <= 0)%Q /\
    (forall r : ref, r <> element -> elements s' !! r = elements s !! r) /\
    currentPage s' = currentPage s.
Proof.
  intros Hreach HS Hw s s'.
  pose proof (reachable_Inv c Hreach) as HI. fold s in HI, HS.
  destruct (Session_position d element s HS) as (k & Hk & _).
  assert (element < length (elements s))%nat as Hlive
    by (apply (proj1 (Forall_lookup _ _) (inv_refs _ HI) k element Hk)).
  apply lookup_lt_is_Some in Hlive as [e He].
  destruct (progress_in_unit x y w h s Hw) as (p & Hp & Hp01).
  destruct HS as [Hdrag Hflip Hdir Hpage Htarget Hroom].
  subst s'. unfold _handleMouseMove. rewrite Hdrag. cbn [negb].
  destruct (updateDrag_elements d element x y w h s Hdir Hpage) as [Hel Hc].
  exists p. rewrite Hp in Hel. unfold rotationOf. rewrite Hel, Hc.
  rewrite list_lookup_alter, decide_True, He by done.
  destruct d; cbn [JsNum.scale JsNum.neg JsNum.shift fmap option_fmap option_map
                   mbind option_bind rotateY set_rotateY];
    eexists; (split; [done|]); (split; [done|]);
    unfold restAngle, oppositeAngle;
    (split; [ring|]); (split; [lra|]);
    (split; [|done]); intros r Hr; by rewrite list_lookup_alter_ne.
Qed.

Lemma grabbed_reachable : reachable grabbed.
Proof. eexists _, _. reflexivity. Qed.

Lemma grabbed_Session : Session next 0%nat (engine grabbed).
Proof. split; vm_compute; reflexivity. Qed.

Lemma drag_move_rotation_witness :
  let s := engine grabbed in
  let s' := _handleMouseMove (7 # 10) (1 # 2) 1 1 s in
  exists p a : Q,
    dragProgress s' = Fin p /\
    rotationOf s' 0%nat = Some (Fin a) /\
    (a == restAngle next + (oppositeAngle next - restAngle next) * p)%Q /\
    (-180 <= a <= 0)%Q /\
    (forall r : ref, r <> 0%nat -> elements s' !! r = elements s !! r) /\
    currentPage s' = currentPage s.
Proof.
  exact (drag_move_rotation grabbed next 0%nat (7 # 10) (1 # 2) 1 1
           grabbed_reachable grabbed_Session eq_refl).
Defined.

(** X4.  A pointer-down starts nothing and leaves the engine exactly as it was
    when it lands in the middle fifth of the box, when it lands in the left
    part while the book is at its first leaf, or when it lands in the right
    part while no spread is left to turn. *)
Theorem pointer_down_ignored (s : PageFlip) (x y w h : Q) :
  (0 <= w)%Q ->
  ((w * (4 # 10) <= x <= w * (6 # 10))%Q \/
   ((x < w * (4 # 10))%Q /\ currentPage s <= 0) \/
   ((w * (6 # 10) < x)%Q /\ totalPages s - 2 <= currentPage s)) ->
  _handleMouseDown x y w h s = s.
Proof.
  intros Hw Hzone. unfold _handleMouseDown, _startDrag.
  destruct (isFlipping s); [done|].
  assert ((Qltb (w * (6 # 10)) x && (currentPage s <? totalPages s - 2)) = false) as ->.
  { apply andb_false_iff.
    destruct (Qltb (w * (6 # 10)) x) eqn:E; [|by left]. apply Qltb_true in E.
    right. apply Z.ltb_ge. destruct Hzone as [?|[[? ?]|[? ?]]]; [lra|lra|done]. }
  assert ((Qltb x (w * (4 # 10)) && (0 <? currentPage s)) = false) as ->; [|done].
  apply andb_false_iff.
  destruct (Qltb x (w * (4 # 10))) eqn:E; [|by left]. apply Qltb_true in E.
  right. apply Z.ltb_ge. destruct Hzone as [?|[[? ?]|[? ?]]]; [lra|done|lra].
Qed.

Lemma pointer_down_ignored_witness :
  _handleMouseDown (1 # 10) (1 # 2) 1 1 (book 6) = book 6.
Proof.
  apply pointer_down_ignored.
  - vm_compute. discriminate.
  - right. left. split; [reflexivity|]. vm_compute. discriminate.
Defined.

(* ================================================================== *)
(** ** Walking through a book *)

(** What [nextPage] does to an engine at rest. *)
Lemma nextPage_outcome s :
  Idle s ->
  fst (nextPage s) = (currentPage s <? totalPages s - 2) /\
  currentPage (snd (nextPage s)) =
    (if currentPage s <? totalPages s - 2 then currentPage s + 2 else currentPage s) /\
  log (snd (nextPage s)) =
    log s ++ (if currentPage s <? totalPages s - 2
              then emitted (onFlipStart (options s)) (FlipStart (currentPage s) dNext)
                   ++ emitted (onFlipEnd (options s))
                        (FlipEnd (currentPage s + 2) dNext)
              else []).
Proof.
  intros [HI Hn Hf Hd HS]. unfold nextPage, nextPage_call. rewrite Hf. cbn [orb].
  destruct (currentPage s <? totalPages s - 2) eqn:E.
  - apply Z.ltb_lt in E.
    assert ((totalPages s - 2 <=? currentPage s) = false) as -> by (apply Z.leb_gt; lia).
    rewrite notifyStart_eq. cbn [currentPage set_isFlipping set_log].
    destruct (pageAt_current s HI Hn E) as [r Hr].
    rewrite (pageAt_pages s) by done. rewrite Hr.
    unfold nextPage_resume. rewrite notifyEnd_eq. simpl.
    by rewrite <- app_assoc.
  - apply Z.ltb_ge in E.
    assert ((totalPages s - 2 <=? currentPage s) = true) as -> by (apply Z.leb_le; lia).
    by rewrite app_nil_r.
Qed.

Lemma prevPage_outcome s :
  Idle s ->
  fst (prevPage s) = (0 <? currentPage s) /\
  currentPage (snd (prevPage s)) =
    (if 0 <? currentPage s then currentPage s - 2 else currentPage s) /\
  log (snd (prevPage s)) =
    log s ++ (if 0 <? currentPage s
              then emitted (onFlipStart (options s))
                     (FlipStart (currentPage s - 2) dPrev)
                   ++ emitted (onFlipEnd (options s))
                        (FlipEnd (currentPage s - 2) dPrev)
              else []).
Proof.
  intros [HI Hn Hf Hd HS].
  destruct (0 <? currentPage s) eqn:E.
  - apply Z.ltb_lt in E.
    destruct (prevPage s) as [b s'] eqn:Hp.
    assert (b = true) as ->.
    { unfold prevPage, prevPage_call in Hp. rewrite Hf in Hp.
      assert ((currentPage s <=? 0) = false) as Hle by (apply Z.leb_gt; lia).
      rewrite Hle in Hp. cbn [orb] in Hp.
      destruct (pageAt _ _) in Hp; [unfold prevPage_resume in Hp|];
        apply (f_equal fst) in Hp; cbn [fst] in Hp; congruence. }
    destruct (prevPage_notifications s s' Hp) as [Hc Hl]. cbn [fst snd]. by rewrite Hl.
  - apply Z.ltb_ge in E. unfold prevPage, prevPage_call. rewrite Hf.
    assert ((currentPage s <=? 0) = true) as -> by (apply Z.leb_le; lia).
    by rewrite app_nil_r.
Qed.

Lemma ceilHalf_room n j :
  0 <= n -> 0 <= j -> (2 * j < n - 2 <-> j < ceilHalf n - 1).
Proof. intros Hn Hj. unfold ceilHalf. Z.to_euclidean_division_equations. lia. Qed.

(** X5.  Calling [nextPage] again and again on a freshly loaded book, each call
    running to the end of its animation: after [k] calls the book stands
    at spread [min k (last spread)], and the call after those is accepted
    exactly when that is not yet the last spread. *)
Theorem nextPage_walks_the_book (o : Options) (pageContents : list Content) (k : nat) :
  let lastSpread := Z.max 0 (ceilHalf (Z.of_nat (length pageContents)) - 1) in
  let s := times k (fun s => snd (nextPage s))
             (loadPages pageContents (new_PageFlip o)) in
  currentPage s = 2 * Z.min (Z.of_nat k) lastSpread /\
  fst (nextPage s) = (Z.of_nat k <? lastSpread).
Proof.
  intros lastSpread s.
  assert (Idle s /\ totalPages s = Z.of_nat (length pageContents) /\
          currentPage s = 2 * Z.min (Z.of_nat k) lastSpread) as (HI & Ht & Hc).
  { subst s. induction k as [|k (HI & Ht & Hc)].
    - cbn [times]. split; [apply Idle_loadPages, Idle_new|].
      split; [apply loadPages_totalPages|].
      rewrite (proj1 (loadPages_keeps _ _)). cbn [currentPage new_PageFlip].
      unfold lastSpread. lia.
    - cbn [times]. set (sk := times k _ _) in *. cbv beta.
      split; [by apply Idle_nextPage|].
      destruct (sameBook_nextPage sk) as (_ & Ht' & _). split; [congruence|].
      destruct (nextPage_outcome sk HI) as (_ & -> & _). rewrite Ht, Hc.
      pose proof (ceilHalf_room (Z.of_nat (length pageContents))
                    (Z.min (Z.of_nat k) lastSpread)) as Hroom.
      destruct (_ <? _) eqn:E; [apply Z.ltb_lt in E|apply Z.ltb_ge in E];
        unfold lastSpread in *; lia. }
  split; [done|].
  destruct (nextPage_outcome s HI) as (-> & _). rewrite Ht, Hc.
  pose proof (ceilHalf_room (Z.of_nat (length pageContents))
                (Z.min (Z.of_nat k) lastSpread)) as Hroom.
  destruct (2 * _ <? _) eqn:E; [apply Z.ltb_lt in E|apply Z.ltb_ge in E];
    symmetry; [apply Z.ltb_lt|apply Z.ltb_ge]; unfold lastSpread in *; lia.
Qed.

Lemma goToPage_outcome n s :
  isFlipping s = false ->
  let target := Z.max 0 (Z.min n (totalPages s - 1)) / 2 * 2 in
  fst (goToPage n s) = true /\
  currentPage (snd (goToPage n s)) = target /\
  log (snd (goToPage n s)) =
    log s ++ (if target =? currentPage s then []
              else emitted (onFlipEnd (options s)) (FlipEnd target dGoto)).
Proof.
  intros Hf target. unfold goToPage. rewrite Hf. fold target.
  destruct (target =? currentPage s) eqn:E.
  - apply Z.eqb_eq in E. by rewrite app_nil_r.
  - by rewrite notifyEnd_eq.
Qed.

(** What a whole drag gesture does to an engine at rest: nothing to the
    position and the log, or one committed turn. *)
Lemma dragGesture_outcome down moves s :
  Idle s ->
  let s' := dragGesture down moves s in
  (currentPage s' = currentPage s /\ log s' = log s) \/
  (exists d : Direction,
     match d with
     | next => currentPage s < totalPages s - 2
     | prev => 0 < currentPage s
     end /\
     currentPage s' = turned d (currentPage s) /\
     log s' = log s
              ++ emitted (onFlipStart (options s))
                   (FlipStart (currentPage s) (dirArg (Some d)))
              ++ emitted (onFlipEnd (options s))
                   (FlipEnd (turned d (currentPage s)) dNull)).
Proof.
  intros [HI Hn Hf Hd HS] s'. subst s'. unfold dragGesture.
  set (s1 := _handleMouseDown (pointerX down) (pointerY down)
               (boxWidth down) (boxHeight down) s).
  destruct (handleMouseDown_cases (pointerX down) (pointerY down)
              (boxWidth down) (boxHeight down) s Hf)
    as (Hc1 & Hl1 & Hf1 & Hcase); fold s1 in Hc1, Hl1, Hf1, Hcase.
  pose proof (sameBook_handleMouseDown (pointerX down) (pointerY down)
                (boxWidth down) (boxHeight down) s) as Hsb1. fold s1 in Hsb1.
  pose proof (inv_even _ HI) as He.
  assert (Inv s1) as HI1 by (apply (Inv_sameBook s); [done|by rewrite Hc1|done]).
  destruct Hcase as [[Hd1 He1]|(d & element & Hses1 & _)].
  - left. rewrite moveAll_not_dragging by congruence.
    unfold _handleMouseUp. rewrite Hd1, Hd. by cbn.
  - destruct (moveAll_session d element moves s1 Hses1) as (Hses & Hc & Hl).
    pose proof (moveAll_sameBook moves s1) as Hsb.
    set (s2 := moveAll moves s1) in *.
    assert (Inv s2) as HI2
      by (apply (Inv_sameBook s1); [done|by rewrite Hc, Hc1|done]).
    pose proof (ses_room _ _ _ Hses) as Hroom.
    destruct Hsb1 as (Ho1 & Ht1 & _). destruct Hsb as (Ho2 & Ht2 & _).
    destruct (JsNum.gt (dragProgress s2) (3 # 10)) eqn:Hgt.
    + destruct (release_commit d element s2 HI2 Hses Hgt) as (Hc' & _ & Hl' & _).
      right. exists d. rewrite Hc', Hl', Hl, Hl1, Hc, Hc1, Ho2, Ho1.
      split; [|done]. rewrite Hc, Hc1, Ht2, Ht1 in Hroom. done.
    + destruct (release_revert d element s2 HI2 Hses Hgt) as (Hc' & _ & Hl' & _).
      left. by rewrite Hc', Hl', Hl, Hl1, Hc, Hc1.
Qed.

Lemma sameBook_dragGesture down moves s : sameBook s (dragGesture down moves s).
Proof.
  unfold dragGesture.
  set (s1 := _handleMouseDown (pointerX down) (pointerY down)
               (boxWidth down) (boxHeight down) s).
  set (s2 := moveAll moves s1).
  apply (sameBook_trans _ s1); [apply sameBook_handleMouseDown|].
  apply (sameBook_trans _ s2); [apply moveAll_sameBook|].
  pose proof (sameBook_handleMouseUp s2) as H.
  destruct (_handleMouseUp s2) as [[t|] s3]; cbn [settleTask snd] in *; [|exact H].
  eapply sameBook_trans; [exact H|apply sameBook_resume].
Qed.

Lemma sameBook_exec s op : isLoad op = false -> sameBook s (exec s op).
Proof.
  destruct op; [done|intros _; simpl..].
  - apply sameBook_nextPage.
  - apply sameBook_prevPage.
  - apply sameBook_goToPage.
  - apply sameBook_dragGesture.
Qed.

(** No operation but a load takes the position out of the book. *)
Lemma exec_in_book s op :
  Idle s -> isLoad op = false ->
  currentPage s <= Z.max 0 (totalPages s - 1) ->
  currentPage (exec s op) <= Z.max 0 (totalPages (exec s op) - 1).
Proof.
  intros HI Hop Hin.
  destruct (sameBook_exec s op Hop) as (_ & -> & _).
  pose proof (idle_nonneg _ HI) as Hn.
  destruct op as [cs| | |n|down moves]; [done|simpl..].
  - destruct (nextPage_outcome s HI) as (_ & -> & _).
    destruct (_ <? _) eqn:E; [apply Z.ltb_lt in E|]; lia.
  - destruct (prevPage_outcome s HI) as (_ & -> & _).
    destruct (_ <? _) eqn:E; lia.
  - destruct (goToPage_outcome n s (idle_flipping _ HI)) as (_ & -> & _).
    Z.to_euclidean_division_equations. lia.
  - destruct (dragGesture_outcome down moves s HI) as [[-> _]|(d & Hroom & -> & _)];
      [done|]. destruct d; unfold turned; lia.
Qed.

(** Operations on a book keep the engine at rest, inside the book, and
    the book as long as it was. *)
Lemma execAll_in_book (s : PageFlip) (ops : list Op) :
  Idle s ->
  currentPage s <= Z.max 0 (totalPages s - 1) ->
  forallb (fun op => negb (isLoad op)) ops = true ->
  Idle (execAll s ops) /\
  currentPage (execAll s ops) <= Z.max 0 (totalPages (execAll s ops) - 1) /\
  totalPages (execAll s ops) = totalPages s.
Proof.
  intros HI0 Hin0 Hops. induction ops as [|op ops IH] using rev_ind.
  - unfold execAll. cbn [foldl]. done.
  - rewrite forallb_app in Hops. apply andb_true_iff in Hops as [Hops Hop].
    simpl in Hop. rewrite andb_true_r in Hop. apply negb_true_iff in Hop.
    destruct (IH Hops) as (HI & Hin & Ht).
    unfold execAll in *. rewrite foldl_app. cbn [foldl].
    set (sk := foldl exec _ ops) in *.
    split; [by apply Idle_exec|]. split; [by apply exec_in_book|].
    destruct (sameBook_exec sk op Hop) as (_ & -> & _). done.
Qed.

(** An engine at rest inside a book of at least one leaf has a current
    spread. *)
Lemma current_spread_exists (s : PageFlip) :
  Idle s -> 0 < totalPages s ->
  currentPage s <= Z.max 0 (totalPages s - 1) ->
  is_Some (pageAt s (currentPage s / 2)).
Proof.
  intros HI Ht Hin. pose proof (idle_nonneg _ HI) as Hn.
  unfold pageAt.
  destruct (currentPage s / 2 <? 0) eqn:E;
    [apply Z.ltb_lt in E; Z.to_euclidean_division_equations; lia|].
  apply lookup_lt_is_Some. pose proof (inv_count _ (idle_inv _ HI)) as Hc.
  unfold ceilHalf in Hc. zify. Z.to_euclidean_division_equations. lia.
Qed.

(** A book just loaded into a new engine. *)
Lemma loaded_in_book (o : Options) (pageContents : list Content) :
  let s := loadPages pageContents (new_PageFlip o) in
  Idle s /\ currentPage s <= Z.max 0 (totalPages s - 1) /\
  totalPages s = Z.of_nat (length pageContents).
Proof.
  intros s. split; [apply Idle_loadPages, Idle_new|]. subst s.
  rewrite loadPages_totalPages. split; [|done].
  rewrite (proj1 (loadPages_keeps _ _)). cbn [currentPage new_PageFlip]. lia.
Qed.

(** X6.  After the pages are loaded into a new engine, and whatever operations
    other than a load follow (each run to completion), the position stays
    inside the book, the total-page count is the number of leaves loaded,
    and, when there is at least one leaf, the current spread exists. *)
Theorem position_stays_in_book (o : Options) (pageContents : list Content)
    (ops : list Op) :
  forallb (fun op => negb (isLoad op)) ops = true ->
  let s := execAll (loadPages pageContents (new_PageFlip o)) ops in
  0 <= currentPage s <= Z.max 0 (totalPages s - 1) /\
  totalPages s = Z.of_nat (length pageContents) /\
  (pageContents <> [] -> is_Some (pageAt s (currentPage s / 2))).
Proof.
  intros Hops s.
  destruct (loaded_in_book o pageContents) as (HI0 & Hin0 & Ht0).
  destruct (execAll_in_book _ ops HI0 Hin0 Hops) as (HI & Hin & Ht).
  fold s in HI, Hin, Ht. rewrite Ht0 in Ht.
  split; [split; [by apply idle_nonneg | done]|]. split; [done|].
  intros Hne. apply current_spread_exists; [done| |done].
  rewrite Ht. destruct pageContents; [done | simpl; lia].
Qed.

Lemma position_stays_in_book_witness :
  let s := execAll (loadPages (leaf <$> seq 0 5) (new_PageFlip sampleOptions))
             [OpNextPage; OpDrag rightEdge [dragTo (2 # 10)]; OpGoToPage 99;
              OpPrevPage] in
  0 <= currentPage s <= Z.max 0 (totalPages s - 1) /\
  totalPages s = Z.of_nat (length (leaf <$> seq 0 5)) /\
  (leaf <$> seq 0 5 <> [] -> is_Some (pageAt s (currentPage s / 2))).
Proof.
  apply (position_stays_in_book sampleOptions (leaf <$> seq 0 5)
           [OpNextPage; OpDrag rightEdge [dragTo (2 # 10)]; OpGoToPage 99;
            OpPrevPage]).
  reflexivity.
Defined.

(** Rotation and z-index of a spread of an engine at rest. *)
Lemma Idle_spread (s : PageFlip) (k : nat) (r : ref) :
  Idle s ->
  pages s !! k = Some r ->
  rotationOf s r =
    Some (Fin (if Z.of_nat k <? currentPage s / 2 then -180 else 0)) /\
  zIndexOf s r =
    Some (settledZIndex (currentPage s / 2) (length (pages s)) k).
Proof.
  intros [HI _ _ _ HS] Hk.
  assert (r < length (elements s))%nat as Hlive
    by (apply (proj1 (Forall_lookup _ _) (inv_refs _ HI) k r Hk)).
  destruct (updatePageVisibility_rule s k r (inv_nodup _ HI) Hk Hlive) as [Hr Hz].
  unfold rotationOf, zIndexOf in *. rewrite HS in Hr, Hz. done.
Qed.

(** X7.  Between operations every spread of the book is at rest: the spreads
    before the current one are turned to -180 degrees, the current one and
    those after it lie at 0 degrees, and each has the z-index that
    [_updatePageVisibility] assigns to its place. *)
Theorem spreads_at_rest (o : Options) (ops : list Op) (k : nat) (r : ref) :
  let s := execAll (new_PageFlip o) ops in
  pages s !! k = Some r ->
  rotationOf s r =
    Some (Fin (if Z.of_nat k <? currentPage s / 2 then -180 else 0)) /\
  zIndexOf s r =
    Some (settledZIndex (currentPage s / 2) (length (pages s)) k).
Proof.
  intros s Hk. apply Idle_spread; [|done].
  apply Idle_execAll, Idle_new.
Qed.

Lemma spreads_at_rest_witness :
  let s := execAll (new_PageFlip sampleOptions)
             [OpLoadPages (leaf <$> seq 0 6); OpNextPage] in
  rotationOf s 0%nat = Some (Fin (-180)) /\
  zIndexOf s 0%nat = Some 0.
Proof.
  exact (spreads_at_rest sampleOptions
           [OpLoadPages (leaf <$> seq 0 6); OpNextPage] 0 0 eq_refl).
Defined.

(** X8.  In a book of at most 20 leaves (10 spreads) the current spread is the
    topmost one between operations: it has z-index 10 and every other
    spread has less. *)
Theorem current_spread_topmost_in_small_books (o : Options)
    (pageContents : list Content) (ops : list Op) :
  pageContents <> [] ->
  (length pageContents <= 20)%nat ->
  forallb (fun op => negb (isLoad op)) ops = true ->
  let s := execAll (loadPages pageContents (new_PageFlip o)) ops in
  exists r : ref,
    pageAt s (currentPage s / 2) = Some r /\
    zIndexOf s r = Some 10 /\
    forall (k : nat) (r' : ref),
      pages s !! k = Some r' -> r' <> r ->
      exists z : Z, zIndexOf s r' = Some z /\ z < 10.
Proof.
  intros Hne Hlen Hops s.
  destruct (loaded_in_book o pageContents) as (HI0 & Hin0 & Ht0).
  destruct (execAll_in_book _ ops HI0 Hin0 Hops) as (Hidle & Hin & Ht).
  fold s in Hidle, Hin, Ht. rewrite Ht0 in Ht.
  pose proof (idle_nonneg _ Hidle) as Hn.
  assert (0 < totalPages s) as Hpos
    by (rewrite Ht; destruct pageContents; [done | simpl; lia]).
  destruct (current_spread_exists s Hidle Hpos Hin) as [r Hr].
  assert (forall k r', pages s !! k = Some r' ->
            zIndexOf s r' =
            Some (settledZIndex (currentPage s / 2) (length (pages s)) k)) as Hz
    by (intros k r' Hk; by apply Idle_spread).
  pose proof (idle_inv _ Hidle) as HI.
  pose proof (inv_count _ HI) as Hcount. unfold ceilHalf in Hcount.
  apply pageAt_nonneg in Hr as Hr'. destruct Hr' as [Hk0 Hkr].
  exists r. split; [done|]. split.
  - rewrite (Hz _ _ Hkr). unfold settledZIndex.
    by rewrite Z2Nat.id, Z.eqb_refl by done.
  - intros k r' Hk Hne'. exists (settledZIndex (currentPage s / 2) (length (pages s)) k).
    split; [by apply Hz|].
    assert (Z.of_nat k <> currentPage s / 2) as Hkne.
    { intros Heq. apply Hne'. rewrite <- Heq, Nat2Z.id in Hkr. congruence. }
    apply lookup_lt_Some in Hk.
    unfold settledZIndex.
    destruct (Z.eqb_spec (Z.of_nat k) (currentPage s / 2)) as [|_]; [done|].
    destruct (Z.ltb_spec (Z.of_nat k) (currentPage s / 2)) as [Hlt|Hge];
      zify; Z.to_euclidean_division_equations; lia.
Qed.

Lemma current_spread_topmost_in_small_books_witness :
  let s := execAll (loadPages (leaf <$> seq 0 6) (new_PageFlip sampleOptions))
             [OpNextPage] in
  exists r : ref,
    pageAt s (currentPage s / 2) = Some r /\
    zIndexOf s r = Some 10 /\
    forall (k : nat) (r' : ref),
      pages s !! k = Some r' -> r' <> r ->
      exists z : Z, zIndexOf s r' = Some z /\ z < 10.
Proof.
  apply (current_spread_topmost_in_small_books sampleOptions (leaf <$> seq 0 6)
           [OpNextPage]).
  - discriminate.
  - vm_compute. lia.
  - reflexivity.
Defined.

(** X9.  The [End] key (go to the last leaf) brings any engine that is not
    flipping to a spread from which [nextPage] is rejected, and the [Home]
    key (go to leaf 0) to one from which [prevPage] is rejected; the
    rejected call changes nothing. *)
Theorem home_and_end_reach_the_ends (s : PageFlip) :
  isFlipping s = false ->
  fst (onLast s) = true /\
  nextPage (snd (onLast s)) = (false, snd (onLast s)) /\
  fst (onFirst s) = true /\
  prevPage (snd (onFirst s)) = (false, snd (onFirst s)) /\
  currentPage (snd (onFirst s)) = 0.
Proof.
  intros Hf. unfold onLast, onFirst, getTotalPages.
  destruct (goToPage_outcome (totalPages s - 1) s Hf) as (Hb1 & Hc1 & _).
  destruct (goToPage_outcome 0 s Hf) as (Hb0 & Hc0 & _).
  destruct (sameBook_goToPage (totalPages s - 1) s) as (_ & Ht1 & _).
  assert (forall n, isFlipping (snd (goToPage n s)) = false) as Hfl.
  { intros n. unfold goToPage. rewrite Hf. case_match; [done|].
    by rewrite notifyEnd_eq. }
  split; [done|]. split; [|split; [done|split]].
  - unfold nextPage, nextPage_call. rewrite Hfl, Ht1, Hc1. cbn [orb].
    assert ((totalPages s - 2 <=?
             Z.max 0 (Z.min (totalPages s - 1) (totalPages s - 1)) / 2 * 2) = true)
      as ->; [|done].
    apply Z.leb_le. Z.to_euclidean_division_equations. lia.
  - unfold prevPage, prevPage_call. rewrite Hfl, Hc0. cbn [orb].
    assert ((Z.max 0 (Z.min 0 (totalPages s - 1)) / 2 * 2 <=? 0) = true)
      as ->; [|done].
    apply Z.leb_le. Z.to_euclidean_division_equations. lia.
  - rewrite Hc0. Z.to_euclidean_division_equations. lia.
Qed.

Lemma home_and_end_reach_the_ends_witness :
  let s := book 5 in
  fst (onLast s) = true /\
  nextPage (snd (onLast s)) = (false, snd (onLast s)) /\
  fst (onFirst s) = true /\
  prevPage (snd (onFirst s)) = (false, snd (onFirst s)) /\
  currentPage (snd (onFirst s)) = 0.
Proof. apply (home_and_end_reach_the_ends (book 5)). reflexivity. Defined.

(* ================================================================== *)
(** ** Auto-play *)

Lemma Idle_autoPlayTick s : Idle s -> Idle (snd (autoPlayTick s)).
Proof.
  intros HI. unfold autoPlayTick. case_match; [by apply Idle_goToPage|by apply Idle_nextPage].
Qed.

(** X10.  Auto-play on a freshly loaded book of at least one leaf, each tick
    running to completion: the ticks walk through the spreads in order and
    start over at the first one after the last; after [k] ticks the book
    stands at spread [k mod (number of spreads)]. *)
Theorem autoPlay_cycles (o : Options) (pageContents : list Content) (k : nat) :
  pageContents <> [] ->
  let spreads := ceilHalf (Z.of_nat (length pageContents)) in
  let s := times k (fun s => snd (autoPlayTick s))
             (loadPages pageContents (new_PageFlip o)) in
  currentPage s = 2 * (Z.of_nat k mod spreads).
Proof.
  intros Hne spreads s.
  assert (0 < length pageContents)%nat as Hpos
    by (destruct pageContents; [done|simpl; lia]).
  assert (0 < spreads) as Hsp
    by (unfold spreads, ceilHalf; Z.to_euclidean_division_equations; lia).
  assert (Idle s /\ totalPages s = Z.of_nat (length pageContents) /\
          currentPage s = 2 * (Z.of_nat k mod spreads)) as (_ & _ & Hc); [|done].
  subst s. induction k as [|k (HI & Ht & Hc)].
  - cbn [times]. split; [apply Idle_loadPages, Idle_new|].
    split; [apply loadPages_totalPages|].
    rewrite (proj1 (loadPages_keeps _ _)). cbn [currentPage new_PageFlip].
    by rewrite Z.mod_0_l by lia.
  - cbn [times]. set (sk := times k _ _) in *. cbv beta.
    split; [by apply Idle_autoPlayTick|].
    pose proof (Z.mod_pos_bound (Z.of_nat k) spreads Hsp) as Hj.
    pose proof (ceilHalf_room (Z.of_nat (length pageContents))
                  (Z.of_nat k mod spreads)) as Hroom.
    assert (Z.of_nat (S k) mod spreads =
            if Z.of_nat k mod spreads + 1 <? spreads
            then Z.of_nat k mod spreads + 1 else 0) as Hnext.
    { rewrite Nat2Z.inj_succ. unfold Z.succ. rewrite <- Z.add_mod_idemp_l by lia.
      destruct (Z.ltb_spec (Z.of_nat k mod spreads + 1) spreads) as [Hlt|Hge].
      - apply Z.mod_small. lia.
      - replace (Z.of_nat k mod spreads + 1) with spreads by lia.
        apply Z_mod_same_full. }
    unfold autoPlayTick, getTotalPages, getCurrentPage.
    destruct (Z.leb_spec (totalPages sk - 2) (currentPage sk)) as [Hlast|Hmore].
    + destruct (sameBook_goToPage 0 sk) as (_ & Ht' & _).
      destruct (goToPage_outcome 0 sk (idle_flipping _ HI)) as (_ & Hc' & _).
      split; [congruence|]. rewrite Hc', Hnext.
      destruct (Z.ltb_spec (Z.of_nat k mod spreads + 1) spreads) as [Hlt|Hge];
        [unfold spreads in *; lia|].
      Z.to_euclidean_division_equations. lia.
    + destruct (sameBook_nextPage sk) as (_ & Ht' & _).
      destruct (nextPage_outcome sk HI) as (_ & Hc' & _).
      split; [congruence|]. rewrite Hc', Hnext.
      destruct (Z.ltb_spec (currentPage sk) (totalPages sk - 2)) as [_|?]; [|lia].
      destruct (Z.ltb_spec (Z.of_nat k mod spreads + 1) spreads) as [Hlt|Hge];
        unfold spreads in *; lia.
Qed.

Lemma autoPlay_cycles_witness :
  currentPage (times 4 (fun s => snd (autoPlayTick s))
                 (loadPages (leaf <$> seq 0 5) (new_PageFlip sampleOptions)))
  = 2 * (Z.of_nat 4 mod ceilHalf (Z.of_nat (length (leaf <$> seq 0 5)))).
Proof. apply (autoPlay_cycles sampleOptions (leaf <$> seq 0 5) 4). discriminate. Defined.

(* ================================================================== *)
(** ** What the observer knows *)

Lemma lastEnd_app l l0 page d :
  lastEnd (l ++ l0 ++ [FlipEnd page d]) = Some page.
Proof. unfold lastEnd. by rewrite !foldl_app. Qed.

Lemma lastEnd_snoc l page d : lastEnd (l ++ [FlipEnd page d]) = Some page.
Proof. unfold lastEnd. by rewrite foldl_app. Qed.

(** X11.  With [onFlipEnd] installed, an observer that remembers the index of
    the last turn-ended notification (and starts from 0) always knows the
    engine's position between operations. *)
Theorem observer_tracks_position (o : Options) (ops : list Op) :
  onFlipEnd o = true ->
  let s := execAll (new_PageFlip o) ops in
  default 0 (lastEnd (log s)) = currentPage s.
Proof.
  intros Hon s.
  assert (Idle s /\ options s = o /\ default 0 (lastEnd (log s)) = currentPage s)
    as (_ & _ & H); [|done].
  subst s. induction ops as [|op ops (HI & Ho & Htrack)] using rev_ind.
  - split; [apply Idle_new|]. done.
  - unfold execAll in *. rewrite foldl_app. cbn [foldl].
    set (s := foldl exec _ ops) in *.
    split; [by apply Idle_exec|].
    destruct op as [cs| | |n|down moves]; cbn [exec].
    + destruct (loadPages_keeps cs s) as (-> & _ & _ & _ & _ & _ & -> & ->). done.
    + destruct (sameBook_nextPage s) as (-> & _). split; [done|].
      destruct (nextPage_outcome s HI) as (_ & -> & ->). rewrite Ho, Hon. cbn [emitted].
      destruct (_ <? _); [by rewrite lastEnd_app|by rewrite app_nil_r].
    + destruct (sameBook_prevPage s) as (-> & _). split; [done|].
      destruct (prevPage_outcome s HI) as (_ & -> & ->). rewrite Ho, Hon. cbn [emitted].
      destruct (_ <? _); [by rewrite lastEnd_app|by rewrite app_nil_r].
    + destruct (sameBook_goToPage n s) as (-> & _). split; [done|].
      destruct (goToPage_outcome n s (idle_flipping _ HI)) as (_ & -> & ->).
      rewrite Ho, Hon.
      destruct (Z.eqb_spec (Z.max 0 (Z.min n (totalPages s - 1)) / 2 * 2)
                  (currentPage s)) as [Heq|_].
      * by rewrite app_nil_r, Heq.
      * cbn [emitted]. by rewrite lastEnd_snoc.
    + destruct (sameBook_dragGesture down moves s) as (-> & _). split; [done|].
      destruct (dragGesture_outcome down moves s HI)
        as [[-> ->]|(d & _ & -> & ->)]; [done|].
      rewrite Ho, Hon. cbn [emitted]. by rewrite lastEnd_app.
Qed.

Lemma observer_tracks_position_witness :
  let s := execAll (new_PageFlip sampleOptions)
             [OpLoadPages (leaf <$> seq 0 6); OpNextPage;
              OpDrag rightEdge [dragTo (2 # 10)]; OpPrevPage] in
  default 0 (lastEnd (log s)) = currentPage s.
Proof.
  apply (observer_tracks_position sampleOptions
           [OpLoadPages (leaf <$> seq 0 6); OpNextPage;
            OpDrag rightEdge [dragTo (2 # 10)]; OpPrevPage]).
  reflexivity.
Defined.

(* ================================================================== *)
(** ** After [destroy] *)

Lemma pageAt_empty s k : pages s = [] -> pageAt s k = None.
Proof. intros Hp. unfold pageAt. rewrite Hp. by case_match. Qed.

Lemma nextPage_call_without_spreads s :
  pages s = [] ->
  exists b s', nextPage_call s = (Returned b, s') /\
    pages s' = [] /\ dragPage s' = dragPage s /\ elements s' = elements s.
Proof.
  intros Hp. unfold nextPage_call. case_match; [by eexists _, _|].
  rewrite pageAt_empty by (by rewrite notifyStart_eq).
  eexists _, _. split; [done|]. by rewrite notifyEnd_eq, notifyStart_eq.
Qed.

Lemma prevPage_call_without_spreads s :
  pages s = [] ->
  exists b s', prevPage_call s = (Returned b, s') /\
    pages s' = [] /\ dragPage s' = dragPage s /\ elements s' = elements s.
Proof.
  intros Hp. unfold prevPage_call. case_match; [by eexists _, _|].
  rewrite pageAt_empty by (by rewrite notifyStart_eq).
  eexists _, _. split; [done|]. by rewrite notifyEnd_eq, notifyStart_eq.
Qed.

Lemma handleMouseUp_without_page s :
  dragPage s = None ->
  exists s', _handleMouseUp s = (None, s') /\
    pages s' = pages s /\ dragPage s' = None /\ elements s' = elements s.
Proof.
  intros Hd. unfold _handleMouseUp, _endDrag, _completeFlip_start, _cancelFlip_start.
  rewrite Hd. repeat case_match; simplify_eq; by eexists.
Qed.

(** The engine without spreads and without a dragged page: whatever
    happens next, short of a load, it stays so and writes to no element. *)
Lemma step_without_spreads c e :
  pages (engine c) = [] -> dragPage (engine c) = None ->
  isLoadEvent e = false ->
  pages (engine (step c e)) = [] /\
  dragPage (engine (step c e)) = None /\
  elements (engine (step c e)) = elements (engine c).
Proof.
  intros Hp Hd He. set (s := engine c) in *.
  assert (forall s', pages s' = [] -> elements (_updatePageVisibility s') = elements s')
    as Hupv by (intros s' Hs'; unfold _updatePageVisibility; simpl; by rewrite Hs').
  destruct e as [cs| | |n|p|p| |k]; [done|(cbn [step]; fold s)..].
  - destruct (nextPage_call_without_spreads s Hp) as (b & s' & -> & Hp' & Hd' & He').
    cbn [awaited suspend engine]. by rewrite Hd' .
  - destruct (prevPage_call_without_spreads s Hp) as (b & s' & -> & Hp' & Hd' & He').
    cbn [awaited suspend engine]. by rewrite Hd'.
  - cbn [engine]. unfold goToPage. repeat case_match; try done.
    rewrite notifyEnd_eq. cbn [snd pages dragPage elements set_log].
    rewrite Hupv by done. done.
  - cbn [engine]. unfold _handleMouseDown, _startDrag, _getFlippingPage.
    repeat case_match; simplify_eq; try done;
      cbn [dragPage set_dragPage set_dragDirection] in *;
      rewrite ?pageAt_empty in * by done; done.
  - cbn [engine]. unfold _handleMouseMove, _updateDrag, _applyCurlEffect.
    case_match; [done|]. clearbody s.
    simpl. destruct (dragDirection s) as [[|]|]; simpl; rewrite Hd; done.
  - destruct (handleMouseUp_without_page s Hd) as (s' & -> & Hp' & Hd' & He').
    cbn [suspend engine]. by rewrite Hp'.
  - destruct (tasks c !! k) as [t|]; [|done]. cbn [engine]. fold s.
    destruct t; cbn [resume].
    + unfold nextPage_resume. rewrite notifyEnd_eq.
      cbn [snd pages dragPage elements set_log set_isFlipping].
      rewrite Hupv by done. done.
    + unfold prevPage_resume. rewrite notifyEnd_eq.
      cbn [snd pages dragPage elements set_log set_isFlipping].
      rewrite Hupv by done. done.
    + unfold _completeFlip_resume.
      set (s0 := match dragDirection s with
                 | Some next => set_currentPage (currentPage s + 2) s
                 | _ => set_currentPage (currentPage s - 2) s
                 end).
      assert (dragPage s0 = None /\ pages s0 = [] /\ elements s0 = elements s)
        as (Hd0 & Hp0 & He0) by (subst s0; by destruct (dragDirection s) as [[|]|]).
      rewrite notifyEnd_eq. unfold _cleanupDragPage. rewrite Hd0.
      cbn [pages dragPage elements set_log set_isFlipping].
      rewrite Hupv by done. done.
    + unfold _cancelFlip_resume, _cleanupDragPage. rewrite Hd.
      rewrite Hupv by done. done.
Qed.

(** X12.  After [destroy], whatever calls, pointer events and animation ends
    follow (short of loading pages again), the engine has no spreads and
    never writes to a spread element again; a still pending animation may
    end without harm. *)
Theorem destroyed_engine_writes_nothing (s : PageFlip) (ts : list Task)
    (es : list Event) :
  forallb (fun e => negb (isLoadEvent e)) es = true ->
  let c := run (mkConfig (destroy s) ts) es in
  pages (engine c) = [] /\
  dragPage (engine c) = None /\
  elements (engine c) = elements s.
Proof.
  intros Hes c. subst c. induction es as [|e es IH] using rev_ind; [done|].
  rewrite forallb_app in Hes. apply andb_true_iff in Hes as [Hes He].
  simpl in He. rewrite andb_true_r in He. apply negb_true_iff in He.
  destruct (IH Hes) as (Hp & Hd & Hel).
  rewrite run_app. cbn [run foldl].
  destruct (step_without_spreads _ e Hp Hd He) as (Hp' & Hd' & Hel').
  split; [done|]. split; [done|]. congruence.
Qed.

Lemma destroyed_engine_writes_nothing_witness :
  let c := run (mkConfig (destroy (engine grabbed)) [])
             [CallNextPage; MouseMove (dragTo (1 # 2)); MouseUp; CallGoToPage 4] in
  pages (engine c) = [] /\
  dragPage (engine c) = None /\
  elements (engine c) = elements (engine grabbed).
Proof.
  apply (destroyed_engine_writes_nothing (engine grabbed) []
           [CallNextPage; MouseMove (dragTo (1 # 2)); MouseUp; CallGoToPage 4]).
  reflexivity.
Defined.

(* ================================================================== *)
(** ** The pages of a loaded book *)


Lemma createPages_each i rest dom :
  Forall (fun c => truthy c = true) rest ->
  createPages i rest dom = createEach i rest dom.
Proof.
  revert i dom. induction rest as [|a|a b rest IH] using list_pair_ind;
    intros i dom Hall; [reflexivity|reflexivity|].
  apply Forall_cons in Hall as [_ Hall]. apply Forall_cons in Hall as [Hb Hall].
  cbn [createPages createEach head orNull]. rewrite !Hb, IH by done.
  replace (i + 1 + 1) with (i + 2) by lia. reflexivity.
Qed.

Lemma createEach_snoc i l c dom :
  createEach i (l ++ [c]) dom =
  _createPage c (i + Z.of_nat (length l)) (createEach i l dom).
Proof.
  revert i dom. induction l as [|a l IH]; intros i dom.
  - cbn. by rewrite Z.add_0_r.
  - cbn [app createEach length]. rewrite IH. f_equal. lia.
Qed.

Lemma createPage_length c n dom : length (_createPage c n dom) = S (length dom).
Proof. destruct c; cbn; rewrite length_app, ?length_fmap; cbn; lia. Qed.

Lemma createEach_length cs : length (createEach 0 cs []) = length cs.
Proof.
  induction cs as [|c cs IH] using rev_ind; [done|].
  rewrite createEach_snoc, createPage_length, IH, length_app. cbn. lia.
Qed.

(** The page of leaf [k] once all pages are created. *)
Lemma createEach_lookup cs k c :
  cs !! k = Some c ->
  createEach 0 cs [] !! k =
  Some (match c with
        | CString s => if startsWithTag s then Markup s else Image s (Z.of_nat k + 1)
        | CElement handle =>
            if passed handle (drop (S k) cs) then Blank else Holds handle
        end).
Proof.
  revert k c. induction cs as [|c' cs IH] using rev_ind; intros k c Hk; [done|].
  rewrite createEach_snoc. pose proof (createEach_length cs) as Hlen.
  destruct (decide (k < length cs)%nat) as [Hlt|Hge].
  - rewrite lookup_app_l in Hk by done. specialize (IH k c Hk).
    assert (createEach 0 cs [] !! k = Some (
              match c with
              | CString s => if startsWithTag s then Markup s else Image s (Z.of_nat k + 1)
              | CElement handle =>
                  if passed handle (drop (S k) cs) then Blank else Holds handle
              end)) as Hb by exact IH.
    destruct c as [s|h], c' as [s'|h']; rewrite ?drop_app_le by lia;
      unfold passed in *; rewrite ?existsb_app; cbn [existsb];
      rewrite ?orb_false_r; unfold _createPage.
    + rewrite lookup_app_l by lia. exact Hb.
    + rewrite lookup_app_l by (rewrite length_fmap; lia).
      rewrite list_lookup_fmap, Hb. cbn. by destruct (startsWithTag s).
    + rewrite lookup_app_l by lia. exact Hb.
    + rewrite lookup_app_l by (rewrite length_fmap; lia).
      rewrite list_lookup_fmap, Hb. cbn [fmap option_fmap option_map].
      destruct (existsb _ (drop (S k) cs)); [done|]. cbn [orb detach].
      rewrite Nat.eqb_sym. by destruct (h' =? h)%nat.
  - apply lookup_lt_Some in Hk as Hk'. rewrite length_app in Hk'. cbn in Hk'.
    assert (k = length cs) as -> by lia.
    rewrite list_lookup_middle in Hk by done. injection Hk as <-.
    rewrite drop_ge by (rewrite length_app; cbn; lia).
    destruct c' as [s'|h']; unfold _createPage.
    + rewrite list_lookup_middle by done. by rewrite Z.add_0_l.
    + by rewrite list_lookup_middle by (by rewrite length_fmap).
Qed.

Lemma passed_later handle cs k :
  passed handle (drop (S k) cs) = true <->
  exists j : nat, (k < j)%nat /\ cs !! j = Some (CElement handle).
Proof.
  unfold passed. rewrite existsb_exists. split.
  - intros (c & Hin & Hc). destruct c as [|h]; [done|].
    apply Nat.eqb_eq in Hc as ->.
    apply list_elem_of_In, list_elem_of_lookup in Hin as [i Hi].
    rewrite lookup_drop in Hi. exists (S k + i)%nat. split; [lia|done].
  - intros (j & Hj & Hc). exists (CElement handle). split; [|apply Nat.eqb_refl].
    apply list_elem_of_In, list_elem_of_lookup. exists (j - S k)%nat.
    rewrite lookup_drop. by replace (S k + (j - S k))%nat with j by lia.
Qed.

(** X13.  In the engine with drag, when no leaf is falsy, [loadPages]
    builds one page for every leaf, in the order of the leaves.  The page
    of a string leaf holds that string, as markup when it starts with [<]
    and as the source of an image with the text [Page k + 1] otherwise.
    The page of an element leaf holds the element when the element is not
    passed again at a later position; when it is, the element has moved
    on to the later page and this page is left empty. *)
Theorem loadPages_page_bodies (pageContents : list Content) :
  Forall (fun c => truthy c = true) pageContents ->
  length (pageBodies pageContents) = length pageContents /\
  (forall (k : nat) (s : string),
     pageContents !! k = Some (CString s) ->
     pageBodies pageContents !! k =
       Some (if startsWithTag s then Markup s else Image s (Z.of_nat k + 1))) /\
  (forall (k : nat) (handle : nat),
     pageContents !! k = Some (CElement handle) ->
     (forall j : nat, (k < j)%nat -> pageContents !! j <> Some (CElement handle)) ->
     pageBodies pageContents !! k = Some (Holds handle)) /\
  (forall (k j : nat) (handle : nat),
     pageContents !! k = Some (CElement handle) ->
     (k < j)%nat -> pageContents !! j = Some (CElement handle) ->
     pageBodies pageContents !! k = Some Blank).
Proof.
  intros Hall. unfold pageBodies. rewrite createPages_each by done.
  split; [apply createEach_length|]. split; [|split].
  - intros k s Hk. by rewrite (createEach_lookup _ _ _ Hk).
  - intros k handle Hk Hlast. rewrite (createEach_lookup _ _ _ Hk).
    destruct (passed handle (drop (S k) pageContents)) eqn:E; [|done].
    apply passed_later in E as (j & Hj & Hc). by destruct (Hlast j Hj).
  - intros k j handle Hk Hj Hc. rewrite (createEach_lookup _ _ _ Hk).
    assert (passed handle (drop (S k) pageContents) = true) as ->; [|done].
    apply passed_later. by exists j.
Qed.

Lemma loadPages_page_bodies_witness :
  pageBodies [CElement 7; CString "<p>b</p>"; CElement 7]
  = [Blank; Markup "<p>b</p>"; Holds 7] /\
  pageBodies [CElement 7; CString "<p>b</p>"; CElement 7] !! 0%nat = Some Blank.
Proof.
  split; [reflexivity|].
  destruct (loadPages_page_bodies [CElement 7; CString "<p>b</p>"; CElement 7])
    as (_ & _ & _ & Hmoved); [repeat constructor|].
  exact (Hmoved 0%nat 2%nat 7%nat eq_refl ltac:(lia) eq_refl).
Defined.

(* ================================================================== *)
(** ** The page indicator *)

(** X19.  On a loaded book of at least one leaf, between operations, the
    page indicator shows a range of leaf numbers inside the book: it
    starts at an odd number, ends at most one later and at most at the
    total, and the total is the number of leaves loaded.  The range is a
    single leaf exactly when the book stands at the last spread of a book
    with an odd number of leaves. *)
Theorem page_indicator_in_book (o : Options) (pageContents : list Content)
    (ops : list Op) :
  pageContents <> [] ->
  forallb (fun op => negb (isLoad op)) ops = true ->
  let s := execAll (loadPages pageContents (new_PageFlip o)) ops in
  let '(first, last, total) := _updatePageIndicator s in
  1 <= first <= last /\ last <= first + 1 /\ last <= total /\
  Z.odd first = true /\
  total = Z.of_nat (length pageContents) /\
  (first = last <-> first = total).
Proof.
  intros Hne Hops s.
  destruct (loaded_in_book o pageContents) as (HI0 & Hin0 & Ht0).
  destruct (execAll_in_book _ ops HI0 Hin0 Hops) as (HI & Hin & Ht).
  fold s in HI, Hin, Ht. rewrite Ht0 in Ht.
  pose proof (idle_nonneg _ HI) as Hn.
  pose proof (inv_even _ (idle_inv _ HI)) as He.
  assert (0 < length pageContents)%nat by (destruct pageContents; [done|simpl; lia]).
  unfold _updatePageIndicator, getCurrentPage, getTotalPages.
  rewrite Z.odd_add, <- Z.negb_even, He. cbn [negb Z.odd xorb].
  lia.
Qed.

Lemma page_indicator_in_book_witness :
  let s := execAll (loadPages (leaf <$> seq 0 5) (new_PageFlip sampleOptions))
             [OpGoToPage 99] in
  let '(first, last, total) := _updatePageIndicator s in
  1 <= first <= last /\ last <= first + 1 /\ last <= total /\
  Z.odd first = true /\
  total = Z.of_nat (length (leaf <$> seq 0 5)) /\
  (first = last <-> first = total).
Proof.
  apply (page_indicator_in_book sampleOptions (leaf <$> seq 0 5) [OpGoToPage 99]);
    [discriminate | reflexivity].
Defined.

(* ================================================================== *)
(** ** Shades of a colour *)

Import Color.

Lemma hexValue_plain (a : ascii) (d : Z) :
  hexValue a = Some d ->
  isWhiteSpace a = false /\ (a =? "-")%char = false /\ (a =? "+")%char = false /\
  (a =? "x")%char = false /\ (a =? "X")%char = false /\ 0 <= d < 16.
Proof.
  destruct a as [[] [] [] [] [] [] [] []]; vm_compute; intros H;
    first [discriminate H | injection H as <-; repeat split; congruence].
Qed.

Lemma hexValue_hexDigit (d : Z) : 0 <= d < 16 -> hexValue (hexDigit d) = Some d.
Proof.
  intros H.
  assert (Hd : In d [0; 1; 2; 3; 4; 5; 6; 7; 8; 9; 10; 11; 12; 13; 14; 15])
    by (cbn; lia).
  cbn in Hd. repeat destruct Hd as [<- | Hd]; try reflexivity. destruct Hd.
Qed.

Lemma toInt32_small (z : Z) : - 2 ^ 31 <= z < 2 ^ 31 -> toInt32 (Finite z) = z.
Proof. intros H. unfold toInt32. rewrite Z.mod_small; lia. Qed.

Lemma toDouble_small (z : Z) : 0 <= z < 2 ^ 24 -> toDouble z = Finite z.
Proof.
  intros H. unfold toDouble.
  assert (Z.log2 (Z.abs z) < 53) as ->%Z.ltb_lt; [|done].
  rewrite Z.abs_eq by lia.
  destruct (Z.eq_dec z 0) as [-> | ?]; [done|].
  apply Z.log2_lt_pow2; lia.
Qed.

Lemma band_low (x : Z) : 0 <= x < 2 ^ 31 -> band x 255 = x mod 2 ^ 8.
Proof.
  intros H. unfold band. rewrite !toInt32_small by lia.
  change 255 with (Z.ones 8). apply Z.land_ones. lia.
Qed.

Lemma clampChannel_range (v : Z) : 0 <= clampChannel v <= 255.
Proof. unfold clampChannel. lia. Qed.

Lemma clampChannel_twice (v a b : Z) :
  0 <= v <= 255 -> (0 <= a /\ 0 <= b) \/ (a <= 0 /\ b <= 0) ->
  clampChannel (clampChannel (v + a) + b) = clampChannel (v + (a + b)).
Proof. unfold clampChannel. lia. Qed.

Lemma hexDigits_push (fuel : nat) (m d : Z) (acc : string) :
  0 <= d < 16 -> 1 <= m ->
  hexDigits (S fuel) (16 * m + d) acc = hexDigits fuel m (String (hexDigit d) acc).
Proof.
  intros Hd Hm. cbn [hexDigits].
  replace ((16 * m + d) mod 16) with d by (Z.to_euclidean_division_equations; lia).
  replace ((16 * m + d) / 16) with m by (Z.to_euclidean_division_equations; lia).
  destruct (Z.ltb_spec (16 * m + d) 16); [lia | done].
Qed.

(** The text of [(1 << 24) + (r << 16) + (g << 8) + b] without its leading
    digit. *)
Lemma toString16_channels (r g b : Z) :
  0 <= r <= 255 -> 0 <= g <= 255 -> 0 <= b <= 255 ->
  String "#"%char (slice1 (toString16 (shl 1 24 + shl r 16 + shl g 8 + b))) = rgb r g b.
Proof.
  intros Hr Hg Hb.
  assert (Hs : forall v k, 0 <= v <= 255 -> 0 <= k <= 16 -> shl v k = v * 2 ^ k).
  { intros v k Hv Hk. unfold shl.
    assert (0 < 2 ^ k <= 2 ^ 16) by (split; [lia | apply Z.pow_le_mono_r; lia]).
    rewrite (toInt32_small v) by lia. rewrite Z.shiftl_mul_pow2 by lia.
    apply toInt32_small. nia. }
  change (shl 1 24) with (2 ^ 24). rewrite !Hs by lia.
  set (n := 2 ^ 24 + r * 2 ^ 16 + g * 2 ^ 8 + b).
  assert (Hn : 2 ^ 24 <= n < 2 ^ 25) by (unfold n; lia).
  unfold toString16. destruct (Z.ltb_spec n 0); [lia|].
  rewrite (Z.log2_unique n 24) by lia.
  change (S (Z.to_nat 24)) with 25%nat.
  pose proof (Z.div_mod r 16 ltac:(lia)) as Er.
  pose proof (Z.div_mod g 16 ltac:(lia)) as Eg.
  pose proof (Z.div_mod b 16 ltac:(lia)) as Eb.
  pose proof (Z.mod_pos_bound r 16 ltac:(lia)).
  pose proof (Z.mod_pos_bound g 16 ltac:(lia)).
  pose proof (Z.mod_pos_bound b 16 ltac:(lia)).
  assert (0 <= r / 16 < 16) by (split; [apply Z.div_pos; lia | apply Z.div_lt_upper_bound; lia]).
  assert (0 <= g / 16 < 16) by (split; [apply Z.div_pos; lia | apply Z.div_lt_upper_bound; lia]).
  assert (0 <= b / 16 < 16) by (split; [apply Z.div_pos; lia | apply Z.div_lt_upper_bound; lia]).
  replace n with
    (16 * (16 * (16 * (16 * (16 * (16 * 1 + r / 16) + r mod 16) + g / 16)
                 + g mod 16) + b / 16) + b mod 16) by (unfold n; lia).
  rewrite !hexDigits_push by lia.
  reflexivity.
Qed.

(** What [_adjustColor] makes of a text whose digits [parseInt] reads as a
    value below 2^24. *)
Lemma adjustColor_value (hex : string) (v amount : Z) :
  String.length hex <> 3%nat -> parseInt16 hex = Finite v -> 0 <= v < 2 ^ 24 ->
  _adjustColor (String "#"%char hex) amount =
  rgb (clampChannel (v / 2 ^ 16 + amount))
      (clampChannel ((v / 2 ^ 8) mod 2 ^ 8 + amount))
      (clampChannel (v mod 2 ^ 8 + amount)).
Proof.
  intros Hl Hp Hv. unfold _adjustColor.
  apply Nat.eqb_neq in Hl. rewrite Hl, Hp.
  rewrite toString16_channels by apply clampChannel_range.
  assert (Hi : toInt32 (Finite v) = v) by (apply toInt32_small; lia).
  assert (0 <= v / 2 ^ 8 < 2 ^ 16)
    by (split; [apply Z.div_pos; lia | apply Z.div_lt_upper_bound; lia]).
  unfold shr. rewrite Hi, !Z.shiftr_div_pow2, !band_low by lia.
  reflexivity.
Qed.

(** [parseInt] on six radix-16 digits. *)
Lemma parseInt16_six (c1 c2 c3 c4 c5 c6 : ascii) (d1 d2 d3 d4 d5 d6 : Z) :
  hexValue c1 = Some d1 -> hexValue c2 = Some d2 -> hexValue c3 = Some d3 ->
  hexValue c4 = Some d4 -> hexValue c5 = Some d5 -> hexValue c6 = Some d6 ->
  let hex := String c1 (String c2 (String c3 (String c4 (String c5 (String c6 EmptyString))))) in
  let v := (16 * d1 + d2) * 2 ^ 16 + (16 * d3 + d4) * 2 ^ 8 + (16 * d5 + d6) in
  parseInt16 hex = Finite v /\ 0 <= v < 2 ^ 24.
Proof.
  intros H1 H2 H3 H4 H5 H6 hex v.
  destruct (hexValue_plain _ _ H1) as (Hw & Hm & Hp & _ & _ & R1).
  destruct (hexValue_plain _ _ H2) as (_ & _ & _ & Hx & HX & R2).
  pose proof (hexValue_plain _ _ H3) as (_ & _ & _ & _ & _ & R3).
  pose proof (hexValue_plain _ _ H4) as (_ & _ & _ & _ & _ & R4).
  pose proof (hexValue_plain _ _ H5) as (_ & _ & _ & _ & _ & R5).
  pose proof (hexValue_plain _ _ H6) as (_ & _ & _ & _ & _ & R6).
  assert (Hv : 0 <= v < 2 ^ 24) by (unfold v; lia).
  split; [|done].
  unfold parseInt16, hex. cbn [trimStart]. rewrite Hw.
  cbn [splitSign]. rewrite Hm, Hp.
  cbn [stripPrefix]. rewrite Hx, HX, andb_false_r.
  cbn [digitPrefix default]. rewrite H1, H2, H3, H4, H5, H6. cbn [default option_rect id].
  rewrite <- (toDouble_small v Hv). f_equal. unfold v. lia.
Qed.

Lemma adjustColor_six (c1 c2 c3 c4 c5 c6 : ascii) (d1 d2 d3 d4 d5 d6 amount : Z) :
  hexValue c1 = Some d1 -> hexValue c2 = Some d2 -> hexValue c3 = Some d3 ->
  hexValue c4 = Some d4 -> hexValue c5 = Some d5 -> hexValue c6 = Some d6 ->
  _adjustColor
    (String "#"%char
       (String c1 (String c2 (String c3 (String c4 (String c5 (String c6 EmptyString)))))))
    amount =
  rgb (clampChannel (16 * d1 + d2 + amount))
      (clampChannel (16 * d3 + d4 + amount))
      (clampChannel (16 * d5 + d6 + amount)).
Proof.
  intros H1 H2 H3 H4 H5 H6.
  destruct (parseInt16_six _ _ _ _ _ _ _ _ _ _ _ _ H1 H2 H3 H4 H5 H6) as [Hp Hv].
  pose proof (hexValue_plain _ _ H1) as (_ & _ & _ & _ & _ & R1).
  pose proof (hexValue_plain _ _ H2) as (_ & _ & _ & _ & _ & R2).
  pose proof (hexValue_plain _ _ H3) as (_ & _ & _ & _ & _ & R3).
  pose proof (hexValue_plain _ _ H4) as (_ & _ & _ & _ & _ & R4).
  pose proof (hexValue_plain _ _ H5) as (_ & _ & _ & _ & _ & R5).
  pose proof (hexValue_plain _ _ H6) as (_ & _ & _ & _ & _ & R6).
  rewrite (fun Hl => adjustColor_value _ _ amount Hl Hp Hv) by (cbn; lia).
  change (2 ^ 16) with 65536. change (2 ^ 8) with 256.
  set (hi := 16 * d1 + d2). set (mid := 16 * d3 + d4). set (lo := 16 * d5 + d6).
  assert (0 <= hi < 256 /\ 0 <= mid < 256 /\ 0 <= lo < 256) as (Rh & Rm & Rl)
    by (unfold hi, mid, lo; lia).
  clearbody hi mid lo.
  replace ((hi * 65536 + mid * 256 + lo) / 65536) with hi
    by (Z.to_euclidean_division_equations; lia).
  replace ((hi * 65536 + mid * 256 + lo) / 256) with (hi * 256 + mid)
    by (Z.to_euclidean_division_equations; lia).
  replace ((hi * 256 + mid) mod 256) with mid
    by (Z.to_euclidean_division_equations; lia).
  replace ((hi * 65536 + mid * 256 + lo) mod 256) with lo
    by (Z.to_euclidean_division_equations; lia).
  reflexivity.
Qed.

Lemma adjustColor_rgb (r g b amount : Z) :
  0 <= r <= 255 -> 0 <= g <= 255 -> 0 <= b <= 255 ->
  _adjustColor (rgb r g b) amount =
  rgb (clampChannel (r + amount)) (clampChannel (g + amount)) (clampChannel (b + amount)).
Proof.
  intros Hr Hg Hb.
  assert (Hd : forall v, 0 <= v <= 255 ->
    hexValue (hexDigit (v / 16)) = Some (v / 16) /\
    hexValue (hexDigit (v mod 16)) = Some (v mod 16) /\ 16 * (v / 16) + v mod 16 = v).
  { intros v Hv. repeat split.
    - apply hexValue_hexDigit. Z.to_euclidean_division_equations; lia.
    - apply hexValue_hexDigit. Z.to_euclidean_division_equations; lia.
    - Z.to_euclidean_division_equations; lia. }
  destruct (Hd r Hr) as (R1 & R2 & Er), (Hd g Hg) as (G1 & G2 & Eg),
    (Hd b Hb) as (B1 & B2 & Eb).
  unfold rgb at 1, hex2. cbn [String.append].
  rewrite (adjustColor_six _ _ _ _ _ _ _ _ _ _ _ _ amount R1 R2 G1 G2 B1 B2).
  by rewrite Er, Eg, Eb.
Qed.

(** X14.  Whatever follows the [#], and whatever the amount, [_adjustColor]
    returns a [#] and six lowercase radix-16 digits, two for each of three
    channels between 0 and 255: a text that is no colour ([#zz], [#12], an
    eight-digit colour with its alpha) still gives one.  A text that does
    not start with [#] is returned as it is. *)
Theorem adjustColor_shape (color : string) (amount : Z) :
  match color with
  | String "#"%char _ =>
      exists r g b : Z,
        (0 <= r <= 255) /\ (0 <= g <= 255) /\ (0 <= b <= 255) /\
        _adjustColor color amount = rgb r g b /\
        String.length (_adjustColor color amount) = 7%nat
  | _ => _adjustColor color amount = color
  end.
Proof.
  destruct color as [|a rest]; [done|].
  destruct a as [[] [] [] [] [] [] [] []]; try reflexivity.
  eexists _, _, _. unfold _adjustColor.
  rewrite toString16_channels by apply clampChannel_range.
  split_and!; try apply clampChannel_range; reflexivity.
Qed.

(** X15.  On a colour of six radix-16 digits, of either case,
    [_adjustColor] adds the amount to each of the three channels and
    clamps each sum to 0..255 on its own: a channel that reaches a bound
    stays there and the others still move. *)
Theorem adjustColor_channels (c1 c2 c3 c4 c5 c6 : ascii) (d1 d2 d3 d4 d5 d6 amount : Z) :
  hexValue c1 = Some d1 -> hexValue c2 = Some d2 -> hexValue c3 = Some d3 ->
  hexValue c4 = Some d4 -> hexValue c5 = Some d5 -> hexValue c6 = Some d6 ->
  _adjustColor
    (String "#"%char
       (String c1 (String c2 (String c3 (String c4 (String c5 (String c6 EmptyString)))))))
    amount =
  rgb (Z.min 255 (Z.max 0 (16 * d1 + d2 + amount)))
      (Z.min 255 (Z.max 0 (16 * d3 + d4 + amount)))
      (Z.min 255 (Z.max 0 (16 * d5 + d6 + amount))).
Proof. apply adjustColor_six. Qed.

Lemma adjustColor_channels_witness :
  _adjustColor "#f5f5dc" (-10) = "#ebebd2"%string.
Proof.
  exact (adjustColor_channels "f" "5" "f" "5" "d" "c" 15 5 15 5 13 12 (-10)
           eq_refl eq_refl eq_refl eq_refl eq_refl eq_refl).
Defined.

(** X16.  A colour of three radix-16 digits is read with each digit
    doubled: the channel of digit [d] is [17 * d]. *)
Theorem adjustColor_shorthand (c1 c2 c3 : ascii) (d1 d2 d3 amount : Z) :
  hexValue c1 = Some d1 -> hexValue c2 = Some d2 -> hexValue c3 = Some d3 ->
  _adjustColor (String "#"%char (String c1 (String c2 (String c3 EmptyString)))) amount =
  rgb (clampChannel (17 * d1 + amount))
      (clampChannel (17 * d2 + amount))
      (clampChannel (17 * d3 + amount)).
Proof.
  intros H1 H2 H3.
  change (_adjustColor (String "#"%char (String c1 (String c2 (String c3 EmptyString)))) amount)
    with (_adjustColor
            (String "#"%char
               (String c1 (String c1 (String c2 (String c2 (String c3 (String c3 EmptyString)))))))
            amount).
  rewrite (adjustColor_six _ _ _ _ _ _ _ _ _ _ _ _ amount H1 H1 H2 H2 H3 H3).
  f_equal; f_equal; lia.
Qed.

Lemma adjustColor_shorthand_witness :
  _adjustColor "#FFF" (-10) = "#f5f5f5"%string.
Proof.
  exact (adjustColor_shorthand "F" "F" "F" 15 15 15 (-10) eq_refl eq_refl eq_refl).
Defined.

(** X17.  The text [_adjustColor] writes is one it reads back: on the
    six-digit lowercase text of three channels it returns the text of the
    channels moved by the amount and clamped, so amount 0 returns the
    text unchanged. *)
Theorem adjustColor_reads_its_own_output (r g b amount : Z) :
  0 <= r <= 255 -> 0 <= g <= 255 -> 0 <= b <= 255 ->
  _adjustColor (rgb r g b) amount =
    rgb (clampChannel (r + amount)) (clampChannel (g + amount)) (clampChannel (b + amount)) /\
  _adjustColor (rgb r g b) 0 = rgb r g b.
Proof.
  intros Hr Hg Hb. split; [by apply adjustColor_rgb|].
  rewrite adjustColor_rgb by done.
  unfold clampChannel. f_equal; f_equal; lia.
Qed.

Lemma adjustColor_reads_its_own_output_witness :
  _adjustColor (rgb 245 245 220) (-10) =
    rgb (clampChannel (245 + -10)) (clampChannel (245 + -10)) (clampChannel (220 + -10)) /\
  _adjustColor (rgb 245 245 220) 0 = rgb 245 245 220.
Proof.
  apply (adjustColor_reads_its_own_output 245 245 220 (-10)); lia.
Defined.

(** X18.  Two adjustments of a six-digit colour in the same direction
    amount to one adjustment by their sum. *)
Theorem adjustColor_accumulates (c1 c2 c3 c4 c5 c6 : ascii) (d1 d2 d3 d4 d5 d6 a b : Z) :
  hexValue c1 = Some d1 -> hexValue c2 = Some d2 -> hexValue c3 = Some d3 ->
  hexValue c4 = Some d4 -> hexValue c5 = Some d5 -> hexValue c6 = Some d6 ->
  (0 <= a /\ 0 <= b) \/ (a <= 0 /\ b <= 0) ->
  let color :=
    String "#"%char
      (String c1 (String c2 (String c3 (String c4 (String c5 (String c6 EmptyString)))))) in
  _adjustColor (_adjustColor color a) b = _adjustColor color (a + b).
Proof.
  intros H1 H2 H3 H4 H5 H6 Hab color. unfold color.
  rewrite !(adjustColor_six _ _ _ _ _ _ _ _ _ _ _ _ _ H1 H2 H3 H4 H5 H6).
  rewrite adjustColor_rgb by apply clampChannel_range.
  pose proof (hexValue_plain _ _ H1) as (_ & _ & _ & _ & _ & R1).
  pose proof (hexValue_plain _ _ H2) as (_ & _ & _ & _ & _ & R2).
  pose proof (hexValue_plain _ _ H3) as (_ & _ & _ & _ & _ & R3).
  pose proof (hexValue_plain _ _ H4) as (_ & _ & _ & _ & _ & R4).
  pose proof (hexValue_plain _ _ H5) as (_ & _ & _ & _ & _ & R5).
  pose proof (hexValue_plain _ _ H6) as (_ & _ & _ & _ & _ & R6).
  rewrite !clampChannel_twice by lia. reflexivity.
Qed.

Lemma adjustColor_accumulates_witness :
  _adjustColor (_adjustColor "#f5f5dc" (-10)) (-30) = _adjustColor "#f5f5dc" (-10 + -30).
Proof.
  apply (adjustColor_accumulates "f" "5" "f" "5" "d" "c" 15 5 15 5 13 12 (-10) (-30));
    [reflexivity.. | right; lia].
Defined.
